(** * rebound: the IAS15 integrator with hierarchical sub-stepping, and the
      binary restart reader

    A shallow embedding of [src/integrator_ias15.c] and of [input_binary] in
    [src/input.c].  C [double]s are Rocq's primitive binary64 floats, so every
    arithmetic expression below rounds exactly as the compiled C does (without
    fused multiply-add contraction); C [int]s are [Z], whose overflow C leaves
    undefined; the flat scratch buffers are lists read with [!!!] and written
    with [<[ _ := _ ]>], so a read past the end gives [0] and a write past the
    end does nothing where C leaves both undefined.  What the step routine
    prints on [stdout] is left out; its warning on [stderr] is kept. *)

From Stdlib Require Import ZArith Floats Uint63 Lia.
From stdpp Require Import base list.

Set Warnings "-inexact-float".
Set Default Proof Using "Type".

(** ** C doubles *)

#[global] Instance float_inhabited : Inhabited float := populate 0%float.

(** [isnormal] of math.h: neither zero, subnormal, infinite nor NaN. *)
Definition isnormal (f : float) : bool :=
  match classify f with
  | PNormal | NNormal => true
  | _ => false
  end.

Definition fabs (f : float) : float := PrimFloat.abs f.

(** Conversion of an [int] to [double] (exact for every 32-bit value); the
    source applies [isnormal] to an [int], which converts it first. *)
Definition double_of_int (v : Z) : float :=
  if (v <? 0)%Z then PrimFloat.opp (of_uint63 (Uint63.of_Z (- v)))
  else of_uint63 (Uint63.of_Z v).

(** ** The particle store *)

Module Particle.

(** Modelled from the spec: [particle.h] is not among the sources.  The
    fields are the ones the integrator and the restart reader touch (spec,
    section 3); [xpast], [ypast] and [zpast] are two-dimensional tables whose
    extent is declared in the missing header, so they are total tables over
    integer indices here. *)
Record particle := mk {
  x : float; y : float; z : float;
  vx : float; vy : float; vz : float;
  ax : float; ay : float; az : float;
  tdone : float;
  dtdone : float;
  dtexp : Z;
  xpast : Z → Z → float;
  ypast : Z → Z → float;
  zpast : Z → Z → float;
  number : Z
}.

Definition zero : particle :=
  mk 0 0 0 0 0 0 0 0 0 0 0 0%Z (λ _ _, 0%float) (λ _ _, 0%float) (λ _ _, 0%float) 0%Z.

Definition set_pos (p : particle) (x' y' z' : float) : particle :=
  mk x' y' z' (vx p) (vy p) (vz p) (ax p) (ay p) (az p)
     (tdone p) (dtdone p) (dtexp p) (xpast p) (ypast p) (zpast p) (number p).

Definition set_vel (p : particle) (vx' vy' vz' : float) : particle :=
  mk (x p) (y p) (z p) vx' vy' vz' (ax p) (ay p) (az p)
     (tdone p) (dtdone p) (dtexp p) (xpast p) (ypast p) (zpast p) (number p).

Definition set_acc (p : particle) (a : float * float * float) : particle :=
  mk (x p) (y p) (z p) (vx p) (vy p) (vz p) a.1.1 a.1.2 a.2
     (tdone p) (dtdone p) (dtexp p) (xpast p) (ypast p) (zpast p) (number p).

Definition set_done (p : particle) (td dtd : float) : particle :=
  mk (x p) (y p) (z p) (vx p) (vy p) (vz p) (ax p) (ay p) (az p)
     td dtd (dtexp p) (xpast p) (ypast p) (zpast p) (number p).

Definition set_dtexp (p : particle) (v : Z) : particle :=
  mk (x p) (y p) (z p) (vx p) (vy p) (vz p) (ax p) (ay p) (az p)
     (tdone p) (dtdone p) v (xpast p) (ypast p) (zpast p) (number p).

(** [tbl[i][j] = v] on one of the cached-position tables. *)
Definition tbl_set (tbl : Z → Z → float) (i j : Z) (v : float) : Z → Z → float :=
  λ i' j', if bool_decide (i' = i ∧ j' = j) then v else tbl i' j'.

(** [p.xpast[i][j] = p.x; p.ypast[i][j] = p.y; p.zpast[i][j] = p.z]. *)
Definition cache_pos (p : particle) (i j : Z) : particle :=
  mk (x p) (y p) (z p) (vx p) (vy p) (vz p) (ax p) (ay p) (az p)
     (tdone p) (dtdone p) (dtexp p)
     (tbl_set (xpast p) i j (x p)) (tbl_set (ypast p) i j (y p))
     (tbl_set (zpast p) i j (z p)) (number p).

End Particle.

Abbreviation particle := Particle.particle.

#[global] Instance particle_inhabited : Inhabited particle := populate Particle.zero.

(** ** Flat arrays and counted loops *)

(** [for (k = lo; k < lo + n; k++) body], threading the state. *)
Definition for_ {S : Type} (lo n : nat) (body : nat → S → S) (s : S) : S :=
  foldl (λ acc k, body k acc) s (seq lo n).

(** The seven coefficient arrays [A[0..6]], each a flat array of doubles. *)
Definition rd (A : list (list float)) (l k : nat) : float := (A !!! l) !!! k.

Definition wr (A : list (list float)) (l k : nat) (v : float) : list (list float) :=
  <[l := <[k := v]> (A !!! l)]> A.

(** [A.[i]] reads the array cell [A[i]]. *)
Notation "A .[ i ]" := (A !!! (i%nat : nat))
  (at level 1, left associativity, format "A .[ i ]").

(** [realloc] to [n] doubles: the old contents are kept, the new tail is
    indeterminate in C and zero here. *)
Definition realloc (l : list float) (n : nat) : list float := resize n 0%float l.

(** ** The integrator: [integrator_ias15.c] *)

Module IAS15.

Import Particle.

(** Gauss-Radau spacings. *)
Definition h : list float :=
  [ 0.0; 0.0562625605369221464656521910; 0.1802406917368923649875799428;
    0.3526247171131696373739077702; 0.5471536263305553830014485577;
    0.7342101772154105410531523211; 0.8853209468390957680903597629;
    0.9775206135612875018911745004; 1.0 ]%float.

(** Other constants. *)
Definition r : list float :=
  [ 0.0562625605369221464656522; 0.1802406917368923649875799;
    0.1239781311999702185219278; 0.3526247171131696373739078;
    0.2963621565762474909082556; 0.1723840253762772723863278;
    0.5471536263305553830014486; 0.4908910657936332365357964;
    0.3669129345936630180138686; 0.1945289092173857456275408;
    0.7342101772154105410531523; 0.6779476166784883945875001;
    0.5539694854785181760655724; 0.3815854601022409036792446;
    0.1870565508848551580517038; 0.8853209468390957680903598;
    0.8290583863021736216247076; 0.7050802551022034031027798;
    0.5326962297259261307164520; 0.3381673205085403850889112;
    0.1511107696236852270372074; 0.9775206135612875018911745;
    0.9212580530243653554255223; 0.7972799218243951369035946;
    0.6248958964481178645172667; 0.4303669872307321188897259;
    0.2433104363458769608380222; 0.0921996667221917338008147 ]%float.

Definition c : list float :=
  [ -0.0562625605369221464656522; 0.0101408028300636299864818;
    -0.2365032522738145114532321; -0.0035758977292516175949345;
    0.0935376952594620658957485; -0.5891279693869841488271399;
    0.0019565654099472210769006; -0.0547553868890686864408084;
    0.4158812000823068616886219; -1.1362815957175395318285885;
    -0.0014365302363708915610919; 0.0421585277212687082291130;
    -0.3600995965020568162530901; 1.2501507118406910366792415;
    -1.8704917729329500728817408; 0.0012717903090268677658020;
    -0.0387603579159067708505249; 0.3609622434528459872559689;
    -1.4668842084004269779203515; 2.9061362593084293206895457;
    -2.7558127197720458409721005 ]%float.

Definition d : list float :=
  [ 0.0562625605369221464656522; 0.0031654757181708292499905;
    0.2365032522738145114532321; 0.0001780977692217433881125;
    0.0457929855060279188954539; 0.5891279693869841488271399;
    0.0000100202365223291272096; 0.0084318571535257015445000;
    0.2535340690545692665214616; 1.1362815957175395318285885;
    0.0000005637641639318207610; 0.0015297840025004658189490;
    0.0978342365324440053653648; 0.8752546646840910912297246;
    1.8704917729329500728817408; 0.0000000317188154017613665;
    0.0002762930909826476593130; 0.0360285539837364596003871;
    0.5767330002770787313544596; 2.2485887607691598182153473;
    2.7558127197720458409721005 ]%float.

(** Maximum increase/decrease of consecutive timesteps (declared in the
    source, read nowhere). *)
Definition safety_factor : float := 0.25%float.

(** What the step routine writes to [stderr]. *)
Inductive message :=
| Warning_not_converged (integrator_iterations_warning : Z).

(** The process-wide variables the step routine reads and writes.  [N] is
    the length of [particles]; [at_] is the buffer [at]. *)
Record state := mk_state {
  particles : list particle;
  t : float;
  dt : float;
  integrator_force_is_velocitydependent : Z;
  integrator_epsilon : float;
  integrator_min_dt : float;
  integrator_max_dt : float;
  integrator_iterations_max_exceeded : Z;
  N3allocated : nat;
  at_ : list float;
  x0 : list float;
  v0 : list float;
  a0 : list float;
  csx : list float;
  csv : list float;
  g : list (list float);
  b : list (list float);
  e : list (list float);
  br : list (list float);
  er : list (list float);
  dtexp : Z;
  dtexp_substep : Z → Z;
  dtexp_min : Z;
  stderr : list message
}.

(** The variables as the C initialisers leave them, around a given particle
    store: all buffers are [NULL], nothing is allocated. *)
Definition initial (ps : list particle) : state :=
  {| particles := ps; t := 0; dt := 0;
     integrator_force_is_velocitydependent := 1;
     integrator_epsilon := 1e-5;
     integrator_min_dt := 0;
     integrator_max_dt := 0;
     integrator_iterations_max_exceeded := 0;
     N3allocated := 0;
     at_ := []; x0 := []; v0 := []; a0 := []; csx := []; csv := [];
     g := replicate 7 []; b := replicate 7 []; e := replicate 7 [];
     br := replicate 7 []; er := replicate 7 [];
     dtexp := 0; dtexp_substep := λ _, 0%Z; dtexp_min := 0;
     stderr := [] |}.

(** The tunables as a problem file assigns them before the first step. *)
Definition configure (st : state) (epsilon min_dt max_dt : float) : state :=
  {| particles := particles st; t := t st; dt := dt st;
     integrator_force_is_velocitydependent :=
       integrator_force_is_velocitydependent st;
     integrator_epsilon := epsilon;
     integrator_min_dt := min_dt;
     integrator_max_dt := max_dt;
     integrator_iterations_max_exceeded :=
       integrator_iterations_max_exceeded st;
     N3allocated := N3allocated st;
     at_ := at_ st; x0 := x0 st; v0 := v0 st; a0 := a0 st;
     csx := csx st; csv := csv st;
     g := g st; b := b st; e := e st; br := br st; er := er st;
     dtexp := dtexp st; dtexp_substep := dtexp_substep st;
     dtexp_min := dtexp_min st; stderr := stderr st |}.

(** [h[i]] for an [int] index. *)
Definition h_at (i : Z) : float := h !!! Z.to_nat i.

(** [dt = max_dt; for (i = 0; i < -dtexp; i++) dt *= h[st+1] - h[st]] with
    [st = dtexp_substep[i]]: the length of the current sub-interval chain. *)
Definition chain_dt (max_dt : float) (substep : Z → Z) (dtexp : Z) : float :=
  for_ 0 (Z.to_nat (- dtexp))
    (λ i acc,
       let st := substep (Z.of_nat i) in
       let st_dt := (h_at (st + 1) - h_at st)%float in
       (acc * st_dt)%float)
    max_dt.

(** The first block of the step routine: grow the buffers when [3 N]
    exceeds what is allocated; [b], [e], [br], [er], [csx] and [csv] are
    zeroed. *)
Definition zero_fill (n : nat) (row : list float) : list float :=
  for_ 0 n (λ k acc, <[k := 0%float]> acc) row.

Definition allocate (st : state) : state :=
  let N3 := 3 * length (particles st) in
  if bool_decide (N3allocated st < N3) then
    let grow (A : list (list float)) :=
      for_ 0 7 (λ l acc, <[l := realloc (acc !!! l) N3]> acc) A in
    let grow0 (A : list (list float)) :=
      for_ 0 7 (λ l acc, <[l := zero_fill N3 (realloc (acc !!! l) N3)]> acc) A in
    {| particles := particles st; t := t st; dt := dt st;
       integrator_force_is_velocitydependent :=
         integrator_force_is_velocitydependent st;
       integrator_epsilon := integrator_epsilon st;
       integrator_min_dt := integrator_min_dt st;
       integrator_max_dt := integrator_max_dt st;
       integrator_iterations_max_exceeded :=
         integrator_iterations_max_exceeded st;
       N3allocated := N3;
       at_ := realloc (at_ st) N3;
       x0 := realloc (x0 st) N3;
       v0 := realloc (v0 st) N3;
       a0 := realloc (a0 st) N3;
       csx := zero_fill N3 (realloc (csx st) N3);
       csv := zero_fill N3 (realloc (csv st) N3);
       g := grow (g st);
       b := grow0 (b st);
       e := grow0 (e st);
       br := grow0 (br st);
       er := grow0 (er st);
       dtexp := dtexp st; dtexp_substep := dtexp_substep st;
       dtexp_min := dtexp_min st; stderr := stderr st |}
  else st.

(** The warm start, one component [k]: [e] is the extrapolation of [br] in
    powers of [q = dt / dtdone]; the statements that would add the
    correction [br - er] to [b] are commented out in the source, which
    stores [0.] instead. *)
Definition warm_start_k (ps : list particle) (dt : float) (br : list (list float))
    (k : nat) (eb : list (list float) * list (list float))
    : list (list float) * list (list float) :=
  let '(e, b) := eb in
  if isnormal (dtdone ps.[k / 3]) then
    let q1 := (dt / dtdone ps.[k / 3])%float in
    let q2 := (q1 * q1)%float in
    let q3 := (q1 * q2)%float in
    let q4 := (q2 * q2)%float in
    let q5 := (q2 * q3)%float in
    let q6 := (q3 * q3)%float in
    let q7 := (q3 * q4)%float in
    let e := wr e 0 k (q1 * (rd br 6 k * 7.0 + rd br 5 k * 6.0 + rd br 4 k * 5.0
                             + rd br 3 k * 4.0 + rd br 2 k * 3.0 + rd br 1 k * 2.0
                             + rd br 0 k))%float in
    let e := wr e 1 k (q2 * (rd br 6 k * 21.0 + rd br 5 k * 15.0 + rd br 4 k * 10.0
                             + rd br 3 k * 6.0 + rd br 2 k * 3.0 + rd br 1 k))%float in
    let e := wr e 2 k (q3 * (rd br 6 k * 35.0 + rd br 5 k * 20.0 + rd br 4 k * 10.0
                             + rd br 3 k * 4.0 + rd br 2 k))%float in
    let e := wr e 3 k (q4 * (rd br 6 k * 35.0 + rd br 5 k * 15.0 + rd br 4 k * 5.0
                             + rd br 3 k))%float in
    let e := wr e 4 k (q5 * (rd br 6 k * 21.0 + rd br 5 k * 6.0 + rd br 4 k))%float in
    let e := wr e 5 k (q6 * (rd br 6 k * 7.0 + rd br 5 k))%float in
    let e := wr e 6 k (q7 * rd br 6 k)%float in
    let b := wr b 0 k 0%float in
    let b := wr b 1 k 0%float in
    let b := wr b 2 k 0%float in
    let b := wr b 3 k 0%float in
    let b := wr b 4 k 0%float in
    let b := wr b 5 k 0%float in
    let b := wr b 6 k 0%float in
    (e, b)
  else
    let e := wr e 0 k 0%float in
    let e := wr e 1 k 0%float in
    let e := wr e 2 k 0%float in
    let e := wr e 3 k 0%float in
    let e := wr e 4 k 0%float in
    let e := wr e 5 k 0%float in
    let e := wr e 6 k 0%float in
    let b := wr b 0 k 0%float in
    let b := wr b 1 k 0%float in
    let b := wr b 2 k 0%float in
    let b := wr b 3 k 0%float in
    let b := wr b 4 k 0%float in
    let b := wr b 5 k 0%float in
    let b := wr b 6 k 0%float in
    (e, b).

Definition warm_start (ps : list particle) (dt : float) (br e b : list (list float))
    : list (list float) * list (list float) :=
  for_ 0 (3 * length ps) (warm_start_k ps dt br) (e, b).

(** What the spec describes instead (section 4.2): the same [e], and
    [b_j = e_j + (br_j - er_j)]. *)
Definition bd_correction (e br er : list (list float)) (j k : nat) : float :=
  (rd e j k + (rd br j k - rd er j k))%float.

(** [x0], [v0], [a0] take the particles' state at step entry. *)
Definition capture_k (ps : list particle) (k : nat)
    (xva : list float * list float * list float)
    : list float * list float * list float :=
  let '(x0, v0, a0) := xva in
  let p := ps.[k] in
  let x0 := <[3 * k := x p]> x0 in
  let x0 := <[3 * k + 1 := y p]> x0 in
  let x0 := <[3 * k + 2 := z p]> x0 in
  let v0 := <[3 * k := vx p]> v0 in
  let v0 := <[3 * k + 1 := vy p]> v0 in
  let v0 := <[3 * k + 2 := vz p]> v0 in
  let a0 := <[3 * k := ax p]> a0 in
  let a0 := <[3 * k + 1 := ay p]> a0 in
  let a0 := <[3 * k + 2 := az p]> a0 in
  (x0, v0, a0).

Definition capture (ps : list particle) (x0 v0 a0 : list float)
    : list float * list float * list float :=
  for_ 0 (length ps) (capture_k ps) (x0, v0, a0).

(** [g] from [b] through the table [d]. *)
Definition g_from_b_k (b : list (list float)) (k : nat) (g : list (list float))
    : list (list float) :=
  let g := wr g 0 k (rd b 6 k * d.[15] + rd b 5 k * d.[10] + rd b 4 k * d.[6]
                     + rd b 3 k * d.[3] + rd b 2 k * d.[1] + rd b 1 k * d.[0]
                     + rd b 0 k)%float in
  let g := wr g 1 k (rd b 6 k * d.[16] + rd b 5 k * d.[11] + rd b 4 k * d.[7]
                     + rd b 3 k * d.[4] + rd b 2 k * d.[2] + rd b 1 k)%float in
  let g := wr g 2 k (rd b 6 k * d.[17] + rd b 5 k * d.[12] + rd b 4 k * d.[8]
                     + rd b 3 k * d.[5] + rd b 2 k)%float in
  let g := wr g 3 k (rd b 6 k * d.[18] + rd b 5 k * d.[13] + rd b 4 k * d.[9]
                     + rd b 3 k)%float in
  let g := wr g 4 k (rd b 6 k * d.[19] + rd b 5 k * d.[14] + rd b 4 k)%float in
  let g := wr g 5 k (rd b 6 k * d.[20] + rd b 5 k)%float in
  let g := wr g 6 k (rd b 6 k) in
  g.

Definition g_from_b (N3 : nat) (b g : list (list float)) : list (list float) :=
  for_ 0 N3 (g_from_b_k b) g.

(** [for (i = 0; i < N; i++)] over the particle store, for a body that
    writes [particles[i]] only. *)
Definition for_each_particle (f : nat → particle → particle) (ps : list particle)
    : list particle :=
  for_ 0 (length ps) (λ i acc, <[i := f i acc.[i]]> acc) ps.

(** Everything of the step routine up to the predictor corrector loop. *)
Definition prepare (st : state) : state :=
  let st := allocate st in
  let N3 := 3 * length (particles st) in
  let dt := chain_dt (integrator_max_dt st) (dtexp_substep st) (dtexp st) in
  let '(e, b) := warm_start (particles st) dt (br st) (e st) (b st) in
  let '(x0, v0, a0) := capture (particles st) (x0 st) (v0 st) (a0 st) in
  let g := g_from_b N3 b (g st) in
  {| particles := particles st; t := t st; dt := dt;
     integrator_force_is_velocitydependent :=
       integrator_force_is_velocitydependent st;
     integrator_epsilon := integrator_epsilon st;
     integrator_min_dt := integrator_min_dt st;
     integrator_max_dt := integrator_max_dt st;
     integrator_iterations_max_exceeded :=
       integrator_iterations_max_exceeded st;
     N3allocated := N3allocated st;
     at_ := at_ st; x0 := x0; v0 := v0; a0 := a0;
     csx := csx st; csv := csv st;
     g := g; b := b; e := e; br := br st; er := er st;
     dtexp := dtexp st; dtexp_substep := dtexp_substep st;
     dtexp_min := dtexp_min st; stderr := stderr st |}.

(** The integration weights [s[0..8]] of the position predictor.  The
    global array [s] is scratch: every read of it follows the writes of the
    same block, so the weights are local values here. *)
Definition position_weights (dt hn : float) : list float :=
  let s0 := (dt * hn)%float in
  let s1 := (s0 * s0 / 2)%float in
  let s2 := (s1 * hn / 3)%float in
  let s3 := (s2 * hn / 2)%float in
  let s4 := (3 * s3 * hn / 5)%float in
  let s5 := (2 * s4 * hn / 3)%float in
  let s6 := (5 * s5 * hn / 7)%float in
  let s7 := (3 * s6 * hn / 4)%float in
  let s8 := (7 * s7 * hn / 9)%float in
  [s0; s1; s2; s3; s4; s5; s6; s7; s8].

(** The weights [s[0..7]] of the velocity predictor at node [n]. *)
Definition velocity_weights (dt : float) (n : nat) : list float :=
  let s0 := (dt * h.[n])%float in
  let s1 := (s0 * h.[n] / 2)%float in
  let s2 := (2 * s1 * h.[n] / 3)%float in
  let s3 := (3 * s2 * h.[n] / 4)%float in
  let s4 := (4 * s3 * h.[n] / 5)%float in
  let s5 := (5 * s4 * h.[n] / 6)%float in
  let s6 := (6 * s5 * h.[n] / 7)%float in
  let s7 := (7 * s6 * h.[n] / 8)%float in
  [s0; s1; s2; s3; s4; s5; s6; s7].

(** [xk + x0[k]] with [xk = csx[k] + (s[8]*b[6][k] + ... + s[0]*v0[k])]. *)
Definition predicted_position (st : state) (b : list (list float))
    (s : list float) (k : nat) : float :=
  let xk := ((csx st).[k]
             + (s.[8] * rd b 6 k + s.[7] * rd b 5 k + s.[6] * rd b 4 k
                + s.[5] * rd b 3 k + s.[4] * rd b 2 k + s.[3] * rd b 1 k
                + s.[2] * rd b 0 k + s.[1] * (a0 st).[k] + s.[0] * (v0 st).[k]))%float in
  (xk + (x0 st).[k])%float.

(** [vk + v0[k]] with [vk = csv[k] + s[7]*b[6][k] + ... + s[0]*a0[k]]. *)
Definition predicted_velocity (st : state) (b : list (list float))
    (s : list float) (k : nat) : float :=
  let vk := ((csv st).[k] + s.[7] * rd b 6 k + s.[6] * rd b 5 k + s.[5] * rd b 4 k
             + s.[4] * rd b 3 k + s.[3] * rd b 2 k + s.[2] * rd b 1 k
             + s.[1] * rd b 0 k + s.[0] * (a0 st).[k])%float in
  (vk + (v0 st).[k])%float.

(** Position of particle [i] at node [n]: read from the cache for a
    particle of a finer class than the global one, predicted otherwise. *)
Definition predict_position (st : state) (b : list (list float)) (n : nat)
    (i : nat) (p : particle) : particle :=
  if (Particle.dtexp p <? dtexp st)%Z then
    set_pos p (xpast p (- dtexp st + 1)%Z (Z.of_nat n))
              (ypast p (- dtexp st + 1)%Z (Z.of_nat n))
              (zpast p (- dtexp st + 1)%Z (Z.of_nat n))
  else
    let hn := (h.[n] + (t st - tdone p) / dt st)%float in
    let s := position_weights (dt st) hn in
    set_pos p (predicted_position st b s (3 * i + 0))
              (predicted_position st b s (3 * i + 1))
              (predicted_position st b s (3 * i + 2)).

Definition predict_velocity (st : state) (b : list (list float)) (n : nat)
    (i : nat) (p : particle) : particle :=
  let s := velocity_weights (dt st) n in
  set_vel p (predicted_velocity st b s (3 * i + 0))
            (predicted_velocity st b s (3 * i + 1))
            (predicted_velocity st b s (3 * i + 2)).

(** [at] takes the accelerations of the particles of the current class. *)
Definition copy_at_k (st : state) (ps : list particle) (k : nat) (at_ : list float)
    : list float :=
  if bool_decide (Particle.dtexp ps.[k] ≠ dtexp st) then at_
  else
    let at_ := <[3 * k := ax ps.[k]]> at_ in
    let at_ := <[3 * k + 1 := ay ps.[k]]> at_ in
    let at_ := <[3 * k + 2 := az ps.[k]]> at_ in
    at_.

(** ** Improving [b] and [g] at node [n] *)

(** The state of the seven [switch] cases: [g], [b] and
    [predictor_corrector_error]. *)
Definition gbe : Type := list (list float) * list (list float) * float.

(** [if (particles[k/3].dtexp != dtexp) continue;] *)
Definition in_class (st : state) (ps : list particle) (k : nat) : bool :=
  bool_decide (Particle.dtexp ps.[k / 3] = dtexp st).

Definition guard (st : state) (ps : list particle) (body : nat → gbe → gbe)
    (k : nat) (s : gbe) : gbe :=
  if in_class st ps k then body k s else s.

Definition case1_k (at_ a0 : list float) (k : nat) (s : gbe) : gbe :=
  let '(g, b, err) := s in
  let tmp := rd g 0 k in
  let g := wr g 0 k ((at_.[k] - a0.[k]) / r.[0])%float in
  let b := wr b 0 k (rd b 0 k + (rd g 0 k - tmp))%float in
  (g, b, err).

Definition case2_k (at_ a0 : list float) (k : nat) (s : gbe) : gbe :=
  let '(g, b, err) := s in
  let tmp := rd g 1 k in
  let gk := (at_.[k] - a0.[k])%float in
  let g := wr g 1 k ((gk / r.[1] - rd g 0 k) / r.[2])%float in
  let tmp := (rd g 1 k - tmp)%float in
  let b := wr b 0 k (rd b 0 k + tmp * c.[0])%float in
  let b := wr b 1 k (rd b 1 k + tmp)%float in
  (g, b, err).

Definition case3_k (at_ a0 : list float) (k : nat) (s : gbe) : gbe :=
  let '(g, b, err) := s in
  let tmp := rd g 2 k in
  let gk := (at_.[k] - a0.[k])%float in
  let g := wr g 2 k (((gk / r.[3] - rd g 0 k) / r.[4] - rd g 1 k) / r.[5])%float in
  let tmp := (rd g 2 k - tmp)%float in
  let b := wr b 0 k (rd b 0 k + tmp * c.[1])%float in
  let b := wr b 1 k (rd b 1 k + tmp * c.[2])%float in
  let b := wr b 2 k (rd b 2 k + tmp)%float in
  (g, b, err).

Definition case4_k (at_ a0 : list float) (k : nat) (s : gbe) : gbe :=
  let '(g, b, err) := s in
  let tmp := rd g 3 k in
  let gk := (at_.[k] - a0.[k])%float in
  let g := wr g 3 k ((((gk / r.[6] - rd g 0 k) / r.[7] - rd g 1 k) / r.[8]
                      - rd g 2 k) / r.[9])%float in
  let tmp := (rd g 3 k - tmp)%float in
  let b := wr b 0 k (rd b 0 k + tmp * c.[3])%float in
  let b := wr b 1 k (rd b 1 k + tmp * c.[4])%float in
  let b := wr b 2 k (rd b 2 k + tmp * c.[5])%float in
  let b := wr b 3 k (rd b 3 k + tmp)%float in
  (g, b, err).

Definition case5_k (at_ a0 : list float) (k : nat) (s : gbe) : gbe :=
  let '(g, b, err) := s in
  let tmp := rd g 4 k in
  let gk := (at_.[k] - a0.[k])%float in
  let g := wr g 4 k (((((gk / r.[10] - rd g 0 k) / r.[11] - rd g 1 k) / r.[12]
                       - rd g 2 k) / r.[13] - rd g 3 k) / r.[14])%float in
  let tmp := (rd g 4 k - tmp)%float in
  let b := wr b 0 k (rd b 0 k + tmp * c.[6])%float in
  let b := wr b 1 k (rd b 1 k + tmp * c.[7])%float in
  let b := wr b 2 k (rd b 2 k + tmp * c.[8])%float in
  let b := wr b 3 k (rd b 3 k + tmp * c.[9])%float in
  let b := wr b 4 k (rd b 4 k + tmp)%float in
  (g, b, err).

Definition case6_k (at_ a0 : list float) (k : nat) (s : gbe) : gbe :=
  let '(g, b, err) := s in
  let tmp := rd g 5 k in
  let gk := (at_.[k] - a0.[k])%float in
  let g := wr g 5 k ((((((gk / r.[15] - rd g 0 k) / r.[16] - rd g 1 k) / r.[17]
                        - rd g 2 k) / r.[18] - rd g 3 k) / r.[19]
                      - rd g 4 k) / r.[20])%float in
  let tmp := (rd g 5 k - tmp)%float in
  let b := wr b 0 k (rd b 0 k + tmp * c.[10])%float in
  let b := wr b 1 k (rd b 1 k + tmp * c.[11])%float in
  let b := wr b 2 k (rd b 2 k + tmp * c.[12])%float in
  let b := wr b 3 k (rd b 3 k + tmp * c.[13])%float in
  let b := wr b 4 k (rd b 4 k + tmp * c.[14])%float in
  let b := wr b 5 k (rd b 5 k + tmp)%float in
  (g, b, err).

(** Case 7 also monitors the change of [b[6][k]] relative to [at[k]]. *)
Definition case7_k (at_ a0 : list float) (k : nat) (s : gbe) : gbe :=
  let '(g, b, err) := s in
  let tmp := rd g 6 k in
  let gk := (at_.[k] - a0.[k])%float in
  let g := wr g 6 k (((((((gk / r.[21] - rd g 0 k) / r.[22] - rd g 1 k) / r.[23]
                         - rd g 2 k) / r.[24] - rd g 3 k) / r.[25]
                       - rd g 4 k) / r.[26] - rd g 5 k) / r.[27])%float in
  let tmp := (rd g 6 k - tmp)%float in
  let b := wr b 0 k (rd b 0 k + tmp * c.[15])%float in
  let b := wr b 1 k (rd b 1 k + tmp * c.[16])%float in
  let b := wr b 2 k (rd b 2 k + tmp * c.[17])%float in
  let b := wr b 3 k (rd b 3 k + tmp * c.[18])%float in
  let b := wr b 4 k (rd b 4 k + tmp * c.[19])%float in
  let b := wr b 5 k (rd b 5 k + tmp * c.[20])%float in
  let b := wr b 6 k (rd b 6 k + tmp)%float in
  let ak := at_.[k] in
  let b6ktmp := tmp in
  let errork := fabs (b6ktmp / ak) in
  if isnormal errork && (err <? errork)%float then (g, b, errork) else (g, b, err).

(** [switch (n)]: each case is a loop over the [N3] components. *)
Definition improve (st : state) (ps : list particle) (at_ : list float) (n : nat)
    (s : gbe) : gbe :=
  let N3 := 3 * length ps in
  match n with
  | 1 => for_ 0 N3 (guard st ps (case1_k at_ (a0 st))) s
  | 2 => for_ 0 N3 (guard st ps (case2_k at_ (a0 st))) s
  | 3 => for_ 0 N3 (guard st ps (case3_k at_ (a0 st))) s
  | 4 => for_ 0 N3 (guard st ps (case4_k at_ (a0 st))) s
  | 5 => for_ 0 N3 (guard st ps (case5_k at_ (a0 st))) s
  | 6 => for_ 0 N3 (guard st ps (case6_k at_ (a0 st))) s
  | 7 => for_ 0 N3 (guard st ps (case7_k at_ (a0 st))) s
  | _ => s
  end.

(** ** The predictor corrector loop *)

(** What the nodes of one iteration read and write. *)
Record pc_data := mk_pc_data {
  pc_particles : list particle;
  pc_at : list float;
  pc_g : list (list float);
  pc_b : list (list float);
  predictor_corrector_error : float
}.

(** The loop's state: the data, and what the exit tests read and write. *)
Record pc_state := mk_pc_state {
  pc : pc_data;
  predictor_corrector_error_last : float;
  iterations : Z;
  pc_max_exceeded : Z;
  pc_stderr : list message
}.

(** [unsigned long] increment. *)
Definition ulong_incr (v : Z) : Z := ((v + 1) mod 2 ^ 64)%Z.

Definition integrator_iterations_warning : Z := 10.

(** The third exit: count the failure, warn when the count is 10. *)
Definition not_converged (s : pc_state) : pc_state :=
  let n := ulong_incr (pc_max_exceeded s) in
  {| pc := pc s;
     predictor_corrector_error_last := predictor_corrector_error_last s;
     iterations := iterations s;
     pc_max_exceeded := n;
     pc_stderr :=
       if bool_decide (n = integrator_iterations_warning)
       then pc_stderr s ++ [Warning_not_converged integrator_iterations_warning]
       else pc_stderr s |}.

(** The three exit tests at the head of the loop, in source order. *)
Definition converged (s : pc_state) : bool :=
  (predictor_corrector_error (pc s) <? 1e-16)%float.

Definition oscillating (s : pc_state) : bool :=
  (2 <? iterations s)%Z
  && (predictor_corrector_error_last s <=? predictor_corrector_error (pc s))%float.

Definition exhausted (s : pc_state) : bool := (12 <=? iterations s)%Z.

Definition exits (s : pc_state) : bool := converged s || oscillating s || exhausted s.

(** What the loop leaves behind when it breaks at [s]: [s] itself at the
    first two exits, [s] with the failure counted at the third. *)
Definition leave (s : pc_state) : pc_state :=
  if converged s || oscillating s then s else not_converged s.

(** Modelled from the spec: the force kernels are external (gravity.h,
    problem.h).  By their contract (spec, section 6) they read the particle
    store and write [ax], [ay], [az] of every particle, so a kernel is the
    acceleration it gives to particle [i] of a store;
    [problem_additional_forces] is a function pointer that may be [NULL].
    With them come [pow], [log] and [floor] of math.h and the conversion of
    a [double] to [int] in an assignment, which C leaves undefined out of
    range. *)
Class Collaborators := {
  gravity_calculate_acceleration : list particle → nat → float * float * float;
  problem_additional_forces : option (list particle → nat → float * float * float);
  pow : float → float → float;
  log : float → float;
  floor : float → float;
  int_of_double : float → Z
}.

Section Step.

Context {env : Collaborators}.

Definition run_kernel (f : list particle → nat → float * float * float)
    (ps : list particle) : list particle :=
  imap (λ i p, set_acc p (f ps i)) ps.

Definition integrator_update_acceleration (ps : list particle) : list particle :=
  let ps := run_kernel gravity_calculate_acceleration ps in
  match problem_additional_forces with
  | Some f => run_kernel f ps
  | None => ps
  end.

(** [problem_additional_forces && integrator_force_is_velocitydependent] *)
Definition velocity_dependent (st : state) : bool :=
  match problem_additional_forces with
  | Some _ => negb (integrator_force_is_velocitydependent st =? 0)%Z
  | None => false
  end.

(** The first half of the body of [for (n = 1; n < 8; n++)]: the particle
    store as the force evaluation of node [n] finds it. *)
Definition predict (st : state) (b : list (list float)) (n : nat)
    (ps : list particle) : list particle :=
  let ps := for_each_particle (predict_position st b n) ps in
  if velocity_dependent st
  then for_each_particle (predict_velocity st b n) ps
  else ps.

(** One pass of the body of [for (n = 1; n < 8; n++)]. *)
Definition node (st : state) (n : nat) (s : pc_data) : pc_data :=
  let ps := predict st (pc_b s) n (pc_particles s) in
  let ps := integrator_update_acceleration ps in
  let at_ := for_ 0 (length ps) (copy_at_k st ps) (pc_at s) in
  let '(g, b, err) :=
    improve st ps at_ n (pc_g s, pc_b s, predictor_corrector_error s) in
  {| pc_particles := ps; pc_at := at_; pc_g := g; pc_b := b;
     predictor_corrector_error := err |}.

(** The particle a node leaves at index [i]: position predicted, velocity
    predicted when the force is velocity dependent, acceleration from the
    kernel, everything else as it was. *)
Definition at_node (st : state) (b : list (list float)) (n i : nat) (p : particle)
    : particle :=
  let p := predict_position st b n i p in
  if velocity_dependent st then predict_velocity st b n i p else p.

Definition set_error (s : pc_data) (err : float) : pc_data :=
  {| pc_particles := pc_particles s; pc_at := pc_at s; pc_g := pc_g s;
     pc_b := pc_b s; predictor_corrector_error := err |}.

(** One iteration: the statements after the three exit tests. *)
Definition iteration (st : state) (s : pc_state) : pc_state :=
  {| pc := for_ 1 7 (node st) (set_error (pc s) 0);
     predictor_corrector_error_last := predictor_corrector_error (pc s);
     iterations := iterations s + 1;
     pc_max_exceeded := pc_max_exceeded s;
     pc_stderr := pc_stderr s |}.

(** [while (1) { ... }]: [None] when the fuel runs out before a [break]. *)
Fixpoint pc_loop (fuel : nat) (st : state) (s : pc_state) : option pc_state :=
  match fuel with
  | O => None
  | S fuel =>
      if converged s then Some s
      else if oscillating s then Some s
      else if exhausted s then Some (not_converged s)
      else pc_loop fuel st (iteration st s)
  end.

Definition pc_initial (st : state) : pc_state :=
  {| pc := {| pc_particles := particles st; pc_at := at_ st; pc_g := g st;
              pc_b := b st; predictor_corrector_error := 1e300 |};
     predictor_corrector_error_last := 2;
     iterations := 0;
     pc_max_exceeded := integrator_iterations_max_exceeded st;
     pc_stderr := stderr st |}.

(** ** Commit *)

Record commit_state := mk_commit {
  c_particles : list particle;
  c_x0 : list float;
  c_v0 : list float;
  c_csx : list float;
  c_csv : list float;
  c_er : list (list float);
  c_br : list (list float)
}.

(** The body of [for (k = 3*i; k < 3*(i+1); k++)]: the two compensated
    sums, then [er = e] and [br = b] for this component. *)
Definition commit_component (st : state) (b : list (list float)) (k : nat)
    (s : commit_state) : commit_state :=
  let dt_done2 := (dt st * dt st)%float in
  let x0 := c_x0 s in
  let csx := c_csx s in
  let v0 := c_v0 s in
  let csv := c_csv s in
  let a := x0.[k] in
  let csx := <[k := (csx.[k]
                     + ((rd b 6 k / 72 + rd b 5 k / 56 + rd b 4 k / 42
                         + rd b 3 k / 30 + rd b 2 k / 20 + rd b 1 k / 12
                         + rd b 0 k / 6 + (a0 st).[k] / 2) * dt_done2
                        + v0.[k] * dt st))%float]> csx in
  let x0 := <[k := (a + csx.[k])%float]> x0 in
  let csx := <[k := (csx.[k] + (a - x0.[k]))%float]> csx in
  let a := v0.[k] in
  let csv := <[k := (csv.[k]
                     + (rd b 6 k / 8 + rd b 5 k / 7 + rd b 4 k / 6
                        + rd b 3 k / 5 + rd b 2 k / 4 + rd b 1 k / 3
                        + rd b 0 k / 2 + (a0 st).[k]) * dt st)%float]> csv in
  let v0 := <[k := (a + csv.[k])%float]> v0 in
  let csv := <[k := (csv.[k] + (a - v0.[k]))%float]> csv in
  let er := c_er s in
  let er := wr er 0 k (rd (e st) 0 k) in
  let er := wr er 1 k (rd (e st) 1 k) in
  let er := wr er 2 k (rd (e st) 2 k) in
  let er := wr er 3 k (rd (e st) 3 k) in
  let er := wr er 4 k (rd (e st) 4 k) in
  let er := wr er 5 k (rd (e st) 5 k) in
  let er := wr er 6 k (rd (e st) 6 k) in
  let br := c_br s in
  let br := wr br 0 k (rd b 0 k) in
  let br := wr br 1 k (rd b 1 k) in
  let br := wr br 2 k (rd b 2 k) in
  let br := wr br 3 k (rd b 3 k) in
  let br := wr br 4 k (rd b 4 k) in
  let br := wr br 5 k (rd b 5 k) in
  let br := wr br 6 k (rd b 6 k) in
  {| c_particles := c_particles s; c_x0 := x0; c_v0 := v0; c_csx := csx;
     c_csv := csv; c_er := er; c_br := br |}.

Definition set_particles (s : commit_state) (ps : list particle) : commit_state :=
  {| c_particles := ps; c_x0 := c_x0 s; c_v0 := c_v0 s; c_csx := c_csx s;
     c_csv := c_csv s; c_er := c_er s; c_br := c_br s |}.

(** The body of the loop over the particles that finds the new position
    and velocity values at the end of the sequence. *)
Definition commit_particle (st : state) (b : list (list float)) (i : nat)
    (s : commit_state) : commit_state :=
  let s :=
    if bool_decide (Particle.dtexp (c_particles s).[i] = dtexp st) then
      let s := for_ (3 * i) 3 (commit_component st b) s in
      let p := (c_particles s).[i] in
      let p := set_pos p (c_x0 s).[3 * i + 0] (c_x0 s).[3 * i + 1]
                         (c_x0 s).[3 * i + 2] in
      let p := set_vel p (c_v0 s).[3 * i + 0] (c_v0 s).[3 * i + 1]
                         (c_v0 s).[3 * i + 2] in
      let p := set_done p (t st + dt st)%float (dt st) in
      set_particles s (<[i := p]> (c_particles s))
    else
      let p := (c_particles s).[i] in
      let p := set_pos p (c_x0 s).[3 * i] (c_x0 s).[3 * i + 1]
                         (c_x0 s).[3 * i + 2] in
      set_particles s (<[i := p]> (c_particles s)) in
  let p := (c_particles s).[i] in
  let p := cache_pos p (- dtexp st)%Z (dtexp_substep st (- dtexp st)%Z) in
  set_particles s (<[i := p]> (c_particles s)).

Definition commit (st : state) (s : pc_data) : commit_state :=
  for_ 0 (length (pc_particles s)) (commit_particle st (pc_b s))
    {| c_particles := pc_particles s; c_x0 := x0 st; c_v0 := v0 st;
       c_csx := csx st; c_csv := csv st; c_er := er st; c_br := br st |}.

(** ** The step controller *)

(** [errork_max]: the largest [fabs(b[6][3*i+k] / at[3*i+k])], [k < 3]. *)
Definition errork_max (at_ : list float) (b : list (list float)) (i : nat) : float :=
  for_ 0 3
    (λ k acc,
       let ak := at_.[3 * i + k] in
       let b6k := rd b 6 (3 * i + k) in
       let errork := fabs (b6k / ak) in
       if (acc <? errork)%float then errork else acc)
    0%float.

(** The class a particle of the current class is given. *)
Definition new_dtexp (st : state) (at_ : list float) (b : list (list float))
    (i : nat) : Z :=
  let err := errork_max at_ b i in
  if isnormal err then
    let dtparticle := (pow (integrator_epsilon st / err) (1 / 7) * dt st)%float in
    let v := int_of_double
               (floor (log (dtparticle / integrator_max_dt st) / log 8)%float) in
    let v := if (0 <? v)%Z then 0%Z else v in
    let v := if (v <? -2)%Z then (-2)%Z else v in
    v
  else 0%Z.

Definition control_particle (st : state) (at_ : list float) (b : list (list float))
    (i : nat) (p : particle) : particle :=
  if bool_decide (Particle.dtexp p ≠ dtexp st) then p
  else set_dtexp p (new_dtexp st at_ b i).

Definition find_new_timestep (st : state) (at_ : list float) (b : list (list float))
    (ps : list particle) : list particle :=
  if (0 <? integrator_epsilon st)%float
  then for_each_particle (control_particle st at_ b) ps
  else ps.

(** [dtexp_min]: the smallest class among the particles, at most [0]. *)
Definition find_dtexp_min (ps : list particle) : Z :=
  for_ 0 (length ps)
    (λ i acc,
       if (Particle.dtexp ps.[i] <? acc)%Z
          && isnormal (double_of_int (Particle.dtexp ps.[i]))
       then Particle.dtexp ps.[i] else acc)
    0%Z.

Definition substep_set (substep : Z → Z) (i v : Z) : Z → Z :=
  λ j, if bool_decide (j = i) then v else substep j.

(** The sub-step bookkeeping that closes the step: the new [dtexp],
    [dtexp_substep] and [t]. *)
Definition advance (st : state) (dtexp_min : Z) : Z * (Z → Z) * float :=
  let i := (- dtexp st)%Z in
  let substep := substep_set (dtexp_substep st) i (dtexp_substep st i + 1)%Z in
  let t := (t st + dt st)%float in
  if (substep i =? 8)%Z then
    let substep := substep_set substep i 0%Z in
    let dtexp := (dtexp st + 1)%Z in
    if (0 <? dtexp)%Z then (dtexp_min, substep, t)
    else
      let dtt := chain_dt (integrator_max_dt st) substep dtexp in
      (dtexp, substep, (t - dtt)%float)
  else (dtexp_min, substep, t).

(** Everything after the predictor corrector loop. *)
Definition finish (st : state) (s : pc_state) : state :=
  let cs := commit st (pc s) in
  let ps := find_new_timestep st (pc_at (pc s)) (pc_b (pc s)) (c_particles cs) in
  let dtexp_min := find_dtexp_min ps in
  let '(dtexp, substep, t) := advance st dtexp_min in
  {| particles := ps; t := t; dt := dt st;
     integrator_force_is_velocitydependent :=
       integrator_force_is_velocitydependent st;
     integrator_epsilon := integrator_epsilon st;
     integrator_min_dt := integrator_min_dt st;
     integrator_max_dt := integrator_max_dt st;
     integrator_iterations_max_exceeded := pc_max_exceeded s;
     N3allocated := N3allocated st;
     at_ := pc_at (pc s); x0 := c_x0 cs; v0 := c_v0 cs; a0 := a0 st;
     csx := c_csx cs; csv := c_csv cs;
     g := pc_g (pc s); b := pc_b (pc s); e := e st;
     br := c_br cs; er := c_er cs;
     dtexp := dtexp; dtexp_substep := substep;
     dtexp_min := dtexp_min; stderr := pc_stderr s |}.

(** Fuel that lets the loop reach its [break]. *)
Definition pc_fuel : nat := 13.

(** [int integrator_ias15_step()]: the new state and the value returned;
    [None] only if the loop were cut short. *)
Definition integrator_ias15_step (st : state) : option (state * Z) :=
  let st := prepare st in
  match pc_loop pc_fuel st (pc_initial st) with
  | Some s => Some (finish st s, 1%Z)
  | None => None
  end.

(** [while (!integrator_ias15_step());] with the number of calls made. *)
Fixpoint retry (fuel : nat) (st : state) (calls : nat) : option (state * nat) :=
  match fuel with
  | O => None
  | S fuel =>
      match integrator_ias15_step st with
      | Some (st, ret) =>
          if (ret =? 0)%Z then retry fuel st (S calls) else Some (st, S calls)
      | None => None
      end
  end.

Definition integrator_part1 (st : state) : state := st.

Definition integrator_part2 (fuel : nat) (st : state) : option (state * nat) :=
  retry fuel st 0.

(** [n] calls of the step routine in a row. *)
Fixpoint steps (n : nat) (st : state) : option state :=
  match n with
  | O => Some st
  | S n =>
      match integrator_ias15_step st with
      | Some (st, _) => steps n st
      | None => None
      end
  end.

(** ** Notions the properties below are stated with *)

(** Each of the seven cases writes the cells of its own component only. *)
Definition keeps_others (body : nat → gbe → gbe) : Prop :=
  ∀ k' k s j, k' ≠ k → rd (body k' s).1.2 j k = rd s.1.2 j k.

(** What every node keeps: the classes of the particles, and [b] outside
    the current class. *)
Definition loop_inv (st : state) (s : pc_data) : Prop :=
  Particle.dtexp <$> pc_particles s = Particle.dtexp <$> particles st
  ∧ ∀ j k, in_class st (particles st) k = false → rd (pc_b s) j k = rd (b st) j k.

(** What the commit makes of the particle [p] at index [i], read against
    the buffers [x0'] and [v0'] the commit leaves. *)
Definition committed (st : state) (x0' v0' : list float) (i : nat)
    (p p' : particle) : Prop :=
  Particle.dtexp p' = Particle.dtexp p
  ∧ xpast p' (- IAS15.dtexp st)%Z (dtexp_substep st (- IAS15.dtexp st)%Z) = x p'
  ∧ ypast p' (- IAS15.dtexp st)%Z (dtexp_substep st (- IAS15.dtexp st)%Z) = y p'
  ∧ zpast p' (- IAS15.dtexp st)%Z (dtexp_substep st (- IAS15.dtexp st)%Z) = z p'
  ∧ if decide (Particle.dtexp p = IAS15.dtexp st) then
      x p' = x0'.[3 * i] ∧ y p' = x0'.[3 * i + 1] ∧ z p' = x0'.[3 * i + 2]
      ∧ vx p' = v0'.[3 * i] ∧ vy p' = v0'.[3 * i + 1] ∧ vz p' = v0'.[3 * i + 2]
      ∧ tdone p' = (t st + dt st)%float ∧ dtdone p' = dt st
    else
      x p' = (x0 st).[3 * i] ∧ y p' = (x0 st).[3 * i + 1] ∧ z p' = (x0 st).[3 * i + 2]
      ∧ x0'.[3 * i] = (x0 st).[3 * i] ∧ x0'.[3 * i + 1] = (x0 st).[3 * i + 1]
      ∧ x0'.[3 * i + 2] = (x0 st).[3 * i + 2]
      ∧ vx p' = vx p ∧ vy p' = vy p ∧ vz p' = vz p
      ∧ tdone p' = tdone p ∧ dtdone p' = dtdone p.

End Step.

End IAS15.

(** ** The restart reader: [input_binary] of [input.c] *)

Module Input.

Import Particle.

(** A restart file as [fread] delivers it: the [int] header, the [double]
    time, then the particle records that follow (possibly fewer than the
    header announces).  The byte layout of [struct particle] is not modelled. *)
Record restart_file := mk_file {
  file_N : Z;
  file_t : float;
  file_records : list particle
}.

(** Modelled from the spec: [particles_add] lives in [particle.c], which is
    not among the sources; it adds the particle at the end of the store. *)
Definition particles_add (ps : list particle) (p : particle) : list particle :=
  ps ++ [p].

(** [fread(&p, sizeof(struct particle), 1, inf)] for the [i]-th record: the
    record and the item count [1], or [0] items and [p] left as it was, an
    indeterminate local. *)
Definition fread_record (f : restart_file) (i : nat) (indeterminate : particle)
    : particle * Z :=
  match file_records f !! i with
  | Some p => (p, 1%Z)
  | None => (indeterminate, 0%Z)
  end.

(** What [input_binary] leaves behind: the particle store, the time [t] and
    the count it prints as bytes read. *)
Record loaded := mk_loaded {
  ld_particles : list particle;
  ld_t : float;
  ld_bytes : Z
}.

Definition read_particle (f : restart_file) (indeterminate : particle) (i : nat)
    (s : list particle * Z) : list particle * Z :=
  let '(ps, bytes) := s in
  let '(p, n) := fread_record f i indeterminate in
  let bytes := (bytes + n)%Z in
  if (0 <? number p)%Z then (particles_add ps p, bytes) else (ps, bytes).

Definition input_binary (f : restart_file) (indeterminate : particle)
    (ps : list particle) : loaded :=
  let bytes := 0%Z in
  let _N := file_N f in
  let bytes := (bytes + 1)%Z in
  let t := file_t f in
  let bytes := (bytes + 1)%Z in
  let '(ps, bytes) :=
    for_ 0 (Z.to_nat _N) (read_particle f indeterminate) (ps, bytes) in
  {| ld_particles := ps; ld_t := t; ld_bytes := bytes |}.

End Input.

(** ** Scenarios *)

Section Scenarios.

Import IAS15 Particle.

(** The math library and the conversion to [int] are left open: none of the
    scenarios below depends on what they return. *)
Variable pow' : float → float → float.
Variable log' : float → float.
Variable floor' : float → float.
Variable int_of_double' : float → Z.

(** A force kernel that always writes [a = 0], and no additional forces. *)
Definition free : Collaborators :=
  {| gravity_calculate_acceleration := λ _ _, (0, 0, 0)%float;
     problem_additional_forces := None;
     pow := pow'; log := log'; floor := floor'; int_of_double := int_of_double' |}.

(** A particle at the origin with velocity [(vx, 0, 0)] and class [class]. *)
Definition moving (v : float) (class : Z) : particle :=
  Particle.mk 0 0 0 v 0 0 0 0 0 0 0 class
    (λ _ _, 0%float) (λ _ _, 0%float) (λ _ _, 0%float) 1.

Definition drift_start : state := configure (initial [moving 1 0]) 1e-5 0 1.

(** A particle of class [-1] under the global class [0], with
    [integrator_min_dt = 0.5] and [integrator_max_dt = 1]. *)
Definition refine_start : state := configure (initial [moving 1 (-1)]) 1e-5 0.5 1.

(** A harmonic oscillator: the kernel writes [a = (-x, 0, 0)]; the particle
    starts at [x = 1] at rest, with the matching acceleration, and
    [integrator_epsilon = 0] keeps the step fixed at [integrator_max_dt]. *)
Definition spring : Collaborators :=
  {| gravity_calculate_acceleration := λ ps i, (- x ps.[i], 0, 0)%float;
     problem_additional_forces := None;
     pow := pow'; log := log'; floor := floor'; int_of_double := int_of_double' |}.

Definition spring_start : state :=
  configure
    (initial [Particle.mk 1 0 0 0 0 0 (-1) 0 0 0 0 0
                (λ _ _, 0%float) (λ _ _, 0%float) (λ _ _, 0%float) 1])
    0 0 0.5.

End Scenarios.

Section Instances.

Import IAS15 Particle.

(** Instances of the scenarios with the math library filled in by functions
    that are never called on these inputs. *)
Definition free_kernel : Collaborators :=
  free (λ _ _, 0%float) (λ _, 0%float) (λ v, v) (λ _, 0%Z).

(** A velocity dependent additional force (here one that adds nothing), on
    top of the kernel that writes [a = 0]. *)
Definition drag_kernel : Collaborators :=
  {| gravity_calculate_acceleration := λ _ _, (0, 0, 0)%float;
     problem_additional_forces := Some (λ _ _, (0, 0, 0)%float);
     pow := λ _ _, 0%float; log := λ _, 0%float; floor := λ v, v;
     int_of_double := λ _, 0%Z |}.

(** A particle of class [-1] with velocity [(1, 0, 0)] whose acceleration at
    entry is [(1, 0, 0)]. *)
Definition pushed : particle :=
  Particle.mk 0 0 0 1 0 0 1 0 0 0 0 (-1)
    (λ _ _, 0%float) (λ _ _, 0%float) (λ _ _, 0%float) 1.

Definition pushed_start : state := configure (initial [pushed]) 1e-5 0 1.

End Instances.

(** ** Well-formed buffers *)

Section Buffers.

Import IAS15.

(** Seven rows of at least [n] doubles each. *)
Definition rows_ok (n : nat) (A : list (list float)) : Prop :=
  length A = 7 ∧ ∀ l, l < 7 → n ≤ length (A !!! l).

(** Every buffer of the integrator holds at least [N3allocated] doubles. *)
Definition buffers_ok (st : state) : Prop :=
  N3allocated st ≤ length (at_ st)
  ∧ N3allocated st ≤ length (x0 st)
  ∧ N3allocated st ≤ length (v0 st)
  ∧ N3allocated st ≤ length (a0 st)
  ∧ N3allocated st ≤ length (csx st)
  ∧ N3allocated st ≤ length (csv st)
  ∧ rows_ok (N3allocated st) (g st)
  ∧ rows_ok (N3allocated st) (b st)
  ∧ rows_ok (N3allocated st) (e st)
  ∧ rows_ok (N3allocated st) (br st)
  ∧ rows_ok (N3allocated st) (er st).

(** The extrapolation of [br] the warm start stores in [e[j][k]], for the
    ratio [q1 = dt / dtdone]. *)
Definition extrapolated (q1 : float) (br : list (list float)) (j k : nat) : float :=
  let q2 := (q1 * q1)%float in
  let q3 := (q1 * q2)%float in
  let q4 := (q2 * q2)%float in
  let q5 := (q2 * q3)%float in
  let q6 := (q3 * q3)%float in
  let q7 := (q3 * q4)%float in
  match j with
  | 0 => (q1 * (rd br 6 k * 7.0 + rd br 5 k * 6.0 + rd br 4 k * 5.0
                + rd br 3 k * 4.0 + rd br 2 k * 3.0 + rd br 1 k * 2.0
                + rd br 0 k))%float
  | 1 => (q2 * (rd br 6 k * 21.0 + rd br 5 k * 15.0 + rd br 4 k * 10.0
                + rd br 3 k * 6.0 + rd br 2 k * 3.0 + rd br 1 k))%float
  | 2 => (q3 * (rd br 6 k * 35.0 + rd br 5 k * 20.0 + rd br 4 k * 10.0
                + rd br 3 k * 4.0 + rd br 2 k))%float
  | 3 => (q4 * (rd br 6 k * 35.0 + rd br 5 k * 15.0 + rd br 4 k * 5.0
                + rd br 3 k))%float
  | 4 => (q5 * (rd br 6 k * 21.0 + rd br 5 k * 6.0 + rd br 4 k))%float
  | 5 => (q6 * (rd br 6 k * 7.0 + rd br 5 k))%float
  | _ => (q7 * rd br 6 k)%float
  end.

(** The two sums the commit adds to the compensated residuals: the position
    increment, for the velocity [v] at the start of the step, and the
    velocity increment. *)
Definition position_increment (st : state) (b : list (list float)) (k : nat)
    (v : float) : float :=
  ((rd b 6 k / 72 + rd b 5 k / 56 + rd b 4 k / 42 + rd b 3 k / 30
    + rd b 2 k / 20 + rd b 1 k / 12 + rd b 0 k / 6 + (a0 st).[k] / 2)
   * (dt st * dt st) + v * dt st)%float.

Definition velocity_increment (st : state) (b : list (list float)) (k : nat) : float :=
  ((rd b 6 k / 8 + rd b 5 k / 7 + rd b 4 k / 6 + rd b 3 k / 5
    + rd b 2 k / 4 + rd b 1 k / 3 + rd b 0 k / 2 + (a0 st).[k]) * dt st)%float.

(** Two commit states with the same buffers (their particles may differ). *)
Definition same_buffers (cs cs' : commit_state) : Prop :=
  c_x0 cs = c_x0 cs' ∧ c_v0 cs = c_v0 cs' ∧ c_csx cs = c_csx cs'
  ∧ c_csv cs = c_csv cs' ∧ c_er cs = c_er cs' ∧ c_br cs = c_br cs'.

(** Component [k] reads the same in the buffers of two commit states. *)
Definition cells_eq (cs cs' : commit_state) (k : nat) : Prop :=
  (c_x0 cs).[k] = (c_x0 cs').[k]
  ∧ (c_v0 cs).[k] = (c_v0 cs').[k]
  ∧ (c_csx cs).[k] = (c_csx cs').[k]
  ∧ (c_csv cs).[k] = (c_csv cs').[k]
  ∧ ∀ j, rd (c_er cs) j k = rd (c_er cs') j k ∧ rd (c_br cs) j k = rd (c_br cs') j k.

(** Component [k] of [cs'] is component [k] of [cs] committed: the two
    compensated sums are taken and [e], [b] are saved in [er], [br]. *)
Definition cell_committed (st : state) (b : list (list float))
    (cs cs' : commit_state) (k : nat) : Prop :=
  let sx := ((c_csx cs).[k] + position_increment st b k (c_v0 cs).[k])%float in
  let sv := ((c_csv cs).[k] + velocity_increment st b k)%float in
  (c_x0 cs').[k] = ((c_x0 cs).[k] + sx)%float
  ∧ (c_csx cs').[k] = (sx + ((c_x0 cs).[k] - (c_x0 cs').[k]))%float
  ∧ (c_v0 cs').[k] = ((c_v0 cs).[k] + sv)%float
  ∧ (c_csv cs').[k] = (sv + ((c_v0 cs).[k] - (c_v0 cs').[k]))%float
  ∧ ∀ j, j < 7 →
      rd (c_er cs') j k = rd (e st) j k ∧ rd (c_br cs') j k = rd b j k.

End Buffers.

Section Kept.

Import IAS15 Particle.
Context {env : Collaborators}.

(** What no node changes in the store: when each particle was last advanced
    and its number; and the velocities too, unless the force is velocity
    dependent. *)
Definition store_kept (st : state) (s : pc_data) : Prop :=
  (λ p, (tdone p, dtdone p, number p)) <$> pc_particles s
  = (λ p, (tdone p, dtdone p, number p)) <$> particles st
  ∧ (velocity_dependent st = false →
     (λ p, (vx p, vy p, vz p)) <$> pc_particles s
     = (λ p, (vx p, vy p, vz p)) <$> particles st).

(** The convergence metric is an ordinary number: zero or normal. *)
Definition error_ok (err : float) : Prop := err = 0%float ∨ isnormal err = true.

End Kept.

(** ** What the loop and the commit keep *)

Section Invariants.

Import IAS15 Particle.

(** A case of the [switch] keeps the seven rows of [g] and of [b] at
    least [n] doubles long. *)
Definition keeps_rows (n : nat) (body : nat → gbe → gbe) : Prop :=
  ∀ k s, rows_ok n s.1.1 ∧ rows_ok n s.1.2 →
         rows_ok n (body k s).1.1 ∧ rows_ok n (body k s).1.2.

(** The buffers the loop writes keep their lengths. *)
Definition loop_buffers (n : nat) (s : pc_data) : Prop :=
  n ≤ length (pc_at s) ∧ rows_ok n (pc_g s) ∧ rows_ok n (pc_b s).

(** The commit keeps the lengths of the buffers it writes. *)
Record commit_lengths (st : state) (cs : commit_state) : Prop := {
  cl_x0 : length (c_x0 cs) = length (x0 st);
  cl_v0 : length (c_v0 cs) = length (v0 st);
  cl_csx : length (c_csx cs) = length (csx st);
  cl_csv : length (c_csv cs) = length (csv st);
  cl_er : rows_ok (N3allocated st) (c_er cs);
  cl_br : rows_ok (N3allocated st) (c_br cs)
}.

(** A case of the [switch] keeps the convergence metric an ordinary
    number. *)
Definition keeps_error_ok (body : nat → gbe → gbe) : Prop :=
  ∀ k s, error_ok s.2 → error_ok (body k s).2.

(** The loop's data with no particle of the current class: the classes and
    the buffers are those of [st], and the error is zero. *)
Definition idle (st : state) (s : pc_data) : Prop :=
  Particle.dtexp <$> pc_particles s = Particle.dtexp <$> particles st
  ∧ pc_at s = at_ st ∧ pc_g s = g st ∧ pc_b s = b st
  ∧ predictor_corrector_error s = 0%float.

(** A projection of the particle that no statement of the step writes. *)
Record untouched {A : Type} (st : state) (f : particle → A) : Prop := {
  ut_pos : ∀ p x y z, f (set_pos p x y z) = f p;
  ut_vel : ∀ p x y z, f (set_vel p x y z) = f p;
  ut_acc : ∀ p a, f (set_acc p a) = f p;
  ut_done : ∀ p t dt, f (set_done p t dt) = f p;
  ut_dtexp : ∀ p d, f (set_dtexp p d) = f p;
  ut_cache : ∀ p,
    f (cache_pos p (- IAS15.dtexp st)%Z (dtexp_substep st (- IAS15.dtexp st)%Z)) = f p
}.

(** The bounds of the hierarchy of sub-steps. *)
Definition hierarchy_ok (st : state) : Prop :=
  (-2 ≤ IAS15.dtexp st ≤ 0)%Z
  ∧ (∀ p, p ∈ particles st → (-2 ≤ Particle.dtexp p ≤ 0)%Z)
  ∧ (∀ i, (0 ≤ dtexp_substep st i ≤ 7)%Z).

(** Nothing is refined: the global class and every particle's class are the
    top level. *)
Definition at_top_level (st : state) : Prop :=
  IAS15.dtexp st = 0%Z ∧ ∀ p, p ∈ particles st → Particle.dtexp p = 0%Z.

End Invariants.

(** * Properties *)

(** ** Counted loops and array cells *)

Section Arrays.

Lemma for_snoc {S : Type} (lo n : nat) (body : nat → S → S) (s : S) :
  for_ lo (Datatypes.S n) body s = body (lo + n) (for_ lo n body s).
Proof.
  unfold for_. rewrite seq_S, foldl_app. reflexivity.
Qed.

(** Loop invariants: [I k] holds before the pass with index [k]. *)
Lemma for_inv {S : Type} (I : nat → S → Prop) (lo n : nat) (body : nat → S → S) (s : S) :
  I lo s →
  (∀ k acc, lo ≤ k < lo + n → I k acc → I (Datatypes.S k) (body k acc)) →
  I (lo + n) (for_ lo n body s).
Proof.
  intros Hs Hstep. induction n as [|n IH].
  - rewrite Nat.add_0_r. exact Hs.
  - rewrite for_snoc, Nat.add_succ_r. apply Hstep; [lia|].
    apply IH. intros k acc Hk. apply Hstep. lia.
Qed.

Lemma rd_wr_ne (A : list (list float)) (l k l' k' : nat) (v : float) :
  l ≠ l' ∨ k ≠ k' → rd (wr A l k v) l' k' = rd A l' k'.
Proof.
  intros Hne. unfold rd, wr.
  destruct (decide (l = l')) as [<-|Hl].
  - destruct Hne as [|Hk]; [done|].
    destruct (decide (l < length A)) as [Hlt|Hge].
    + rewrite list_lookup_total_insert_eq by done.
      by rewrite list_lookup_total_insert_ne.
    + rewrite list_insert_ge by lia. done.
  - by rewrite list_lookup_total_insert_ne.
Qed.

Lemma rd_wr_other (A : list (list float)) (l k l' k' : nat) (v : float) :
  k ≠ k' → rd (wr A l k v) l' k' = rd A l' k'.
Proof. intros. apply rd_wr_ne. by right. Qed.

Lemma for_each_particle_imap (f : nat → particle → particle) (ps : list particle) :
  IAS15.for_each_particle f ps = imap f ps.
Proof.
  unfold IAS15.for_each_particle.
  assert (∀ n, n ≤ length ps →
    for_ 0 n (λ i acc, <[i := f i acc.[i]]> acc) ps
    = imap (λ i p, if decide (i < n) then f i p else p) ps) as Hgen.
  { induction n as [|n IH]; intros Hn.
    - unfold for_; simpl. apply list_eq; intros i.
      rewrite list_lookup_imap. by destruct (ps !! i).
    - rewrite for_snoc, IH by lia. simpl.
      apply list_eq; intros i.
      destruct (decide (i = n)) as [->|Hi].
      + rewrite list_lookup_insert_eq by (rewrite length_imap; lia).
        rewrite list_lookup_total_alt, !list_lookup_imap.
        destruct (ps !! n) as [p|] eqn:Hp; simpl.
        * repeat case_decide; try lia. done.
        * apply lookup_ge_None in Hp. lia.
      + rewrite list_lookup_insert_ne by done.
        rewrite !list_lookup_imap. destruct (ps !! i); [|done]. simpl.
        repeat case_decide; try lia; done. }
  rewrite Hgen by done.
  apply list_eq; intros i. rewrite !list_lookup_imap.
  destruct (ps !! i) eqn:Hi; [|done]. simpl.
  apply lookup_lt_Some in Hi. case_decide; [done|lia].
Qed.

End Arrays.

(** ** The predictor corrector loop and the value returned *)

Section Loop.

Import IAS15.
Context {env : Collaborators}.

Lemma iterations_iter (st : state) (s : pc_state) (n : nat) :
  iterations (Nat.iter n (iteration st) s) = (iterations s + Z.of_nat n)%Z.
Proof.
  induction n as [|n IH]; [simpl; lia|].
  rewrite Nat.iter_succ. unfold iteration at 1. simpl iterations. lia.
Qed.

Lemma counters_iter (st : state) (s : pc_state) (n : nat) :
  pc_max_exceeded (Nat.iter n (iteration st) s) = pc_max_exceeded s
  ∧ pc_stderr (Nat.iter n (iteration st) s) = pc_stderr s.
Proof.
  induction n as [|n IH]; [done|]. rewrite Nat.iter_succ. exact IH.
Qed.

(** The loop breaks at the first state, among the successive iterates, at
    which one of the three tests holds; twelve increments of [iterations]
    force the third. *)
Lemma pc_loop_exit (fuel : nat) (st : state) (s : pc_state) :
  (0 ≤ iterations s ≤ 12)%Z →
  (13 - iterations s ≤ Z.of_nat fuel)%Z →
  ∃ n : nat,
    (iterations s + Z.of_nat n ≤ 12)%Z
    ∧ exits (Nat.iter n (iteration st) s) = true
    ∧ (∀ m, m < n → exits (Nat.iter m (iteration st) s) = false)
    ∧ pc_loop fuel st s = Some (leave (Nat.iter n (iteration st) s)).
Proof.
  revert s. induction fuel as [|fuel IH]; intros s Hit Hfuel; [lia|].
  destruct (exits s) eqn:Hex.
  - exists 0. simpl Nat.iter. split; [lia|]. split; [done|]. split; [lia|].
    unfold exits in Hex. unfold leave. simpl.
    destruct (converged s); [done|]. destruct (oscillating s); [done|].
    simpl in Hex. by rewrite Hex.
  - assert (Hparts : converged s = false ∧ oscillating s = false ∧ exhausted s = false).
    { unfold exits in Hex. destruct (converged s), (oscillating s), (exhausted s); done. }
    destruct Hparts as (Hc & Ho & He).
    assert (iterations s < 12)%Z as Hlt by (unfold exhausted in He; lia).
    destruct (IH (iteration st s)) as (n & Hn & Hexit & Hfirst & Hloop).
    { simpl. lia. }
    { simpl. lia. }
    exists (S n). rewrite Nat.iter_succ_r.
    split; [simpl in Hn; lia|]. split; [done|]. split.
    + intros [|m] Hm; [done|]. rewrite Nat.iter_succ_r. apply Hfirst. lia.
    + simpl. rewrite Hc, Ho, He. exact Hloop.
Qed.

Lemma prepare_counters (st : state) :
  integrator_iterations_max_exceeded (prepare st) = integrator_iterations_max_exceeded st
  ∧ stderr (prepare st) = stderr st.
Proof.
  unfold prepare.
  destruct (warm_start _ _ _ _ _) as [e1 b1].
  destruct (capture _ _ _ _) as [[x1 v1] a1]. simpl.
  unfold allocate. case_bool_decide; done.
Qed.

Lemma pc_loop_from_initial (st : state) (extra : nat) :
  ∃ n : nat,
    n ≤ 12
    ∧ exits (Nat.iter n (iteration st) (pc_initial st)) = true
    ∧ (∀ m, m < n → exits (Nat.iter m (iteration st) (pc_initial st)) = false)
    ∧ pc_loop (pc_fuel + extra) st (pc_initial st)
      = Some (leave (Nat.iter n (iteration st) (pc_initial st))).
Proof.
  destruct (pc_loop_exit (pc_fuel + extra) st (pc_initial st)) as (n & Hn & H).
  - simpl. lia.
  - simpl iterations. unfold pc_fuel. lia.
  - exists n. split; [simpl in Hn; lia|]. exact H.
Qed.

Lemma iterations_leave (s : pc_state) : iterations (leave s) = iterations s.
Proof. unfold leave. by destruct (converged s || oscillating s). Qed.

(** C2: the predictor corrector loop of every step terminates.  It breaks at
    the first state in which the error is below 1e-16, or more than two
    iterations are done and the error did not decrease, or twelve iterations
    are done; so a step performs at most twelve iterations. *)
Theorem predictor_corrector_loop_terminates (st : state) (extra : nat) :
  ∃ n : nat,
    n ≤ 12
    ∧ exits (Nat.iter n (iteration (prepare st)) (pc_initial (prepare st))) = true
    ∧ (∀ m, m < n →
         exits (Nat.iter m (iteration (prepare st)) (pc_initial (prepare st))) = false)
    ∧ pc_loop (pc_fuel + extra) (prepare st) (pc_initial (prepare st))
      = Some (leave (Nat.iter n (iteration (prepare st)) (pc_initial (prepare st))))
    ∧ iterations (leave (Nat.iter n (iteration (prepare st)) (pc_initial (prepare st))))
      = Z.of_nat n
    ∧ integrator_ias15_step st
      = Some (finish (prepare st)
                (leave (Nat.iter n (iteration (prepare st)) (pc_initial (prepare st)))),
              1%Z).
Proof.
  destruct (pc_loop_from_initial (prepare st) extra) as (n & Hn & Hex & Hfirst & Hloop).
  exists n. repeat split; try done.
  - rewrite iterations_leave, iterations_iter. simpl. lia.
  - destruct (pc_loop_from_initial (prepare st) 0) as (n' & Hn' & Hex' & Hfirst' & Hloop').
    assert (n' = n) as ->.
    { destruct (Nat.lt_trichotomy n' n) as [Hlt|[Heq|Hgt]]; [|done|].
      - rewrite (Hfirst n' Hlt) in Hex'. done.
      - rewrite (Hfirst' n Hgt) in Hex. done. }
    unfold integrator_ias15_step. rewrite Nat.add_0_r in Hloop'. by rewrite Hloop'.
Qed.

(** C4: the step routine always returns 1.  When the loop is left at its
    third exit, after twelve iterations, the step is accepted all the same,
    [integrator_iterations_max_exceeded] is incremented and the warning goes
    to [stderr] exactly when the counter becomes 10; at the other exits
    neither changes.  The retry loop of [integrator_part2] therefore calls the
    step routine once. *)
Theorem step_always_succeeds (st : state) :
  ∃ (s : pc_state) (st' : state),
    integrator_ias15_step st = Some (st', 1%Z)
    ∧ pc_loop pc_fuel (prepare st) (pc_initial (prepare st)) = Some (leave s)
    ∧ exits s = true
    ∧ (if converged s || oscillating s
       then integrator_iterations_max_exceeded st'
              = integrator_iterations_max_exceeded st
            ∧ stderr st' = stderr st
       else iterations s = 12%Z
            ∧ integrator_iterations_max_exceeded st'
              = ulong_incr (integrator_iterations_max_exceeded st)
            ∧ stderr st'
              = if bool_decide (integrator_iterations_max_exceeded st' = 10%Z)
                then stderr st ++ [Warning_not_converged 10]
                else stderr st)
    ∧ ∀ fuel, integrator_part2 (S fuel) st = Some (st', 1).
Proof.
  destruct (pc_loop_from_initial (prepare st) 0) as (n & Hn & Hex & Hfirst & Hloop).
  rewrite Nat.add_0_r in Hloop.
  set (s := Nat.iter n (iteration (prepare st)) (pc_initial (prepare st))) in *.
  exists s, (finish (prepare st) (leave s)).
  assert (integrator_ias15_step st = Some (finish (prepare st) (leave s), 1%Z)) as Hstep.
  { unfold integrator_ias15_step. by rewrite Hloop. }
  destruct (counters_iter (prepare st) (pc_initial (prepare st)) n) as [Hcnt Herr].
  fold s in Hcnt, Herr. simpl in Hcnt, Herr.
  destruct (prepare_counters st) as [Hcnt0 Herr0].
  rewrite Hcnt0 in Hcnt. rewrite Herr0 in Herr.
  split; [done|]. split; [done|]. split; [done|]. split.
  - unfold finish. destruct (advance _ _) as [[dtexp' substep'] t']. simpl.
    unfold leave. destruct (converged s || oscillating s) eqn:Hco.
    + done.
    + simpl. rewrite Hcnt, Herr. split; [|done].
      unfold exits in Hex. rewrite Hco in Hex. simpl in Hex.
      unfold exhausted in Hex.
      pose proof (iterations_iter (prepare st) (pc_initial (prepare st)) n) as Hi.
      fold s in Hi. simpl in Hi. lia.
  - intros fuel. unfold integrator_part2. simpl. by rewrite Hstep.
Qed.

End Loop.

(** ** What a step does to the particle store *)

Section Store.

Import IAS15 Particle.
Context {env : Collaborators}.

Lemma update_acceleration_lookup (ps : list particle) (i : nat) :
  ∃ a, integrator_update_acceleration ps !! i = (λ p, set_acc p a) <$> ps !! i.
Proof.
  unfold integrator_update_acceleration, run_kernel.
  destruct problem_additional_forces as [f|].
  - eexists. rewrite !list_lookup_imap. destruct (ps !! i); simpl; reflexivity.
  - eexists. rewrite list_lookup_imap. reflexivity.
Qed.

Lemma predict_lookup (st : state) (b : list (list float)) (n : nat)
    (ps : list particle) (i : nat) :
  predict st b n ps !! i = at_node st b n i <$> ps !! i.
Proof.
  unfold predict, at_node.
  destruct (velocity_dependent st);
    rewrite !for_each_particle_imap, !list_lookup_imap;
    destruct (ps !! i); reflexivity.
Qed.

Lemma node_store (st : state) (n : nat) (s : pc_data) :
  pc_particles (node st n s)
  = integrator_update_acceleration (predict st (pc_b s) n (pc_particles s)).
Proof. unfold node. by destruct (improve _ _ _ _ _) as [[g1 b1] err1]. Qed.

Lemma node_particles (st : state) (n : nat) (s : pc_data) (i : nat) :
  ∃ a, pc_particles (node st n s) !! i
       = (λ p, set_acc (at_node st (pc_b s) n i p) a) <$> pc_particles s !! i.
Proof.
  rewrite node_store.
  destruct (update_acceleration_lookup (predict st (pc_b s) n (pc_particles s)) i)
    as [a Ha].
  exists a. rewrite Ha, predict_lookup. by destruct (pc_particles s !! i).
Qed.

Lemma at_node_dtexp (st : state) (b : list (list float)) (n i : nat) (p : particle) :
  Particle.dtexp (at_node st b n i p) = Particle.dtexp p.
Proof.
  unfold at_node, predict_velocity, predict_position.
  destruct (velocity_dependent st); destruct (Particle.dtexp p <? IAS15.dtexp st)%Z;
    reflexivity.
Qed.

Lemma node_dtexp (st : state) (n : nat) (s : pc_data) :
  Particle.dtexp <$> pc_particles (node st n s) = Particle.dtexp <$> pc_particles s.
Proof.
  apply list_eq; intros i. rewrite !list_lookup_fmap.
  destruct (node_particles st n s i) as [a ->].
  destruct (pc_particles s !! i); simpl; [|done].
  by rewrite at_node_dtexp.
Qed.

Lemma dtexp_total (ps ps' : list particle) (i : nat) :
  Particle.dtexp <$> ps = Particle.dtexp <$> ps' →
  Particle.dtexp ps.[i] = Particle.dtexp ps'.[i].
Proof.
  intros Heq. apply (f_equal (λ l, l !! i)) in Heq.
  rewrite !list_lookup_fmap in Heq. rewrite !list_lookup_total_alt.
  destruct (ps !! i), (ps' !! i); simpl in *; congruence.
Qed.

Lemma in_class_dtexp (st : state) (ps ps' : list particle) (k : nat) :
  Particle.dtexp <$> ps = Particle.dtexp <$> ps' →
  in_class st ps k = in_class st ps' k.
Proof. intros Heq. unfold in_class. by rewrite (dtexp_total ps ps' _ Heq). Qed.

Ltac case_keeps_others :=
  intros k' k [[g1 b1] err1] j Hne; cbn -[rd wr];
  repeat match goal with
         | |- context [if ?c then _ else _] => destruct c; cbn -[rd wr]
         end;
  rewrite ?rd_wr_other by done; reflexivity.

Lemma case1_keeps_others (at_ a0 : list float) : keeps_others (case1_k at_ a0).
Proof. case_keeps_others. Qed.
Lemma case2_keeps_others (at_ a0 : list float) : keeps_others (case2_k at_ a0).
Proof. case_keeps_others. Qed.
Lemma case3_keeps_others (at_ a0 : list float) : keeps_others (case3_k at_ a0).
Proof. case_keeps_others. Qed.
Lemma case4_keeps_others (at_ a0 : list float) : keeps_others (case4_k at_ a0).
Proof. case_keeps_others. Qed.
Lemma case5_keeps_others (at_ a0 : list float) : keeps_others (case5_k at_ a0).
Proof. case_keeps_others. Qed.
Lemma case6_keeps_others (at_ a0 : list float) : keeps_others (case6_k at_ a0).
Proof. case_keeps_others. Qed.
Lemma case7_keeps_others (at_ a0 : list float) : keeps_others (case7_k at_ a0).
Proof. case_keeps_others. Qed.

Lemma guard_frame (st : state) (ps : list particle) (body : nat → gbe → gbe)
    (N3 : nat) (s : gbe) (j k : nat) :
  keeps_others body →
  in_class st ps k = false →
  rd (for_ 0 N3 (guard st ps body) s).1.2 j k = rd s.1.2 j k.
Proof.
  intros Hbody Hk.
  apply (for_inv (λ _ acc, rd acc.1.2 j k = rd s.1.2 j k) 0 N3); [done|].
  intros k' acc _ IH. unfold guard.
  destruct (in_class st ps k') eqn:Hk'; [|done].
  rewrite Hbody; [done|]. intros ->. congruence.
Qed.

(** A component of a particle outside the current class keeps its [b]. *)
Lemma improve_frame (st : state) (ps : list particle) (at_ : list float) (n : nat)
    (s : gbe) (j k : nat) :
  in_class st ps k = false →
  rd (improve st ps at_ n s).1.2 j k = rd s.1.2 j k.
Proof.
  intros Hk. unfold improve.
  do 8 (destruct n as [|n]; [try done; apply guard_frame;
    eauto using case1_keeps_others, case2_keeps_others, case3_keeps_others,
      case4_keeps_others, case5_keeps_others, case6_keeps_others,
      case7_keeps_others|]).
  done.
Qed.

Lemma node_b_frame (st : state) (n : nat) (s : pc_data) (j k : nat) :
  in_class st (pc_particles s) k = false →
  rd (pc_b (node st n s)) j k = rd (pc_b s) j k.
Proof.
  intros Hk. pose proof (node_dtexp st n s) as Hd.
  unfold node in *. destruct (improve _ _ _ _ _) as [[g1 b1] err1] eqn:Himp.
  simpl in *. rewrite <-(in_class_dtexp st _ _ k Hd) in Hk.
  match type of Himp with
  | improve _ ?ps ?a _ ?s0 = _ =>
      pose proof (improve_frame st ps a n s0 j k Hk) as Hf
  end.
  rewrite Himp in Hf. exact Hf.
Qed.

Lemma node_inv (st : state) (n : nat) (s : pc_data) :
  loop_inv st s → loop_inv st (node st n s).
Proof.
  intros [Hd Hb]. split.
  - by rewrite node_dtexp.
  - intros j k Hk. rewrite node_b_frame; [by apply Hb|].
    by rewrite (in_class_dtexp st _ _ k Hd).
Qed.

Lemma nodes_inv (st : state) (lo m : nat) (s : pc_data) :
  loop_inv st s → loop_inv st (for_ lo m (node st) s).
Proof.
  intros Hs. apply (for_inv (λ _ acc, loop_inv st acc) lo m); [done|].
  intros k acc _. apply node_inv.
Qed.

Lemma iter_inv (st : state) (s : pc_state) (n : nat) :
  loop_inv st (pc s) → loop_inv st (pc (Nat.iter n (iteration st) s)).
Proof.
  intros Hs. induction n as [|n IH]; [done|].
  rewrite Nat.iter_succ. unfold iteration at 1. simpl pc.
  apply nodes_inv. exact IH.
Qed.

Lemma initial_inv (st : state) : loop_inv st (pc (pc_initial st)).
Proof. split; done. Qed.

Lemma pc_leave (s : pc_state) : pc (leave s) = pc s.
Proof. unfold leave. by destruct (converged s || oscillating s). Qed.

(** The loop runs at least one iteration, so the data it leaves come out of
    node 7. *)
Lemma initial_not_exit (st : state) : exits (pc_initial st) = false.
Proof. reflexivity. Qed.

Lemma loop_result (st : state) :
  ∃ s6 : pc_data,
    loop_inv st s6
    ∧ ∃ s : pc_state,
        pc_loop pc_fuel st (pc_initial st) = Some s ∧ pc s = node st 7 s6.
Proof.
  destruct (pc_loop_from_initial st 0) as (n & Hn & Hex & Hfirst & Hloop).
  rewrite Nat.add_0_r in Hloop.
  destruct n as [|n]; [simpl Nat.iter in Hex; by rewrite initial_not_exit in Hex|].
  exists (for_ 1 6 (node st) (set_error (pc (Nat.iter n (iteration st) (pc_initial st))) 0)).
  split.
  - apply nodes_inv. apply (iter_inv st (pc_initial st) n (initial_inv st)).
  - eexists. split; [exact Hloop|]. rewrite pc_leave, Nat.iter_succ.
    unfold iteration at 1. simpl pc. apply (for_snoc 1 6).
Qed.

(** *** Commit *)

Tactic Notation "store_simpl" :=
  cbn [c_particles c_x0 c_v0 c_csx c_csv c_er c_br set_particles
       x y z vx vy vz ax ay az tdone dtdone Particle.dtexp xpast ypast zpast
       number cache_pos set_done set_vel set_pos set_acc set_dtexp].
Tactic Notation "store_simpl" "in" hyp(H) :=
  cbn [c_particles c_x0 c_v0 c_csx c_csv c_er c_br set_particles
       x y z vx vy vz ax ay az tdone dtdone Particle.dtexp xpast ypast zpast
       number cache_pos set_done set_vel set_pos set_acc set_dtexp] in H.

Lemma tbl_set_same (tbl : Z → Z → float) (i j : Z) (v : float) :
  tbl_set tbl i j v i j = v.
Proof. unfold tbl_set. by rewrite bool_decide_eq_true_2. Qed.

Lemma commit_component_frame (st : state) (b : list (list float)) (k k' : nat)
    (s : commit_state) :
  k ≠ k' →
  (c_x0 (commit_component st b k s)).[k'] = (c_x0 s).[k']
  ∧ (c_v0 (commit_component st b k s)).[k'] = (c_v0 s).[k'].
Proof.
  intros Hne. unfold commit_component. simpl.
  by rewrite !list_lookup_total_insert_ne.
Qed.

Lemma commit_components_particles (st : state) (b : list (list float)) (lo m : nat)
    (s : commit_state) :
  c_particles (for_ lo m (commit_component st b) s) = c_particles s.
Proof.
  apply (for_inv (λ _ acc, c_particles acc = c_particles s) lo m); done.
Qed.

Lemma commit_components_frame (st : state) (b : list (list float)) (lo m k' : nat)
    (s : commit_state) :
  k' < lo ∨ lo + m ≤ k' →
  (c_x0 (for_ lo m (commit_component st b) s)).[k'] = (c_x0 s).[k']
  ∧ (c_v0 (for_ lo m (commit_component st b) s)).[k'] = (c_v0 s).[k'].
Proof.
  intros Hk.
  apply (for_inv (λ _ acc, (c_x0 acc).[k'] = (c_x0 s).[k']
                           ∧ (c_v0 acc).[k'] = (c_v0 s).[k']) lo m); [done|].
  intros k acc Hrange (Hx & Hv).
  destruct (commit_component_frame st b k k' acc) as [Hx' Hv']; [lia|].
  rewrite Hx', Hv'. done.
Qed.

Lemma committed_frame (st : state) (x1 v1 x2 v2 : list float) (i : nat)
    (p p' : particle) :
  (∀ k, k < 3 * i + 3 → x2.[k] = x1.[k] ∧ v2.[k] = v1.[k]) →
  committed st x1 v1 i p p' → committed st x2 v2 i p p'.
Proof.
  intros Hsame (Hd & Hxp & Hyp & Hzp & H).
  destruct (Hsame (3 * i)) as [Hx0 Hv0]; [lia|].
  destruct (Hsame (3 * i + 1)) as [Hx1 Hv1]; [lia|].
  destruct (Hsame (3 * i + 2)) as [Hx2 Hv2]; [lia|].
  unfold committed. rewrite Hx0, Hx1, Hx2, Hv0, Hv1, Hv2. done.
Qed.

Lemma commit_spec (st : state) (s : pc_data) :
  length (c_particles (commit st s)) = length (pc_particles s)
  ∧ ∀ i p, pc_particles s !! i = Some p →
      ∃ p', c_particles (commit st s) !! i = Some p'
            ∧ committed st (c_x0 (commit st s)) (c_v0 (commit st s)) i p p'.
Proof.
  set (psL := pc_particles s).
  set (cs0 := {| c_particles := psL; c_x0 := x0 st; c_v0 := v0 st;
                 c_csx := csx st; c_csv := csv st; c_er := er st; c_br := br st |}).
  set (I := λ (m : nat) (cs : commit_state),
    length (c_particles cs) = length psL
    ∧ (∀ i, m ≤ i → c_particles cs !! i = psL !! i)
    ∧ (∀ k, 3 * m ≤ k → (c_x0 cs).[k] = (x0 st).[k] ∧ (c_v0 cs).[k] = (v0 st).[k])
    ∧ (∀ i p, i < m → psL !! i = Some p →
         ∃ p', c_particles cs !! i = Some p' ∧ committed st (c_x0 cs) (c_v0 cs) i p p')).
  assert (I (0 + length psL) (commit st s)) as (Hlen & _ & _ & Hall).
  { unfold commit. fold psL cs0.
    apply (for_inv I 0 (length psL)).
    { unfold I, cs0; simpl. repeat split; try done. intros i p Hi. exfalso. lia. }
    intros m cs [_ Hm] (Hlen & Hrest & Hbuf & Hdone). simpl in Hm.
    destruct (lookup_lt_is_Some_2 psL m Hm) as [p Hp].
    assert ((c_particles cs).[m] = p) as Hpm.
    { apply list_lookup_total_correct. by rewrite Hrest. }
    unfold commit_particle. rewrite Hpm.
    destruct (Hbuf (3 * m)) as [Hb0 _]; [lia|].
    destruct (Hbuf (3 * m + 1)) as [Hb1 _]; [lia|].
    destruct (Hbuf (3 * m + 2)) as [Hb2 _]; [lia|].
    case_bool_decide as Hclass.
    - set (cs1 := for_ (3 * m) 3 (commit_component st (pc_b s)) cs).
      assert (c_particles cs1 = c_particles cs) as Hps1.
      { apply commit_components_particles. }
      assert (∀ k, k < 3 * m ∨ 3 * m + 3 ≤ k →
                (c_x0 cs1).[k] = (c_x0 cs).[k] ∧ (c_v0 cs1).[k] = (c_v0 cs).[k]) as Hfr.
      { intros k Hk. apply (commit_components_frame st (pc_b s) (3 * m) 3 k cs Hk). }
      clearbody cs1. rewrite Hps1, Hpm. store_simpl.
      rewrite list_lookup_total_insert_eq by lia.
      rewrite list_insert_insert_eq.
      unfold I. store_simpl. rewrite length_insert. split; [done|]. split; [|split].
      + intros i Hi. rewrite list_lookup_insert_ne by lia. apply Hrest. lia.
      + intros k Hk. destruct (Hfr k) as [-> ->]; [lia|]. apply Hbuf. lia.
      + intros i q Hi Hq. destruct (decide (i = m)) as [->|Hne].
        * rewrite list_lookup_insert_eq by lia. eexists. split; [done|].
          assert (q = p) as -> by congruence.
          unfold committed. store_simpl. rewrite !tbl_set_same.
          rewrite decide_True by done.
          rewrite !Nat.add_0_r. done.
        * rewrite list_lookup_insert_ne by done.
          destruct (Hdone i q) as (q' & Hq' & Hc); [lia|done|].
          exists q'. split; [done|].
          apply (committed_frame st (c_x0 cs) (c_v0 cs)); [|done].
          intros k Hk. apply Hfr. lia.
    - store_simpl.
      rewrite list_lookup_total_insert_eq by lia.
      rewrite list_insert_insert_eq.
      unfold I. store_simpl. rewrite length_insert. split; [done|]. split; [|split].
      + intros i Hi. rewrite list_lookup_insert_ne by lia. apply Hrest. lia.
      + intros k Hk. apply Hbuf. lia.
      + intros i q Hi Hq. destruct (decide (i = m)) as [->|Hne].
        * rewrite list_lookup_insert_eq by lia. eexists. split; [done|].
          assert (q = p) as -> by congruence.
          unfold committed. store_simpl. rewrite !tbl_set_same.
          rewrite decide_False by done.
          rewrite Hb0, Hb1, Hb2. done.
        * rewrite list_lookup_insert_ne by done.
          destruct (Hdone i q) as (q' & Hq' & Hc); [lia|done|].
          exists q'. split; done. }
  split; [done|]. intros i p Hp. apply Hall; [|done].
  apply lookup_lt_Some in Hp. simpl. done.
Qed.

(** *** Before and after the loop *)

Lemma prepare_fields (st : state) :
  particles (prepare st) = particles st
  ∧ t (prepare st) = t st
  ∧ IAS15.dtexp (prepare st) = IAS15.dtexp st
  ∧ dtexp_substep (prepare st) = dtexp_substep st
  ∧ integrator_epsilon (prepare st) = integrator_epsilon st
  ∧ integrator_max_dt (prepare st) = integrator_max_dt st
  ∧ integrator_force_is_velocitydependent (prepare st)
    = integrator_force_is_velocitydependent st
  ∧ dt (prepare st)
    = chain_dt (integrator_max_dt st) (dtexp_substep st) (IAS15.dtexp st).
Proof.
  unfold prepare.
  destruct (warm_start _ _ _ _ _) as [e1 b1].
  destruct (capture _ _ _ _) as [[x1 v1] a1]. simpl.
  unfold allocate. case_bool_decide; done.
Qed.

Lemma finish_fields (st : state) (s : pc_state) :
  particles (finish st s)
  = find_new_timestep st (pc_at (pc s)) (pc_b (pc s)) (c_particles (commit st (pc s)))
  ∧ x0 (finish st s) = c_x0 (commit st (pc s))
  ∧ v0 (finish st s) = c_v0 (commit st (pc s))
  ∧ at_ (finish st s) = pc_at (pc s)
  ∧ b (finish st s) = pc_b (pc s)
  ∧ dt (finish st s) = dt st
  ∧ integrator_epsilon (finish st s) = integrator_epsilon st
  ∧ integrator_max_dt (finish st s) = integrator_max_dt st.
Proof.
  unfold finish. destruct (advance _ _) as [[dtexp' substep'] t']. done.
Qed.

Lemma find_new_timestep_lookup (st : state) (at_ : list float) (b : list (list float))
    (ps : list particle) (i : nat) :
  find_new_timestep st at_ b ps !! i
  = (λ p, if (0 <? integrator_epsilon st)%float
          then control_particle st at_ b i p else p) <$> ps !! i.
Proof.
  unfold find_new_timestep. destruct (0 <? integrator_epsilon st)%float.
  - by rewrite for_each_particle_imap, list_lookup_imap.
  - by destruct (ps !! i).
Qed.

(** The step as a whole: the loop ends, its data come out of node 7, and the
    state returned is [finish] of them. *)
Lemma step_shape (st : state) :
  ∃ (s6 : pc_data) (s : pc_state),
    loop_inv (prepare st) s6
    ∧ pc s = node (prepare st) 7 s6
    ∧ integrator_ias15_step st = Some (finish (prepare st) s, 1%Z).
Proof.
  destruct (loop_result (prepare st)) as (s6 & Hinv & s & Hloop & Hpc).
  exists s6, s. split; [done|]. split; [done|].
  unfold integrator_ias15_step. by rewrite Hloop.
Qed.

(** Particle [i] as the loop leaves it. *)
Lemma loop_particle (st : state) (s6 : pc_data) (i : nat) (p : particle) :
  loop_inv st s6 →
  particles st !! i = Some p →
  ∃ p6 a,
    pc_particles s6 !! i = Some p6
    ∧ Particle.dtexp p6 = Particle.dtexp p
    ∧ pc_particles (node st 7 s6) !! i
      = Some (set_acc (at_node st (pc_b s6) 7 i p6) a).
Proof.
  intros [Hd _] Hp.
  apply (f_equal (λ l, l !! i)) in Hd. rewrite !list_lookup_fmap, Hp in Hd.
  destruct (pc_particles s6 !! i) as [p6|] eqn:Hp6; [|done].
  simpl in Hd. destruct (node_particles st 7 s6 i) as [a Ha].
  exists p6, a. rewrite Ha, Hp6. split; [done|]. split; [congruence|done].
Qed.

(** Particle [i] as the step leaves it: committed, then given its new class. *)
Lemma step_particle (st : state) (s6 : pc_data) (s : pc_state) (i : nat) (p : particle) :
  loop_inv (prepare st) s6 →
  pc s = node (prepare st) 7 s6 →
  particles st !! i = Some p →
  ∃ p6 a pc' p',
    pc_particles s6 !! i = Some p6
    ∧ Particle.dtexp p6 = Particle.dtexp p
    ∧ committed (prepare st) (x0 (finish (prepare st) s)) (v0 (finish (prepare st) s)) i
        (set_acc (at_node (prepare st) (pc_b s6) 7 i p6) a) pc'
    ∧ particles (finish (prepare st) s) !! i = Some p'
    ∧ p' = (if (0 <? integrator_epsilon st)%float
            then control_particle (prepare st) (at_ (finish (prepare st) s))
                   (b (finish (prepare st) s)) i pc'
            else pc').
Proof.
  intros Hinv Hpc Hp.
  destruct (prepare_fields st) as (Hps & _ & _ & _ & Heps & _).
  rewrite <-Hps in Hp.
  destruct (loop_particle (prepare st) s6 i p Hinv Hp) as (p6 & a & Hp6 & Hd6 & Hnode).
  rewrite <-Hpc in Hnode.
  destruct (commit_spec (prepare st) (pc s)) as [_ Hcommit].
  destruct (Hcommit i _ Hnode) as (pc' & Hpc' & Hcommitted).
  destruct (finish_fields (prepare st) s) as (Hfps & Hx0 & Hv0 & Hat & Hb & _).
  exists p6, a, pc'. eexists. split; [done|]. split; [done|].
  rewrite Hx0, Hv0, Hat, Hb. split; [done|].
  rewrite Hfps, find_new_timestep_lookup, Hpc', Heps. simpl. done.
Qed.

Lemma control_particle_fields (st : state) (at_ : list float) (b : list (list float))
    (i : nat) (p : particle) :
  let p' := control_particle st at_ b i p in
  x p' = x p ∧ y p' = y p ∧ z p' = z p
  ∧ vx p' = vx p ∧ vy p' = vy p ∧ vz p' = vz p
  ∧ tdone p' = tdone p ∧ dtdone p' = dtdone p
  ∧ xpast p' = xpast p ∧ ypast p' = ypast p ∧ zpast p' = zpast p.
Proof. unfold control_particle. case_bool_decide; done. Qed.

Lemma capture_positions (ps : list particle) (x0 v0 a0 : list float) :
  3 * length ps ≤ length x0 →
  ∀ i p, ps !! i = Some p →
    (capture ps x0 v0 a0).1.1.[3 * i] = x p
    ∧ (capture ps x0 v0 a0).1.1.[3 * i + 1] = y p
    ∧ (capture ps x0 v0 a0).1.1.[3 * i + 2] = z p.
Proof.
  intros Hlen.
  set (I := λ (m : nat) (xva : list float * list float * list float),
    length xva.1.1 = length x0
    ∧ ∀ i p, i < m → ps !! i = Some p →
        xva.1.1.[3 * i] = x p ∧ xva.1.1.[3 * i + 1] = y p ∧ xva.1.1.[3 * i + 2] = z p).
  assert (I (0 + length ps) (capture ps x0 v0 a0)) as [_ Hall].
  { apply (for_inv I 0 (length ps)).
    { split; [done|]. intros i p Hi. exfalso. lia. }
    intros m [[x1 v1] a1] [_ Hm] [Hl Hdone]. simpl in Hm, Hl.
    unfold capture_k, I. cbn [fst snd]. rewrite !length_insert.
    split; [done|]. intros i p Hi Hp.
    destruct (decide (i = m)) as [->|Hne].
    - rewrite (list_lookup_total_correct ps m p Hp).
      rewrite list_lookup_total_insert_ne by lia.
      rewrite list_lookup_total_insert_ne by lia.
      rewrite list_lookup_total_insert_eq by lia.
      rewrite list_lookup_total_insert_ne by lia.
      rewrite list_lookup_total_insert_eq by (rewrite length_insert; lia).
      rewrite list_lookup_total_insert_eq by (rewrite !length_insert; lia).
      done.
    - rewrite !list_lookup_total_insert_ne by lia.
      apply (Hdone i p); [lia|done]. }
  intros i p Hp. apply Hall; [|done]. apply lookup_lt_Some in Hp. simpl. done.
Qed.

(** When the buffers are as long as [N3allocated] says, [x0] holds the
    positions of all particles when the loop starts. *)
Lemma prepare_captured (st : state) (i : nat) (p : particle) :
  N3allocated st ≤ length (x0 st) →
  particles st !! i = Some p →
  (x0 (prepare st)).[3 * i] = x p
  ∧ (x0 (prepare st)).[3 * i + 1] = y p
  ∧ (x0 (prepare st)).[3 * i + 2] = z p.
Proof.
  intros Hwf Hp.
  assert (particles (allocate st) = particles st
          ∧ 3 * length (particles st) ≤ length (x0 (allocate st))) as [Hps Hlen].
  { unfold allocate. case_bool_decide as Hgrow; simpl.
    - split; [done|]. unfold realloc. rewrite length_resize. done.
    - split; [done|]. lia. }
  pose proof (capture_positions (particles (allocate st)) (x0 (allocate st))
                (v0 (allocate st)) (a0 (allocate st))) as Hcap.
  rewrite Hps in Hcap. specialize (Hcap Hlen i p Hp).
  unfold prepare. rewrite Hps.
  destruct (warm_start _ _ _ _ _) as [e1 b1].
  destruct (capture _ _ _ _) as [[x1 v1] a1]. exact Hcap.
Qed.

(** The side condition on [x0] above is an invariant of the program: it
    holds of the initial state and every step keeps it. *)
Lemma initial_allocation (ps : list particle) (epsilon min_dt max_dt : float) :
  N3allocated (configure (initial ps) epsilon min_dt max_dt)
  ≤ length (x0 (configure (initial ps) epsilon min_dt max_dt)).
Proof. simpl. lia. Qed.

Lemma capture_length (ps : list particle) (x0 v0 a0 : list float) :
  length (capture ps x0 v0 a0).1.1 = length x0.
Proof.
  apply (for_inv (λ _ (xva : list float * list float * list float),
                    length xva.1.1 = length x0) 0 (length ps)); [done|].
  intros k [[x1 v1] a1] _ Hl. unfold capture_k. cbn [fst snd] in *.
  by rewrite !length_insert.
Qed.

Lemma commit_x0_length (st : state) (s : pc_data) :
  length (c_x0 (commit st s)) = length (x0 st).
Proof.
  apply (for_inv (λ _ cs, length (c_x0 cs) = length (x0 st))
           0 (length (pc_particles s))); [done|].
  intros i cs _ Hl. unfold commit_particle.
  case_bool_decide; store_simpl; [|done].
  apply (for_inv (λ _ cs', length (c_x0 cs') = length (x0 st)) (3 * i) 3); [done|].
  intros k cs' _ Hl'. unfold commit_component. store_simpl.
  by rewrite length_insert.
Qed.

Lemma allocate_allocation (st : state) :
  N3allocated st ≤ length (x0 st) →
  N3allocated (allocate st) ≤ length (x0 (allocate st)).
Proof.
  intros Hwf. unfold allocate. case_bool_decide; [|done].
  cbn [N3allocated x0]. unfold realloc. by rewrite length_resize.
Qed.

Lemma prepare_allocation (st : state) :
  N3allocated (prepare st) = N3allocated (allocate st)
  ∧ length (x0 (prepare st)) = length (x0 (allocate st)).
Proof.
  pose proof (capture_length (particles (allocate st)) (x0 (allocate st))
                (v0 (allocate st)) (a0 (allocate st))) as Hcap.
  unfold prepare.
  destruct (warm_start _ _ _ _ _) as [e1 b1].
  destruct (capture _ _ _ _) as [[x1 v1] a1].
  cbn [N3allocated x0]. cbn [fst] in Hcap. done.
Qed.

Lemma finish_allocation (st : state) (s : pc_state) :
  N3allocated (finish st s) = N3allocated st
  ∧ length (x0 (finish st s)) = length (x0 st).
Proof.
  destruct (finish_fields st s) as (_ & Hx0 & _).
  rewrite Hx0, commit_x0_length. split; [|done].
  unfold finish. by destruct (advance _ _) as [[dtexp' substep'] t'].
Qed.

Lemma step_keeps_allocation (st st' : state) (ret : Z) :
  N3allocated st ≤ length (x0 st) →
  integrator_ias15_step st = Some (st', ret) →
  N3allocated st' ≤ length (x0 st').
Proof.
  intros Hwf Hstep.
  destruct (step_shape st) as (s6 & s & _ & _ & Hshape).
  rewrite Hshape in Hstep. injection Hstep as <- _.
  destruct (finish_allocation (prepare st) s) as [-> ->].
  destruct (prepare_allocation st) as [-> ->].
  by apply allocate_allocation.
Qed.

(** C5: after a step, every particle whose class was the global class at
    entry has its position and velocity equal to the committed [x0] and [v0],
    [tdone] equal to the entry time plus the step's [dt], and [dtdone] equal
    to that [dt], the length of the current sub-interval chain. *)
Theorem commit_records_advanced_particles (st : state) :
  ∃ st' : state,
    integrator_ias15_step st = Some (st', 1%Z)
    ∧ dt st' = chain_dt (integrator_max_dt st) (dtexp_substep st) (IAS15.dtexp st)
    ∧ ∀ i p,
        particles st !! i = Some p →
        Particle.dtexp p = IAS15.dtexp st →
        ∃ p', particles st' !! i = Some p'
              ∧ x p' = (x0 st').[3 * i]
              ∧ y p' = (x0 st').[3 * i + 1]
              ∧ z p' = (x0 st').[3 * i + 2]
              ∧ vx p' = (v0 st').[3 * i]
              ∧ vy p' = (v0 st').[3 * i + 1]
              ∧ vz p' = (v0 st').[3 * i + 2]
              ∧ tdone p' = (t st + dt st')%float
              ∧ dtdone p' = dt st'.
Proof.
  destruct (step_shape st) as (s6 & s & Hinv & Hpc & Hstep).
  exists (finish (prepare st) s). split; [done|].
  destruct (prepare_fields st) as (_ & Ht & Hdtexp & _ & _ & _ & _ & Hdt).
  destruct (finish_fields (prepare st) s) as (_ & _ & _ & _ & _ & Hfdt & _).
  split; [by rewrite Hfdt|].
  intros i p Hp Hclass.
  destruct (step_particle st s6 s i p Hinv Hpc Hp)
    as (p6 & a & pc' & p' & Hp6 & Hd6 & Hcommitted & Hp' & Hctl).
  exists p'. split; [done|].
  destruct Hcommitted as (_ & _ & _ & _ & Hc).
  rewrite decide_True in Hc.
  2:{ store_simpl. rewrite at_node_dtexp, Hd6, Hclass. done. }
  rewrite Hfdt, <-Ht.
  destruct (0 <? integrator_epsilon st)%float; subst p'; [|done].
  pose proof (control_particle_fields (prepare st) (at_ (finish (prepare st) s))
                (b (finish (prepare st) s)) i pc') as Hf.
  cbv zeta in Hf. destruct Hf as (-> & -> & -> & -> & -> & -> & -> & -> & _).
  done.
Qed.

(** C6: a particle whose class is not the global class at entry leaves the
    step where it entered it: its position is restored from [x0], which still
    holds the entry position, and is cached in [xpast], [ypast], [zpast] at
    [[-dtexp][dtexp_substep[-dtexp]]] for the entry values of the global
    [dtexp] and [dtexp_substep]. *)
Theorem other_class_position_restored (st : state) :
  N3allocated st ≤ length (x0 st) →
  ∃ st' : state,
    integrator_ias15_step st = Some (st', 1%Z)
    ∧ ∀ i p,
        particles st !! i = Some p →
        Particle.dtexp p ≠ IAS15.dtexp st →
        ∃ p', particles st' !! i = Some p'
              ∧ x p' = x p ∧ y p' = y p ∧ z p' = z p
              ∧ (x0 st').[3 * i] = x p
              ∧ (x0 st').[3 * i + 1] = y p
              ∧ (x0 st').[3 * i + 2] = z p
              ∧ xpast p' (- IAS15.dtexp st)%Z (dtexp_substep st (- IAS15.dtexp st)%Z) = x p
              ∧ ypast p' (- IAS15.dtexp st)%Z (dtexp_substep st (- IAS15.dtexp st)%Z) = y p
              ∧ zpast p' (- IAS15.dtexp st)%Z (dtexp_substep st (- IAS15.dtexp st)%Z) = z p.
Proof.
  intros Hwf.
  destruct (step_shape st) as (s6 & s & Hinv & Hpc & Hstep).
  exists (finish (prepare st) s). split; [done|].
  destruct (prepare_fields st) as (_ & _ & Hdtexp & Hsub & _).
  intros i p Hp Hclass.
  destruct (prepare_captured st i p Hwf Hp) as (Hx & Hy & Hz).
  destruct (step_particle st s6 s i p Hinv Hpc Hp)
    as (p6 & a & pc' & p' & Hp6 & Hd6 & Hcommitted & Hp' & Hctl).
  exists p'. split; [done|].
  destruct Hcommitted as (_ & Hxp & Hyp & Hzp & Hc).
  rewrite decide_False in Hc.
  2:{ store_simpl. rewrite at_node_dtexp, Hd6, Hdtexp. done. }
  destruct Hc as (Hx' & Hy' & Hz' & Hx0 & Hy0 & Hz0 & _).
  rewrite Hdtexp, Hsub in Hxp, Hyp, Hzp.
  rewrite Hx0, Hy0, Hz0, Hx, Hy, Hz.
  rewrite Hx in Hx'. rewrite Hy in Hy'. rewrite Hz in Hz'.
  destruct (0 <? integrator_epsilon st)%float; subst p'.
  - pose proof (control_particle_fields (prepare st) (at_ (finish (prepare st) s))
                  (b (finish (prepare st) s)) i pc') as Hf.
    cbv zeta in Hf.
    destruct Hf as (-> & -> & -> & _ & _ & _ & _ & _ & -> & -> & ->).
    rewrite Hxp, Hyp, Hzp. done.
  - rewrite Hxp, Hyp, Hzp. done.
Qed.

(** *** The step controller *)

Lemma new_dtexp_clamped (st : state) (at_ : list float) (b : list (list float))
    (i : nat) :
  new_dtexp st at_ b i
  = let err := errork_max at_ b i in
    if isnormal err then
      Z.max (-2)
        (Z.min 0
           (int_of_double
              (floor (log (pow (integrator_epsilon st / err) (1 / 7) * dt st
                           / integrator_max_dt st) / log 8)%float)))
    else 0%Z.
Proof.
  unfold new_dtexp. cbv zeta. destruct (isnormal _); [|done].
  match goal with
  | |- context [int_of_double ?v] => generalize (int_of_double v); intros n
  end.
  destruct (Z.ltb_spec 0 n) as [Hpos|Hpos];
    match goal with
    | |- context [(?a <? ?b)%Z] => destruct (Z.ltb_spec a b)
    end; lia.
Qed.

(** C7: the step controller gives a particle of the current class the class
    [floor(log(dtparticle / max_dt) / log 8)] clamped to [-2, 0], or [0] when
    the error estimate is not a normal number; it runs only when
    [integrator_epsilon > 0], and nothing else in a step changes a particle's
    class.  So a class in [-2, 0] at entry is in [-2, 0] at exit. *)
Theorem dtexp_stays_in_range (st : state) :
  ∃ st' : state,
    integrator_ias15_step st = Some (st', 1%Z)
    ∧ ∀ i p,
        particles st !! i = Some p →
        ∃ p', particles st' !! i = Some p'
              ∧ Particle.dtexp p'
                = (if (0 <? integrator_epsilon st)%float
                      && bool_decide (Particle.dtexp p = IAS15.dtexp st)
                   then
                     let err := errork_max (at_ st') (b st') i in
                     if isnormal err then
                       Z.max (-2)
                         (Z.min 0
                            (int_of_double
                               (floor (log (pow (integrator_epsilon st / err) (1 / 7)
                                            * dt st' / integrator_max_dt st)
                                       / log 8)%float)))
                     else 0%Z
                   else Particle.dtexp p)
              ∧ ((-2 ≤ Particle.dtexp p ≤ 0)%Z → (-2 ≤ Particle.dtexp p' ≤ 0)%Z).
Proof.
  destruct (step_shape st) as (s6 & s & Hinv & Hpc & Hstep).
  exists (finish (prepare st) s). split; [done|].
  destruct (prepare_fields st) as (_ & _ & Hdtexp & _ & Heps & Hmax & _).
  destruct (finish_fields (prepare st) s) as (_ & _ & _ & _ & _ & Hfdt & _).
  intros i p Hp.
  destruct (step_particle st s6 s i p Hinv Hpc Hp)
    as (p6 & a & pc' & p' & Hp6 & Hd6 & Hcommitted & Hp' & Hctl).
  exists p'. split; [done|].
  destruct Hcommitted as (Hd & _). store_simpl in Hd.
  rewrite at_node_dtexp, Hd6 in Hd.
  assert (Particle.dtexp p'
          = if (0 <? integrator_epsilon st)%float
               && bool_decide (Particle.dtexp p = IAS15.dtexp st)
            then new_dtexp (prepare st) (at_ (finish (prepare st) s))
                   (b (finish (prepare st) s)) i
            else Particle.dtexp p) as Hnew.
  { destruct (0 <? integrator_epsilon st)%float; subst p'; simpl; [|done].
    unfold control_particle. rewrite Hd, Hdtexp.
    case_bool_decide as Hne; case_bool_decide as Heq; done. }
  rewrite new_dtexp_clamped, Heps, Hmax, <-Hfdt in Hnew.
  split; [exact Hnew|].
  intros Hrange. rewrite Hnew.
  destruct (_ && _); [|done]. cbv zeta. destruct (isnormal _); lia.
Qed.

(** *** Velocity dependent forces *)

Lemma div3 (i c : nat) : c < 3 → (3 * i + c) / 3 = i.
Proof. intros Hc. symmetry. apply (Nat.div_unique _ 3 i c); lia. Qed.

Lemma predicted_velocity_ext (st : state) (b1 b2 : list (list float))
    (w : list float) (k : nat) :
  (∀ j, rd b1 j k = rd b2 j k) →
  predicted_velocity st b1 w k = predicted_velocity st b2 w k.
Proof.
  intros Hb. unfold predicted_velocity.
  by rewrite (Hb 0), (Hb 1), (Hb 2), (Hb 3), (Hb 4), (Hb 5), (Hb 6).
Qed.

Lemma at_node_velocity (st : state) (b : list (list float)) (n i : nat) (p : particle) :
  velocity_dependent st = true →
  vx (at_node st b n i p) = predicted_velocity st b (velocity_weights (dt st) n) (3 * i + 0)
  ∧ vy (at_node st b n i p) = predicted_velocity st b (velocity_weights (dt st) n) (3 * i + 1)
  ∧ vz (at_node st b n i p) = predicted_velocity st b (velocity_weights (dt st) n) (3 * i + 2).
Proof. intros Hv. unfold at_node. rewrite Hv. done. Qed.

(** C9: with [problem_additional_forces] set and
    [integrator_force_is_velocitydependent] nonzero, the store every force
    evaluation reads has, for every particle whatever its class, the velocity
    predicted for that node.  The commit then gives the
    particles of the current class the committed [v0]; a particle of another
    class keeps the prediction of node 7, made from [csv], [a0], [v0] and the
    [b] of the warm start. *)
Theorem velocity_of_other_class_is_last_prediction (st : state)
    (f : list particle → nat → float * float * float) :
  problem_additional_forces = Some f →
  integrator_force_is_velocitydependent st ≠ 0%Z →
  (∀ n s,
     pc_particles (node (prepare st) n s)
     = integrator_update_acceleration
         (predict (prepare st) (pc_b s) n (pc_particles s)))
  ∧ (∀ n b ps i p,
       ps !! i = Some p →
       ∃ p', predict (prepare st) b n ps !! i = Some p'
             ∧ vx p' = predicted_velocity (prepare st) b
                         (velocity_weights (dt (prepare st)) n) (3 * i + 0)
             ∧ vy p' = predicted_velocity (prepare st) b
                         (velocity_weights (dt (prepare st)) n) (3 * i + 1)
             ∧ vz p' = predicted_velocity (prepare st) b
                         (velocity_weights (dt (prepare st)) n) (3 * i + 2))
  ∧ ∃ st' : state,
      integrator_ias15_step st = Some (st', 1%Z)
      ∧ ∀ i p,
          particles st !! i = Some p →
          ∃ p', particles st' !! i = Some p'
                ∧ if decide (Particle.dtexp p = IAS15.dtexp st) then
                    vx p' = (v0 st').[3 * i]
                    ∧ vy p' = (v0 st').[3 * i + 1]
                    ∧ vz p' = (v0 st').[3 * i + 2]
                  else
                    vx p' = predicted_velocity (prepare st) (b (prepare st))
                              (velocity_weights (dt (prepare st)) 7) (3 * i + 0)
                    ∧ vy p' = predicted_velocity (prepare st) (b (prepare st))
                                (velocity_weights (dt (prepare st)) 7) (3 * i + 1)
                    ∧ vz p' = predicted_velocity (prepare st) (b (prepare st))
                                (velocity_weights (dt (prepare st)) 7) (3 * i + 2).
Proof.
  intros Hf Hflag.
  destruct (prepare_fields st) as (Hps & _ & Hdtexp & _ & _ & _ & Hvd & _).
  assert (velocity_dependent (prepare st) = true) as Hdep.
  { unfold velocity_dependent. rewrite Hf, Hvd.
    apply negb_true_iff, Z.eqb_neq. done. }
  split; [intros n s; apply node_store|].
  split.
  { intros n b0 ps i p Hp. rewrite predict_lookup, Hp. eexists. split; [done|].
    by apply at_node_velocity. }
  destruct (step_shape st) as (s6 & s & Hinv & Hpc & Hstep).
  exists (finish (prepare st) s). split; [done|].
  intros i p Hp.
  destruct (step_particle st s6 s i p Hinv Hpc Hp)
    as (p6 & a & pc' & p' & Hp6 & Hd6 & Hcommitted & Hp' & Hctl).
  exists p'. split; [done|].
  assert (vx p' = vx pc' ∧ vy p' = vy pc' ∧ vz p' = vz pc') as (-> & -> & ->).
  { destruct (0 <? integrator_epsilon st)%float; subst p'; [|done].
    pose proof (control_particle_fields (prepare st) (at_ (finish (prepare st) s))
                  (b (finish (prepare st) s)) i pc') as Hfld.
    cbv zeta in Hfld. tauto. }
  destruct Hcommitted as (_ & _ & _ & _ & Hc).
  store_simpl in Hc. rewrite at_node_dtexp, Hd6, Hdtexp in Hc.
  destruct (decide (Particle.dtexp p = IAS15.dtexp st)) as [Hclass|Hclass].
  - tauto.
  - destruct Hc as (_ & _ & _ & _ & _ & _ & -> & -> & -> & _).
    destruct (at_node_velocity (prepare st) (pc_b s6) 7 i p6 Hdep) as (-> & -> & ->).
    destruct Hinv as [_ Hb].
    assert (∀ c, c < 3 → ∀ j, rd (pc_b s6) j (3 * i + c) = rd (b (prepare st)) j (3 * i + c))
      as Hbk.
    { intros c Hc j. apply Hb. unfold in_class. rewrite div3 by done.
      rewrite Hps, (list_lookup_total_correct _ _ _ Hp), Hdtexp.
      by apply bool_decide_eq_false_2. }
    rewrite (predicted_velocity_ext _ _ _ _ _ (Hbk 0 ltac:(lia))).
    rewrite (predicted_velocity_ext _ _ _ _ _ (Hbk 1 ltac:(lia))).
    rewrite (predicted_velocity_ext _ _ _ _ _ (Hbk 2 ltac:(lia))).
    done.
Qed.

End Store.

(** ** Scenarios *)

Section Runs.

Import IAS15 Particle.

Variable pow' : float → float → float.
Variable log' : float → float.
Variable floor' : float → float.
Variable int_of_double' : float → Z.

Let free : Collaborators := free pow' log' floor' int_of_double'.
Let spring : Collaborators := spring pow' log' floor' int_of_double'.

(** C8: one particle with velocity [(1, 0, 0)], a kernel that always writes
    [a = 0] and [integrator_max_dt = 1]: after 100 calls of the step routine
    the position is exactly [(100, 0, 0)], the velocity is unchanged and the
    compensated-summation residuals [csx] and [csv] are exactly zero. *)
Theorem free_drift_is_exact :
  ∃ (st : state) (p : particle),
    steps (env := free) 100 drift_start = Some st
    ∧ particles st = [p]
    ∧ x p = 100%float ∧ y p = 0%float ∧ z p = 0%float
    ∧ vx p = 1%float ∧ vy p = 0%float ∧ vz p = 0%float
    ∧ csx st = [0; 0; 0]%float
    ∧ csv st = [0; 0; 0]%float.
Proof.
  assert (match steps (env := free) 100 drift_start with
          | Some st =>
              Some ((λ p, (x p, y p, z p, vx p, vy p, vz p)) <$> particles st,
                    csx st, csv st)
          | None => None
          end
          = Some ([(100, 0, 0, 1, 0, 0)], [0; 0; 0], [0; 0; 0])%float) as Hrun
    by (vm_compute; reflexivity).
  destruct (steps (env := free) 100 drift_start) as [st|]; [|discriminate].
  injection Hrun as Hps Hcsx Hcsv.
  destruct (particles st) as [|p [|q ps]] eqn:Hstore; try discriminate.
  injection Hps as Hx Hy Hz Hvx Hvy Hvz.
  exists st, p. repeat split; first [assumption | reflexivity].
Qed.

(** C1, at a state the code reaches: after one step of the oscillator the
    particle has a normal [dtdone] and [br] differs from [er]; the second
    step runs with the same [dt], and its warm start leaves [b[0][0] = 0]
    where the correction [e + (br - er)] is not zero. *)
Theorem warm_start_leaves_b_zero :
  ∃ st1 : state,
    integrator_ias15_step (env := spring) spring_start = Some (st1, 1%Z)
    ∧ isnormal (dtdone (particles st1).[0]) = true
    ∧ dt (prepare st1) = dtdone (particles st1).[0]
    ∧ (∀ j, j < 7 → rd (b (prepare st1)) j 0 = 0%float)
    ∧ (bd_correction (e (prepare st1)) (br (prepare st1)) (er (prepare st1)) 0 0
       =? 0)%float = false.
Proof.
  eexists. split; [vm_compute; reflexivity|].
  split; [vm_compute; reflexivity|].
  split; [vm_compute; reflexivity|].
  split.
  - intros j Hj. do 7 (destruct j as [|j]; [vm_compute; reflexivity|]). lia.
  - vm_compute. reflexivity.
Qed.

(** C3, at a well-formed input: a particle of class [-1] under the global
    class [0].  The first step has [dt = integrator_max_dt = 1]; the second
    has [dt = h[2] - h[1]], less than [safety_factor] times the first and less
    than [integrator_min_dt = 0.5]. *)
Theorem refinement_ignores_safety_factor_and_min_dt :
  ∃ st1 st2 : state,
    integrator_ias15_step (env := free) refine_start = Some (st1, 1%Z)
    ∧ integrator_ias15_step (env := free) st1 = Some (st2, 1%Z)
    ∧ dt st1 = 1%float
    ∧ dt st2 = (h.[2] - h.[1])%float
    ∧ (dt st2 <? safety_factor * dt st1)%float = true
    ∧ integrator_min_dt st2 = 0.5%float
    ∧ (0 <? integrator_min_dt st2)%float = true
    ∧ (dt st2 <? integrator_min_dt st2)%float = true.
Proof.
  eexists. eexists. split; [vm_compute; reflexivity|].
  split; [vm_compute; reflexivity|].
  repeat split; vm_compute; reflexivity.
Qed.

End Runs.

(** ** The restart reader *)

Section Restart.

Import Input Particle.

Lemma read_particles (f : restart_file) (junk : particle) (ps : list particle)
    (bytes : Z) (n : nat) :
  n ≤ length (file_records f) →
  for_ 0 n (read_particle f junk) (ps, bytes)
  = (ps ++ filter (λ p, (0 < number p)%Z) (take n (file_records f)),
     (bytes + Z.of_nat n)%Z).
Proof.
  induction n as [|n IH]; intros Hn.
  - unfold for_. simpl. rewrite take_0, filter_nil, app_nil_r. f_equal. lia.
  - rewrite for_snoc, IH by lia. simpl.
    destruct (lookup_lt_is_Some_2 (file_records f) n) as [p Hp]; [lia|].
    unfold read_particle, fread_record. rewrite Hp.
    rewrite (take_S_r _ _ _ Hp), filter_app.
    destruct (Z.ltb_spec 0 (number p)).
    + rewrite filter_cons_True, filter_nil by done.
      unfold particles_add. rewrite app_assoc. f_equal. lia.
    + rewrite filter_cons_False, filter_nil, app_nil_r by lia. f_equal. lia.
Qed.

(** C10: [input_binary] takes the count [_N] and the time [t] from the
    header, reads [_N] records, and adds those whose [number] is positive, in
    order; the others are dropped, so at most [_N] particles are added, and
    fewer for a file holding a record with [number <= 0]. *)
Theorem input_binary_skips_unnumbered (f : restart_file) (junk : particle)
    (ps : list particle) :
  Z.to_nat (file_N f) ≤ length (file_records f) →
  ld_t (input_binary f junk ps) = file_t f
  ∧ ld_bytes (input_binary f junk ps) = (2 + Z.of_nat (Z.to_nat (file_N f)))%Z
  ∧ ld_particles (input_binary f junk ps)
    = ps ++ filter (λ p, (0 < number p)%Z)
              (take (Z.to_nat (file_N f)) (file_records f))
  ∧ length (ld_particles (input_binary f junk ps))
    ≤ length ps + Z.to_nat (file_N f)
  ∧ (∀ p, p ∈ take (Z.to_nat (file_N f)) (file_records f) →
          (number p ≤ 0)%Z →
          length (ld_particles (input_binary f junk ps))
          < length ps + Z.to_nat (file_N f)).
Proof.
  intros Hlen. unfold input_binary.
  rewrite read_particles by done. simpl.
  split; [done|]. split; [lia|]. split; [done|].
  rewrite length_app.
  assert (length (take (Z.to_nat (file_N f)) (file_records f)) = Z.to_nat (file_N f))
    as Htake by (rewrite length_take; lia).
  split.
  - pose proof (length_filter (λ p, (0 < number p)%Z)
                  (take (Z.to_nat (file_N f)) (file_records f))). lia.
  - intros p Hin Hnum.
    enough (length (filter (λ p, (0 < number p)%Z)
                      (take (Z.to_nat (file_N f)) (file_records f)))
            < length (take (Z.to_nat (file_N f)) (file_records f))) by lia.
    apply (length_filter_lt _ _ p); [done|lia].
Qed.

End Restart.

(** ** The theorems at concrete inputs *)

Section Examples.

Import IAS15 Particle.

Lemma commit_records_advanced_particles_witness :
  ∃ (st' : state) (p' : particle),
    integrator_ias15_step (env := free_kernel) drift_start = Some (st', 1%Z)
    ∧ particles st' !! 0 = Some p'
    ∧ x p' = (x0 st').[0] ∧ vx p' = (v0 st').[0]
    ∧ tdone p' = (t drift_start + dt st')%float ∧ dtdone p' = dt st'.
Proof.
  destruct (commit_records_advanced_particles (env := free_kernel) drift_start)
    as (st' & Hstep & _ & Hall).
  destruct (Hall 0 (moving 1 0) eq_refl eq_refl)
    as (p' & Hp' & Hx & _ & _ & Hvx & _ & _ & Htd & Hdtd).
  exists st', p'. repeat split; assumption.
Defined.

Lemma other_class_position_restored_witness :
  N3allocated refine_start ≤ length (x0 refine_start)
  ∧ ∃ (st' : state) (p' : particle),
      integrator_ias15_step (env := free_kernel) refine_start = Some (st', 1%Z)
      ∧ particles st' !! 0 = Some p'
      ∧ x p' = 0%float ∧ y p' = 0%float ∧ z p' = 0%float
      ∧ xpast p' 0 0 = 0%float.
Proof.
  assert (N3allocated refine_start ≤ length (x0 refine_start)) as Hwf
    by (simpl; lia).
  split; [exact Hwf|].
  destruct (other_class_position_restored (env := free_kernel) refine_start Hwf)
    as (st' & Hstep & Hall).
  destruct (Hall 0 (moving 1 (-1)) eq_refl ltac:(discriminate))
    as (p' & Hp' & Hx & Hy & Hz & _ & _ & _ & Hxp & _).
  exists st', p'. repeat split; assumption.
Defined.

Lemma dtexp_stays_in_range_witness :
  ∃ (st' : state) (p' : particle),
    integrator_ias15_step (env := free_kernel) drift_start = Some (st', 1%Z)
    ∧ particles st' !! 0 = Some p'
    ∧ (-2 ≤ Particle.dtexp p' ≤ 0)%Z.
Proof.
  destruct (dtexp_stays_in_range (env := free_kernel) drift_start)
    as (st' & Hstep & Hall).
  destruct (Hall 0 (moving 1 0) eq_refl) as (p' & Hp' & _ & Hrange).
  exists st', p'. split; [exact Hstep|]. split; [exact Hp'|].
  apply Hrange. simpl. lia.
Defined.

Lemma velocity_of_other_class_is_last_prediction_witness :
  ∃ (st' : state) (p' : particle),
    integrator_ias15_step (env := drag_kernel) pushed_start = Some (st', 1%Z)
    ∧ particles st' !! 0 = Some p'
    ∧ vx p' = (1 * h.[7] * 1 + 1)%float
    ∧ (vx p' =? vx pushed)%float = false.
Proof.
  destruct (velocity_of_other_class_is_last_prediction (env := drag_kernel)
              pushed_start (λ _ _, (0, 0, 0)%float) eq_refl ltac:(discriminate))
    as (_ & _ & st' & Hstep & Hall).
  destruct (Hall 0 pushed eq_refl) as (p' & Hp' & Hv).
  rewrite decide_False in Hv by discriminate.
  destruct Hv as (Hvx & _).
  exists st', p'. split; [exact Hstep|]. split; [exact Hp'|].
  rewrite Hvx. split; vm_compute; reflexivity.
Defined.

Lemma input_binary_skips_unnumbered_witness :
  length (Input.ld_particles
            (Input.input_binary
               (Input.mk_file 2 1.5 [moving 1 0; Particle.zero; moving 2 0])
               Particle.zero []))
  < 0 + 2.
Proof.
  set (f := Input.mk_file 2 1.5 [moving 1 0; Particle.zero; moving 2 0]).
  assert (Z.to_nat (Input.file_N f) ≤ length (Input.file_records f)) as Hlen
    by (simpl; lia).
  destruct (input_binary_skips_unnumbered f Particle.zero [] Hlen)
    as (_ & _ & _ & _ & Hfewer).
  apply (Hfewer Particle.zero).
  - simpl. apply list_elem_of_lookup. exists 1. reflexivity.
  - simpl. lia.
Defined.

End Examples.

(** ** The buffers stay allocated *)

Section Allocation.

Import IAS15 Particle.
Context {env : Collaborators}.

Lemma wr_length (A : list (list float)) (l k : nat) (v : float) :
  length (wr A l k v) = length A.
Proof. unfold wr. apply length_insert. Qed.

Lemma wr_row_length (A : list (list float)) (l k l' : nat) (v : float) :
  length (wr A l k v !!! l') = length (A !!! l').
Proof.
  unfold wr. destruct (decide (l = l')) as [<-|Hne].
  - destruct (decide (l < length A)) as [Hlt|Hge].
    + rewrite list_lookup_total_insert_eq by done. apply length_insert.
    + by rewrite list_insert_ge by lia.
  - by rewrite list_lookup_total_insert_ne.
Qed.

Lemma rows_ok_wr (n : nat) (A : list (list float)) (l k : nat) (v : float) :
  rows_ok n A → rows_ok n (wr A l k v).
Proof.
  intros [Hlen Hrows]. split.
  - by rewrite wr_length.
  - intros l' Hl'. rewrite wr_row_length. by apply Hrows.
Qed.

Lemma rd_wr_eq (A : list (list float)) (l k : nat) (v : float) :
  l < length A → k < length (A !!! l) → rd (wr A l k v) l k = v.
Proof.
  intros Hl Hk. unfold rd, wr.
  rewrite list_lookup_total_insert_eq by done.
  by rewrite list_lookup_total_insert_eq.
Qed.

Lemma rd_wr_rows (n : nat) (A : list (list float)) (l k : nat) (v : float) :
  rows_ok n A → l < 7 → k < n → rd (wr A l k v) l k = v.
Proof.
  intros [Hlen Hrows] Hl Hk. apply rd_wr_eq; [lia|].
  specialize (Hrows l Hl). lia.
Qed.

Lemma rows_ok_mono (n m : nat) (A : list (list float)) :
  m ≤ n → rows_ok n A → rows_ok m A.
Proof.
  intros Hmn [Hlen Hrows]. split; [done|].
  intros l Hl. specialize (Hrows l Hl). lia.
Qed.

Lemma zero_fill_length (n : nat) (row : list float) :
  length (zero_fill n row) = length row.
Proof.
  apply (for_inv (λ _ acc, length acc = length row) 0 n); [done|].
  intros k acc _ Hl. by rewrite length_insert.
Qed.

Lemma zero_fill_lookup (n : nat) (row : list float) (k : nat) :
  k < n → k < length row → (zero_fill n row).[k] = 0%float.
Proof.
  intros Hk Hrow.
  assert (length (zero_fill n row) = length row
          ∧ ∀ k', k' < 0 + n → k' < length row → (zero_fill n row).[k'] = 0%float)
    as [_ Hall].
  { apply (for_inv (λ m acc, length acc = length row
                             ∧ ∀ k', k' < m → k' < length row → acc.[k'] = 0%float)
             0 n).
    - split; [done|]. intros k' Hk'. exfalso. lia.
    - intros m acc _ [Hl Hz]. rewrite length_insert. split; [done|].
      intros k' Hk' Hr. destruct (decide (k' = m)) as [->|Hne].
      + rewrite list_lookup_total_insert_eq by lia. done.
      + rewrite list_lookup_total_insert_ne by done. apply Hz; lia. }
  apply Hall; [lia|done].
Qed.

(** [for (l = 0; l < 7; ++l) A[l] = f(A[l])] on seven rows. *)
Lemma for_rows (f : list float → list float) (A : list (list float)) :
  length A = 7 →
  length (for_ 0 7 (λ l acc, <[l := f (acc !!! l)]> acc) A) = 7
  ∧ ∀ l, l < 7 → for_ 0 7 (λ l acc, <[l := f (acc !!! l)]> acc) A !!! l = f (A !!! l).
Proof.
  intros Hlen.
  assert (length (for_ 0 7 (λ l acc, <[l := f (acc !!! l)]> acc) A) = 7
          ∧ (∀ l, l < 0 + 7 →
               for_ 0 7 (λ l acc, <[l := f (acc !!! l)]> acc) A !!! l = f (A !!! l))
          ∧ (∀ l, 0 + 7 ≤ l →
               for_ 0 7 (λ l acc, <[l := f (acc !!! l)]> acc) A !!! l = A !!! l))
    as (H1 & H2 & _).
  { apply (for_inv (λ m acc, length acc = 7
                             ∧ (∀ l, l < m → acc !!! l = f (A !!! l))
                             ∧ (∀ l, m ≤ l → acc !!! l = A !!! l)) 0 7).
    - split; [done|]. split; [|done]. intros l Hl. exfalso. lia.
    - intros m acc Hm (Hl & Hdone & Hrest). rewrite length_insert.
      split; [done|]. split.
      + intros l Hlt. destruct (decide (l = m)) as [->|Hne].
        * rewrite list_lookup_total_insert_eq by lia. by rewrite Hrest.
        * rewrite list_lookup_total_insert_ne by done. apply Hdone. lia.
      + intros l Hge. rewrite list_lookup_total_insert_ne by lia. apply Hrest. lia. }
  split; [done|]. intros l Hl. apply H2. lia.
Qed.

(** Any property of the loop's data that the initial data have and that
    nodes and the reset of the error keep holds when the loop is left. *)
Lemma loop_result_with (st : state) (P : pc_data → Prop) :
  P (pc (pc_initial st)) →
  (∀ s, P s → P (set_error s 0)) →
  (∀ n s, P s → P (node st n s)) →
  ∃ (s6 : pc_data) (s : pc_state),
    P s6 ∧ P (pc s) ∧ loop_inv st s6
    ∧ pc_loop pc_fuel st (pc_initial st) = Some s
    ∧ pc s = node st 7 s6
    ∧ (1 ≤ iterations s ≤ 12)%Z.
Proof.
  intros Hinit Herr Hnode.
  assert (∀ lo m s, P s → P (for_ lo m (node st) s)) as Hnodes.
  { intros lo m s Hs. apply (for_inv (λ _ acc, P acc) lo m); [done|].
    intros k acc _. apply Hnode. }
  assert (∀ n, P (pc (Nat.iter n (iteration st) (pc_initial st)))) as Hiter.
  { induction n as [|n IH]; [done|].
    rewrite Nat.iter_succ. unfold iteration at 1. simpl pc.
    apply Hnodes, Herr, IH. }
  destruct (pc_loop_from_initial st 0) as (n & Hn & Hex & Hfirst & Hloop).
  rewrite Nat.add_0_r in Hloop.
  destruct n as [|n]; [simpl Nat.iter in Hex; by rewrite initial_not_exit in Hex|].
  exists (for_ 1 6 (node st) (set_error (pc (Nat.iter n (iteration st) (pc_initial st))) 0)).
  eexists. split; [apply Hnodes, Herr, Hiter|].
  split; [rewrite pc_leave; apply Hiter|].
  split; [apply nodes_inv, (iter_inv st (pc_initial st) n (initial_inv st))|].
  split; [exact Hloop|]. split.
  - rewrite pc_leave, Nat.iter_succ. unfold iteration at 1. simpl pc.
    apply (for_snoc 1 6).
  - rewrite iterations_leave, iterations_iter. simpl. lia.
Qed.

Lemma step_shape_with (st : state) (P : pc_data → Prop) :
  P (pc (pc_initial (prepare st))) →
  (∀ s, P s → P (set_error s 0)) →
  (∀ n s, P s → P (node (prepare st) n s)) →
  ∃ (s6 : pc_data) (s : pc_state),
    P s6 ∧ P (pc s) ∧ loop_inv (prepare st) s6
    ∧ pc s = node (prepare st) 7 s6
    ∧ (1 ≤ iterations s ≤ 12)%Z
    ∧ pc_loop pc_fuel (prepare st) (pc_initial (prepare st)) = Some s
    ∧ integrator_ias15_step st = Some (finish (prepare st) s, 1%Z).
Proof.
  intros Hinit Herr Hnode.
  destruct (loop_result_with (prepare st) P Hinit Herr Hnode)
    as (s6 & s & H6 & Hs & Hinv & Hloop & Hpc & Hit).
  exists s6, s. do 6 (split; [done|]).
  unfold integrator_ias15_step. by rewrite Hloop.
Qed.

(** *** Allocation *)

Lemma allocate_buffers (st : state) :
  buffers_ok st →
  buffers_ok (allocate st)
  ∧ 3 * length (particles st) ≤ N3allocated (allocate st)
  ∧ particles (allocate st) = particles st.
Proof.
  intros Hok.
  unfold allocate. case_bool_decide as Hgrow.
  2:{ split; [exact Hok|]. split; [lia|done]. }
  destruct Hok as (Hat & Hx0 & Hv0 & Ha0 & Hcsx & Hcsv & Hg & Hb & He & Hbr & Her).
  set (N3 := 3 * length (particles st)).
  assert (∀ A, rows_ok (N3allocated st) A →
            rows_ok N3 (for_ 0 7 (λ l acc, <[l := realloc (acc !!! l) N3]> acc) A))
    as Hgrow1.
  { intros A [HA _]. destruct (for_rows (λ row, realloc row N3) A HA) as [Hl Hr].
    split; [done|]. intros l Hlt. rewrite Hr by done.
    unfold realloc. by rewrite length_resize. }
  assert (∀ A, rows_ok (N3allocated st) A →
            rows_ok N3 (for_ 0 7 (λ l acc,
                          <[l := zero_fill N3 (realloc (acc !!! l) N3)]> acc) A))
    as Hgrow0.
  { intros A [HA _].
    destruct (for_rows (λ row, zero_fill N3 (realloc row N3)) A HA) as [Hl Hr].
    split; [done|]. intros l Hlt. rewrite Hr by done.
    rewrite zero_fill_length. unfold realloc. by rewrite length_resize. }
  split; [|split; [simpl; lia|done]].
  unfold buffers_ok.
  cbn [N3allocated at_ x0 v0 a0 csx csv g b e br er].
  rewrite !zero_fill_length. unfold realloc at 1 2 3 4 5 6.
  rewrite !length_resize. fold N3.
  do 6 (split; [done|]).
  split; [apply (Hgrow1 _ Hg)|]. split; [apply (Hgrow0 _ Hb)|].
  split; [apply (Hgrow0 _ He)|]. split; [apply (Hgrow0 _ Hbr)|apply (Hgrow0 _ Her)].
Qed.

Lemma warm_start_rows (n : nat) (ps : list particle) (dt : float)
    (br e b : list (list float)) :
  rows_ok n e → rows_ok n b →
  rows_ok n (warm_start ps dt br e b).1 ∧ rows_ok n (warm_start ps dt br e b).2.
Proof.
  intros He Hb. unfold warm_start.
  apply (for_inv (λ _ (eb : list (list float) * list (list float)),
                    rows_ok n eb.1 ∧ rows_ok n eb.2) 0 (3 * length ps)); [done|].
  intros k [e1 b1] _ [He1 Hb1]. cbn [fst snd] in *.
  unfold warm_start_k. destruct (isnormal _); cbv zeta; cbn [fst snd];
    split; repeat apply rows_ok_wr; done.
Qed.

Lemma capture_lengths (ps : list particle) (x0 v0 a0 : list float) :
  length (capture ps x0 v0 a0).1.1 = length x0
  ∧ length (capture ps x0 v0 a0).1.2 = length v0
  ∧ length (capture ps x0 v0 a0).2 = length a0.
Proof.
  apply (for_inv (λ _ (xva : list float * list float * list float),
                    length xva.1.1 = length x0 ∧ length xva.1.2 = length v0
                    ∧ length xva.2 = length a0) 0 (length ps)); [done|].
  intros k [[x1 v1] a1] _ Hl. unfold capture_k. cbn [fst snd] in *.
  by rewrite !length_insert.
Qed.

Lemma g_from_b_rows (n N3 : nat) (b g : list (list float)) :
  rows_ok n g → rows_ok n (g_from_b N3 b g).
Proof.
  intros Hg. unfold g_from_b.
  apply (for_inv (λ _ acc, rows_ok n acc) 0 N3); [done|].
  intros k acc _ Hacc. unfold g_from_b_k. cbv zeta.
  repeat apply rows_ok_wr. done.
Qed.

Lemma prepare_buffers (st : state) :
  buffers_ok st →
  buffers_ok (prepare st)
  ∧ 3 * length (particles st) ≤ N3allocated (prepare st).
Proof.
  intros Hok.
  destruct (allocate_buffers st Hok)
    as ((Hat & Hx0 & Hv0 & Ha0 & Hcsx & Hcsv & Hg & Hb & He & Hbr & Her) & HN & Hps).
  pose proof (warm_start_rows (N3allocated (allocate st)) (particles (allocate st))
                (chain_dt (integrator_max_dt (allocate st))
                   (dtexp_substep (allocate st)) (IAS15.dtexp (allocate st)))
                (br (allocate st)) (e (allocate st)) (b (allocate st)) He Hb) as Hws.
  pose proof (capture_lengths (particles (allocate st)) (x0 (allocate st))
                (v0 (allocate st)) (a0 (allocate st))) as Hcap.
  unfold prepare.
  destruct (warm_start _ _ _ _ _) as [e1 b1].
  destruct (capture _ _ _ _) as [[x1 v1] a1].
  cbn [fst snd] in Hws, Hcap. destruct Hws as [He1 Hb1].
  destruct Hcap as (Hx1 & Hv1 & Ha1).
  unfold buffers_ok.
  cbn [N3allocated at_ x0 v0 a0 csx csv g b e br er].
  split; [|lia].
  do 6 (split; [first [done|lia]|]).
  split; [by apply g_from_b_rows|]. done.
Qed.

(** *** The loop and the commit keep the lengths *)

Ltac case_keeps_rows :=
  intros k [[g1 b1] err1] [Hg Hb]; cbn [fst snd] in Hg, Hb; cbv zeta;
  cbn -[rd wr];
  repeat match goal with
         | |- context [if ?c then _ else _] => destruct c; cbn -[rd wr]
         end;
  split; repeat apply rows_ok_wr; assumption.

Lemma case1_keeps_rows (n : nat) (at_ a0 : list float) : keeps_rows n (case1_k at_ a0).
Proof. case_keeps_rows. Qed.
Lemma case2_keeps_rows (n : nat) (at_ a0 : list float) : keeps_rows n (case2_k at_ a0).
Proof. case_keeps_rows. Qed.
Lemma case3_keeps_rows (n : nat) (at_ a0 : list float) : keeps_rows n (case3_k at_ a0).
Proof. case_keeps_rows. Qed.
Lemma case4_keeps_rows (n : nat) (at_ a0 : list float) : keeps_rows n (case4_k at_ a0).
Proof. case_keeps_rows. Qed.
Lemma case5_keeps_rows (n : nat) (at_ a0 : list float) : keeps_rows n (case5_k at_ a0).
Proof. case_keeps_rows. Qed.
Lemma case6_keeps_rows (n : nat) (at_ a0 : list float) : keeps_rows n (case6_k at_ a0).
Proof. case_keeps_rows. Qed.
Lemma case7_keeps_rows (n : nat) (at_ a0 : list float) : keeps_rows n (case7_k at_ a0).
Proof. case_keeps_rows. Qed.

Lemma guard_rows (n : nat) (st : state) (ps : list particle)
    (body : nat → gbe → gbe) (N3 : nat) (s : gbe) :
  keeps_rows n body →
  rows_ok n s.1.1 ∧ rows_ok n s.1.2 →
  rows_ok n (for_ 0 N3 (guard st ps body) s).1.1
  ∧ rows_ok n (for_ 0 N3 (guard st ps body) s).1.2.
Proof.
  intros Hbody Hs.
  apply (for_inv (λ _ acc, rows_ok n acc.1.1 ∧ rows_ok n acc.1.2) 0 N3); [done|].
  intros k acc _ Hacc. unfold guard. destruct (in_class st ps k); [|done].
  by apply Hbody.
Qed.

Lemma improve_rows (n : nat) (st : state) (ps : list particle) (at_ : list float)
    (m : nat) (s : gbe) :
  rows_ok n s.1.1 ∧ rows_ok n s.1.2 →
  rows_ok n (improve st ps at_ m s).1.1 ∧ rows_ok n (improve st ps at_ m s).1.2.
Proof.
  intros Hs. unfold improve.
  do 8 (destruct m as [|m]; [try done; apply guard_rows;
    eauto using case1_keeps_rows, case2_keeps_rows, case3_keeps_rows,
      case4_keeps_rows, case5_keeps_rows, case6_keeps_rows, case7_keeps_rows|]).
  done.
Qed.

Lemma copy_at_length (st : state) (ps : list particle) (m : nat) (at_ : list float) :
  length (for_ 0 m (copy_at_k st ps) at_) = length at_.
Proof.
  apply (for_inv (λ _ acc, length acc = length at_) 0 m); [done|].
  intros k acc _ Hl. unfold copy_at_k. case_bool_decide; [done|].
  cbv zeta. by rewrite !length_insert.
Qed.

Lemma node_buffers (n : nat) (st : state) (m : nat) (s : pc_data) :
  loop_buffers n s → loop_buffers n (node st m s).
Proof.
  intros (Hat & Hg & Hb). unfold node.
  match goal with
  | |- context [improve ?st ?ps ?a ?m ?s0] =>
      pose proof (improve_rows n st ps a m s0 (conj Hg Hb)) as Hrows;
      destruct (improve st ps a m s0) as [[g1 b1] err1]
  end.
  cbn [fst snd] in Hrows. unfold loop_buffers. cbn [pc_at pc_g pc_b].
  rewrite copy_at_length. tauto.
Qed.

Lemma commit_particle_buffers (st : state) (b : list (list float)) (m : nat)
    (cs : commit_state) :
  same_buffers (commit_particle st b m cs)
    (if bool_decide (Particle.dtexp (c_particles cs).[m] = IAS15.dtexp st)
     then for_ (3 * m) 3 (commit_component st b) cs else cs).
Proof.
  unfold commit_particle, same_buffers. case_bool_decide.
  - generalize (for_ (3 * m) 3 (commit_component st b) cs). intros cs1.
    cbn [set_particles c_x0 c_v0 c_csx c_csv c_er c_br]. done.
  - cbn [set_particles c_x0 c_v0 c_csx c_csv c_er c_br]. done.
Qed.

Lemma commit_lengths_buffers (st : state) (cs cs' : commit_state) :
  same_buffers cs' cs → commit_lengths st cs → commit_lengths st cs'.
Proof.
  intros (E1 & E2 & E3 & E4 & E5 & E6) [H1 H2 H3 H4 H5 H6].
  split; congruence.
Qed.

Lemma commit_component_lengths (st : state) (b : list (list float)) (k : nat)
    (cs : commit_state) :
  commit_lengths st cs → commit_lengths st (commit_component st b k cs).
Proof.
  intros [H1 H2 H3 H4 H5 H6]. unfold commit_component.
  split; cbn [c_x0 c_v0 c_csx c_csv c_er c_br]; rewrite ?length_insert; try done;
    repeat apply rows_ok_wr; done.
Qed.

Lemma commit_keeps_lengths (st : state) (s : pc_data) :
  rows_ok (N3allocated st) (er st) →
  rows_ok (N3allocated st) (br st) →
  commit_lengths st (commit st s).
Proof.
  intros Her Hbr. unfold commit.
  apply (for_inv (λ _ cs, commit_lengths st cs) 0 (length (pc_particles s))).
  { by split. }
  intros i cs _ Hcs.
  apply (commit_lengths_buffers st _ _ (commit_particle_buffers st (pc_b s) i cs)).
  case_bool_decide; [|done].
  apply (for_inv (λ _ cs', commit_lengths st cs') (3 * i) 3); [done|].
  intros k cs' _. apply commit_component_lengths.
Qed.

Lemma find_new_timestep_length (st : state) (at_ : list float)
    (b : list (list float)) (ps : list particle) :
  length (find_new_timestep st at_ b ps) = length ps.
Proof.
  unfold find_new_timestep. destruct (_ <? _)%float; [|done].
  by rewrite for_each_particle_imap, length_imap.
Qed.

Lemma finish_length (st : state) (s6 : pc_data) (s : pc_state) :
  loop_inv st s6 →
  pc s = node st 7 s6 →
  length (particles (finish st s)) = length (particles st).
Proof.
  intros [Hd _] Hpc.
  destruct (finish_fields st s) as (-> & _).
  rewrite find_new_timestep_length.
  destruct (commit_spec st (pc s)) as [-> _].
  rewrite Hpc.
  rewrite <-(length_fmap Particle.dtexp), node_dtexp, Hd.
  apply length_fmap.
Qed.

Lemma finish_buffers (st : state) (s : pc_state) :
  buffers_ok st →
  loop_buffers (N3allocated st) (pc s) →
  buffers_ok (finish st s) ∧ N3allocated (finish st s) = N3allocated st.
Proof.
  intros (Hat & Hx0 & Hv0 & Ha0 & Hcsx & Hcsv & Hg & Hb & He & Hbr & Her)
         (Hlat & Hlg & Hlb).
  destruct (commit_keeps_lengths st (pc s) Her Hbr) as [H1 H2 H3 H4 H5 H6].
  unfold finish. destruct (advance _ _) as [[dtexp' substep'] t'].
  unfold buffers_ok. cbn [N3allocated at_ x0 v0 a0 csx csv g b e br er].
  rewrite H1, H2, H3, H4. done.
Qed.

Lemma step_buffers (st : state) :
  buffers_ok st →
  ∃ st' : state,
    integrator_ias15_step st = Some (st', 1%Z)
    ∧ buffers_ok st'
    ∧ 3 * length (particles st') ≤ N3allocated st'
    ∧ length (particles st') = length (particles st).
Proof.
  intros Hok.
  destruct (prepare_buffers st Hok) as [Hok1 HN].
  destruct (step_shape_with st (loop_buffers (N3allocated (prepare st))))
    as (s6 & s & _ & Hs & Hinv & Hpc & _ & _ & Hstep).
  { destruct Hok1 as (Hat & _ & _ & _ & _ & _ & Hg & Hb & _). by split. }
  { intros s H. exact H. }
  { intros n s. apply node_buffers. }
  exists (finish (prepare st) s). split; [done|].
  destruct (finish_buffers (prepare st) s Hok1 Hs) as [Hok' HN'].
  pose proof (finish_length (prepare st) s6 s Hinv Hpc) as Hlen.
  destruct (prepare_fields st) as (Hps & _).
  rewrite Hps in Hlen. split; [done|]. rewrite Hlen, HN'. done.
Qed.

(** X1: the buffers of the integrator are allocated before the first step
    and stay allocated: after every step each of them holds at least
    [N3allocated >= 3 N] doubles, and the step neither adds nor removes a
    particle. *)
Theorem buffers_stay_allocated (st : state) :
  buffers_ok st →
  ∃ st' : state,
    integrator_ias15_step st = Some (st', 1%Z)
    ∧ buffers_ok st'
    ∧ 3 * length (particles st') ≤ N3allocated st'
    ∧ length (particles st') = length (particles st).
Proof. apply step_buffers. Qed.

Lemma initial_buffers (ps : list particle) (epsilon min_dt max_dt : float) :
  buffers_ok (configure (initial ps) epsilon min_dt max_dt).
Proof.
  unfold buffers_ok, rows_ok. simpl.
  repeat split; try lia;
    intros l Hl; do 7 (destruct l as [|l]; [simpl; lia|]); lia.
Qed.

End Allocation.

Ltac read_cell n :=
  repeat (rewrite rd_wr_ne by (left; lia));
  rewrite (rd_wr_rows n) by (try lia; repeat apply rows_ok_wr; assumption).

(** ** The warm start *)

Section WarmStart.

Import IAS15 Particle.
Context {env : Collaborators}.

Lemma warm_start_values (n : nat) (ps : list particle) (dt : float)
    (br e b : list (list float)) :
  rows_ok n e → rows_ok n b → 3 * length ps ≤ n →
  ∀ k j, k < 3 * length ps → j < 7 →
    rd (warm_start ps dt br e b).2 j k = 0%float
    ∧ rd (warm_start ps dt br e b).1 j k
      = if isnormal (dtdone ps.[k / 3])
        then extrapolated (dt / dtdone ps.[k / 3]) br j k
        else 0%float.
Proof.
  intros He Hb Hn.
  set (I := λ (m : nat) (eb : list (list float) * list (list float)),
    rows_ok n eb.1 ∧ rows_ok n eb.2
    ∧ ∀ k j, k < m → j < 7 →
        rd eb.2 j k = 0%float
        ∧ rd eb.1 j k = if isnormal (dtdone ps.[k / 3])
                        then extrapolated (dt / dtdone ps.[k / 3]) br j k
                        else 0%float).
  assert (I (0 + 3 * length ps) (warm_start ps dt br e b)) as (_ & _ & Hall).
  { unfold warm_start. apply (for_inv I 0 (3 * length ps)).
    { split; [done|]. split; [done|]. intros k j Hk. exfalso. lia. }
    intros m [e1 b1] [_ Hm] (He1 & Hb1 & Hdone). cbn [fst snd] in *.
    assert (m < n) as Hmn by lia.
    unfold I, warm_start_k.
    destruct (isnormal (dtdone ps.[m / 3])) eqn:Hnormal; cbv zeta; cbn [fst snd].
    - split; [repeat apply rows_ok_wr; done|]. split; [repeat apply rows_ok_wr; done|].
      intros k j Hk Hj. destruct (decide (k = m)) as [->|Hne].
      + rewrite Hnormal. unfold extrapolated.
        do 7 (destruct j as [|j]; [split; read_cell n; reflexivity|]). lia.
      + rewrite !rd_wr_other by done. apply Hdone; lia.
    - split; [repeat apply rows_ok_wr; done|]. split; [repeat apply rows_ok_wr; done|].
      intros k j Hk Hj. destruct (decide (k = m)) as [->|Hne].
      + rewrite Hnormal.
        do 7 (destruct j as [|j]; [split; read_cell n; reflexivity|]). lia.
      + rewrite !rd_wr_other by done. apply Hdone; lia. }
  intros k j Hk Hj. apply Hall; [lia|done].
Qed.

Lemma g_from_zero_b (n N3 : nat) (b g : list (list float)) :
  rows_ok n g → N3 ≤ n →
  (∀ k j, k < N3 → j < 7 → rd b j k = 0%float) →
  ∀ k j, k < N3 → j < 7 → rd (g_from_b N3 b g) j k = 0%float.
Proof.
  intros Hg Hn Hb.
  assert (rows_ok n (g_from_b N3 b g)
          ∧ ∀ k j, k < 0 + N3 → j < 7 → rd (g_from_b N3 b g) j k = 0%float)
    as [_ Hall].
  { unfold g_from_b.
    apply (for_inv (λ m acc, rows_ok n acc
                             ∧ ∀ k j, k < m → j < 7 → rd acc j k = 0%float) 0 N3).
    { split; [done|]. intros k j Hk. exfalso. lia. }
    intros m acc [_ Hm] [Hacc Hdone]. simpl in Hm.
    unfold g_from_b_k. cbv zeta.
    split; [repeat apply rows_ok_wr; done|].
    intros k j Hk Hj. destruct (decide (k = m)) as [->|Hne].
    - rewrite !(Hb m) by lia.
      do 7 (destruct j as [|j]; [read_cell n; reflexivity|]). lia.
    - rewrite !rd_wr_other by done. apply Hdone; lia. }
  intros k j Hk Hj. apply Hall; [lia|done].
Qed.

Lemma prepare_parts (st : state) :
  let a := allocate st in
  let dt1 := chain_dt (integrator_max_dt a) (dtexp_substep a) (IAS15.dtexp a) in
  e (prepare st) = (warm_start (particles a) dt1 (br a) (e a) (b a)).1
  ∧ b (prepare st) = (warm_start (particles a) dt1 (br a) (e a) (b a)).2
  ∧ g (prepare st) = g_from_b (3 * length (particles a)) (b (prepare st)) (g a)
  ∧ dt (prepare st) = dt1
  ∧ br (prepare st) = br a ∧ er (prepare st) = er a
  ∧ csx (prepare st) = csx a ∧ csv (prepare st) = csv a
  ∧ at_ (prepare st) = at_ a
  ∧ x0 (prepare st) = (capture (particles a) (x0 a) (v0 a) (a0 a)).1.1
  ∧ v0 (prepare st) = (capture (particles a) (x0 a) (v0 a) (a0 a)).1.2
  ∧ a0 (prepare st) = (capture (particles a) (x0 a) (v0 a) (a0 a)).2.
Proof.
  cbv zeta. unfold prepare.
  destruct (warm_start _ _ _ _ _) as [e1 b1].
  destruct (capture _ _ _ _) as [[x1 v1] a1]. done.
Qed.

(** X2: when the particle store has outgrown the buffers, the step zeroes
    the compensated sums [csx], [csv] and the coefficients [b], [e], [br],
    [er] of every component, those of the particles already integrated
    included. *)
Theorem growth_resets_all_components (st : state) :
  buffers_ok st →
  N3allocated st < 3 * length (particles st) →
  ∀ k, k < 3 * length (particles st) →
    (csx (allocate st)).[k] = 0%float
    ∧ (csv (allocate st)).[k] = 0%float
    ∧ ∀ j, j < 7 →
        rd (b (allocate st)) j k = 0%float
        ∧ rd (e (allocate st)) j k = 0%float
        ∧ rd (br (allocate st)) j k = 0%float
        ∧ rd (er (allocate st)) j k = 0%float.
Proof.
  intros (_ & _ & _ & _ & _ & _ & _ & [Hb _] & [He _] & [Hbr _] & [Her _]) Hgrow k Hk.
  unfold allocate. rewrite bool_decide_eq_true_2 by done.
  cbn [csx csv b e br er].
  set (N3 := 3 * length (particles st)) in *.
  assert (∀ row, (zero_fill N3 (realloc row N3)).[k] = 0%float) as Hzero.
  { intros row. apply zero_fill_lookup; [done|].
    unfold realloc. by rewrite length_resize. }
  split; [apply Hzero|]. split; [apply Hzero|].
  intros j Hj. unfold rd.
  destruct (for_rows (λ row, zero_fill N3 (realloc row N3)) _ Hb) as [_ ->]; [|done].
  destruct (for_rows (λ row, zero_fill N3 (realloc row N3)) _ He) as [_ ->]; [|done].
  destruct (for_rows (λ row, zero_fill N3 (realloc row N3)) _ Hbr) as [_ ->]; [|done].
  destruct (for_rows (λ row, zero_fill N3 (realloc row N3)) _ Her) as [_ ->]; [|done].
  rewrite !Hzero. done.
Qed.

(** X3: whatever the previous step left, the predictor corrector loop of
    every step starts from [b = 0] and [g = 0] in every component. *)
Theorem loop_starts_from_zero (st : state) :
  buffers_ok st →
  ∀ k j, k < 3 * length (particles st) → j < 7 →
    rd (b (prepare st)) j k = 0%float ∧ rd (g (prepare st)) j k = 0%float.
Proof.
  intros Hok.
  destruct (allocate_buffers st Hok)
    as ((_ & _ & _ & _ & _ & _ & Hg & Hb & He & _) & HN & Hps).
  destruct (prepare_parts st) as (_ & Hb1 & Hg1 & _). cbv zeta in Hb1, Hg1.
  assert (∀ k j, k < 3 * length (particles st) → j < 7 →
            rd (b (prepare st)) j k = 0%float) as Hzero.
  { intros k j Hk Hj. rewrite Hb1.
    apply (warm_start_values (N3allocated (allocate st))); try done; rewrite Hps; done. }
  intros k j Hk Hj. split; [by apply Hzero|].
  rewrite Hg1, Hps.
  apply (g_from_zero_b (N3allocated (allocate st))); done.
Qed.

Lemma prepare_extrapolated (st : state) :
  buffers_ok st →
  ∀ i p c j,
    particles st !! i = Some p → c < 3 → j < 7 →
    rd (e (prepare st)) j (3 * i + c)
    = if isnormal (dtdone p)
      then extrapolated (dt (prepare st) / dtdone p) (br (prepare st)) j (3 * i + c)
      else 0%float.
Proof.
  intros Hok i p c j Hp Hc Hj.
  destruct (allocate_buffers st Hok)
    as ((_ & _ & _ & _ & _ & _ & Hg & Hb & He & _) & HN & Hps).
  destruct (prepare_parts st) as (He1 & _ & _ & Hdt & Hbr & _).
  cbv zeta in He1, Hdt, Hbr. rewrite He1, Hdt, Hbr, Hps.
  pose proof (lookup_lt_Some _ _ _ Hp) as Hi.
  destruct (warm_start_values (N3allocated (allocate st)) (particles st)
              (chain_dt (integrator_max_dt (allocate st))
                 (dtexp_substep (allocate st)) (IAS15.dtexp (allocate st)))
              (br (allocate st)) (e (allocate st)) (b (allocate st)) He Hb HN
              (3 * i + c) j ltac:(lia) Hj) as [_ ->].
  rewrite div3 by done. by rewrite (list_lookup_total_correct _ _ _ Hp).
Qed.

(** X4: the warm start stores in [e[j][k]] the extrapolation of [br] for the
    ratio [dt / dtdone] of the particle the component belongs to, and zero
    when that particle's [dtdone] is not a normal number. *)
Theorem warm_start_extrapolates (st : state) :
  buffers_ok st →
  ∀ i p c j,
    particles st !! i = Some p → c < 3 → j < 7 →
    rd (e (prepare st)) j (3 * i + c)
    = if isnormal (dtdone p)
      then extrapolated (dt (prepare st) / dtdone p) (br (prepare st)) j (3 * i + c)
      else 0%float.
Proof. apply prepare_extrapolated. Qed.

End WarmStart.

(** ** The sub-step hierarchy *)

Section Hierarchy.

Import IAS15 Particle.
Context {env : Collaborators}.

Lemma isnormal_class (v : Z) :
  (-2 ≤ v < 0)%Z → isnormal (double_of_int v) = true.
Proof.
  intros Hv. assert (v = -2 ∨ v = -1)%Z as [-> | ->] by lia; reflexivity.
Qed.

Lemma find_dtexp_min_le (ps : list particle) : (find_dtexp_min ps ≤ 0)%Z.
Proof.
  unfold find_dtexp_min.
  apply (for_inv (λ _ acc, (acc ≤ 0)%Z) 0 (length ps)); [done|].
  intros i acc _ Hacc. destruct (_ <? _)%Z eqn:Hlt; [|done].
  destruct (isnormal _); [|done]. simpl. apply Z.ltb_lt in Hlt. lia.
Qed.

Lemma find_dtexp_min_spec (ps : list particle) :
  (∀ p, p ∈ ps → (-2 ≤ Particle.dtexp p ≤ 0)%Z) →
  (∀ p, p ∈ ps → (find_dtexp_min ps ≤ Particle.dtexp p)%Z)
  ∧ (find_dtexp_min ps = 0%Z ∨ ∃ p, p ∈ ps ∧ Particle.dtexp p = find_dtexp_min ps).
Proof.
  intros Hrange.
  set (I := λ (m : nat) (acc : Z),
    (∀ i p, i < m → ps !! i = Some p → (acc ≤ Particle.dtexp p)%Z)
    ∧ (acc = 0%Z ∨ ∃ p, p ∈ ps ∧ Particle.dtexp p = acc)).
  assert (I (0 + length ps) (find_dtexp_min ps)) as [Hle Hattained].
  { unfold find_dtexp_min. apply (for_inv I 0 (length ps)).
    { split; [|by left]. intros i p Hi. exfalso. lia. }
    intros m acc [_ Hm] [Hle Hatt]. simpl in Hm.
    destruct (lookup_lt_is_Some_2 ps m Hm) as [q Hq].
    rewrite (list_lookup_total_correct ps m q Hq).
    assert (q ∈ ps) as Hin by (apply list_elem_of_lookup; eauto).
    pose proof (Hrange q Hin) as Hq_range.
    destruct (Z.ltb_spec (Particle.dtexp q) acc) as [Hlt|Hge]; simpl.
    - assert (acc ≤ 0)%Z as Hacc.
      { destruct Hatt as [->|(p & Hp & <-)]; [done|]. apply (Hrange p Hp). }
      rewrite isnormal_class by lia. split.
      + intros i p Hi Hp. destruct (decide (i = m)) as [->|Hne].
        * assert (p = q) as -> by congruence. lia.
        * specialize (Hle i p ltac:(lia) Hp). lia.
      + right. by exists q.
    - split; [|done]. intros i p Hi Hp. destruct (decide (i = m)) as [->|Hne].
      + assert (p = q) as -> by congruence. lia.
      + apply (Hle i p); [lia|done]. }
  split; [|done].
  intros p Hp. apply list_elem_of_lookup in Hp as [i Hi].
  apply (Hle i p); [|done]. apply lookup_lt_Some in Hi. simpl. done.
Qed.

(** X5: [dtexp_min] is the smallest class among the particles, or [0] when
    no particle has a negative class (classes in their range [-2, 0]). *)
Theorem dtexp_min_is_minimum (ps : list particle) :
  (∀ p, p ∈ ps → (-2 ≤ Particle.dtexp p ≤ 0)%Z) →
  (∀ p, p ∈ ps → (find_dtexp_min ps ≤ Particle.dtexp p)%Z)
  ∧ (find_dtexp_min ps = 0%Z ∨ ∃ p, p ∈ ps ∧ Particle.dtexp p = find_dtexp_min ps).
Proof. apply find_dtexp_min_spec. Qed.

Lemma finish_hierarchy (st : state) (s : pc_state) :
  let '(dtexp', substep', t') :=
    advance st (find_dtexp_min (particles (finish st s))) in
  IAS15.dtexp (finish st s) = dtexp'
  ∧ dtexp_substep (finish st s) = substep'
  ∧ t (finish st s) = t'
  ∧ dtexp_min (finish st s) = find_dtexp_min (particles (finish st s)).
Proof.
  destruct (finish_fields st s) as (-> & _).
  unfold finish. destruct (advance _ _) as [[dtexp' substep'] t'].
  done.
Qed.

(** X6: the global class never becomes positive: after a step it is
    [dtexp_min], or one more than before when a cycle of eight sub-steps has
    just been closed below the top level. *)
Theorem global_class_never_positive (st : state) :
  ∃ st' : state,
    integrator_ias15_step st = Some (st', 1%Z)
    ∧ (IAS15.dtexp st' ≤ 0)%Z
    ∧ (dtexp_min st' ≤ 0)%Z
    ∧ (IAS15.dtexp st' = dtexp_min st'
       ∨ (IAS15.dtexp st' = IAS15.dtexp st + 1
          ∧ dtexp_substep st (- IAS15.dtexp st) + 1 = 8)%Z).
Proof.
  destruct (step_shape st) as (s6 & s & _ & _ & Hstep).
  exists (finish (prepare st) s). split; [done|].
  pose proof (finish_hierarchy (prepare st) s) as Hh.
  pose proof (find_dtexp_min_le (particles (finish (prepare st) s))) as Hmin.
  destruct (prepare_fields st) as (_ & _ & Hdtexp & Hsub & _).
  unfold advance in Hh. rewrite Hdtexp, Hsub in Hh.
  unfold substep_set in Hh at 1. rewrite bool_decide_eq_true_2 in Hh by done.
  destruct (Z.eqb_spec (dtexp_substep st (- IAS15.dtexp st) + 1) 8) as [Heq|Hne].
  - destruct (Z.ltb_spec 0 (IAS15.dtexp st + 1)) as [Hpos|Hneg];
      destruct Hh as (-> & _ & _ & ->).
    + split; [done|]. split; [done|]. by left.
    + split; [done|]. split; [done|]. by right.
  - destruct Hh as (-> & _ & _ & ->). split; [done|]. split; [done|]. by left.
Qed.

Lemma new_dtexp_range (st : state) (at_ : list float) (b : list (list float))
    (i : nat) :
  (-2 ≤ new_dtexp st at_ b i ≤ 0)%Z.
Proof. rewrite new_dtexp_clamped. cbv zeta. destruct (isnormal _); lia. Qed.

(** The class of particle [i] after a step. *)
Lemma step_particle_dtexp (st : state) (s6 : pc_data) (s : pc_state) (i : nat)
    (p : particle) :
  loop_inv (prepare st) s6 →
  pc s = node (prepare st) 7 s6 →
  particles st !! i = Some p →
  ∃ p', particles (finish (prepare st) s) !! i = Some p'
        ∧ Particle.dtexp p'
          = if (0 <? integrator_epsilon st)%float
               && bool_decide (Particle.dtexp p = IAS15.dtexp st)
            then new_dtexp (prepare st) (at_ (finish (prepare st) s))
                   (b (finish (prepare st) s)) i
            else Particle.dtexp p.
Proof.
  intros Hinv Hpc Hp.
  destruct (prepare_fields st) as (_ & _ & Hdtexp & _).
  destruct (step_particle st s6 s i p Hinv Hpc Hp)
    as (p6 & a & pc' & p' & Hp6 & Hd6 & Hcommitted & Hp' & Hctl).
  exists p'. split; [done|].
  destruct Hcommitted as (Hd & _). cbn [Particle.dtexp set_acc] in Hd.
  rewrite at_node_dtexp, Hd6 in Hd.
  destruct (0 <? integrator_epsilon st)%float; subst p'; simpl; [|done].
  unfold control_particle. rewrite Hd, Hdtexp.
  case_bool_decide as Hne; case_bool_decide as Heq; done.
Qed.

Lemma exit_classes_in_range (st : state) (s6 : pc_data) (s : pc_state) :
  loop_inv (prepare st) s6 →
  pc s = node (prepare st) 7 s6 →
  (∀ p, p ∈ particles st → (-2 ≤ Particle.dtexp p ≤ 0)%Z) →
  ∀ p', p' ∈ particles (finish (prepare st) s) → (-2 ≤ Particle.dtexp p' ≤ 0)%Z.
Proof.
  intros Hinv Hpc Hrange p' Hin.
  apply list_elem_of_lookup in Hin as [i Hi].
  pose proof (lookup_lt_Some _ _ _ Hi) as Hlt.
  rewrite (finish_length (prepare st) s6 s Hinv Hpc) in Hlt.
  destruct (prepare_fields st) as (Hps & _). rewrite Hps in Hlt.
  destruct (lookup_lt_is_Some_2 _ _ Hlt) as [p Hp].
  destruct (step_particle_dtexp st s6 s i p Hinv Hpc Hp) as (q & Hq & Hd).
  assert (q = p') as -> by congruence.
  rewrite Hd. destruct (_ && _).
  - apply new_dtexp_range.
  - apply Hrange, list_elem_of_lookup. eauto.
Qed.

Lemma step_hierarchy (st : state) :
  (-2 ≤ IAS15.dtexp st ≤ 0)%Z →
  (∀ p, p ∈ particles st → (-2 ≤ Particle.dtexp p ≤ 0)%Z) →
  (∀ i, (0 ≤ dtexp_substep st i ≤ 7)%Z) →
  ∃ st' : state,
    integrator_ias15_step st = Some (st', 1%Z)
    ∧ (-2 ≤ IAS15.dtexp st' ≤ 0)%Z
    ∧ (-2 ≤ dtexp_min st' ≤ 0)%Z
    ∧ (∀ p, p ∈ particles st' → (-2 ≤ Particle.dtexp p ≤ 0)%Z)
    ∧ (∀ i, (0 ≤ dtexp_substep st' i ≤ 7)%Z).
Proof.
  intros Hglobal Hrange Hsubstep.
  destruct (step_shape st) as (s6 & s & Hinv & Hpc & Hstep).
  exists (finish (prepare st) s). split; [done|].
  pose proof (exit_classes_in_range st s6 s Hinv Hpc Hrange) as Hexit.
  pose proof (finish_hierarchy (prepare st) s) as Hh.
  pose proof (find_dtexp_min_le (particles (finish (prepare st) s))) as Hmin.
  assert (-2 ≤ find_dtexp_min (particles (finish (prepare st) s)))%Z as Hmin2.
  { destruct (find_dtexp_min_spec _ Hexit) as [_ [->|(p & Hp & <-)]]; [lia|].
    apply (Hexit p Hp). }
  destruct (prepare_fields st) as (_ & _ & Hdtexp & Hsub & _).
  unfold advance in Hh. rewrite Hdtexp, Hsub in Hh.
  unfold substep_set in Hh at 1. rewrite bool_decide_eq_true_2 in Hh by done.
  pose proof (Hsubstep (- IAS15.dtexp st)%Z) as Hcur.
  assert (∀ v, (0 ≤ v ≤ 7)%Z →
            ∀ i, (0 ≤ substep_set (dtexp_substep st) (- IAS15.dtexp st) v i ≤ 7)%Z)
    as Hset.
  { intros v Hv i. unfold substep_set. case_bool_decide; [done|apply Hsubstep]. }
  destruct (Z.eqb_spec (dtexp_substep st (- IAS15.dtexp st) + 1) 8) as [Heq|Hne].
  - assert (∀ i, (0 ≤ substep_set
                        (substep_set (dtexp_substep st) (- IAS15.dtexp st)
                           (dtexp_substep st (- IAS15.dtexp st) + 1))
                        (- IAS15.dtexp st) 0 i ≤ 7)%Z) as Hreset.
    { intros i. unfold substep_set.
      repeat case_bool_decide; first [lia | apply Hsubstep]. }
    destruct (Z.ltb_spec 0 (IAS15.dtexp st + 1)) as [Hpos|Hneg];
      destruct Hh as (-> & -> & _ & ->);
      (split; [lia|]); (split; [lia|]); (split; [exact Hexit|]); apply Hreset.
  - destruct Hh as (-> & -> & _ & ->).
    split; [lia|]. split; [lia|]. split; [exact Hexit|]. apply Hset. lia.
Qed.

(** X7: the hierarchy stays within its bounds.  When the global class and
    the class of every particle are in [-2, 0] and every sub-step index is in
    [0, 7] before a step, the same holds after it, and for [dtexp_min] too. *)
Theorem hierarchy_stays_in_bounds (st : state) :
  (-2 ≤ IAS15.dtexp st ≤ 0)%Z →
  (∀ p, p ∈ particles st → (-2 ≤ Particle.dtexp p ≤ 0)%Z) →
  (∀ i, (0 ≤ dtexp_substep st i ≤ 7)%Z) →
  ∃ st' : state,
    integrator_ias15_step st = Some (st', 1%Z)
    ∧ (-2 ≤ IAS15.dtexp st' ≤ 0)%Z
    ∧ (-2 ≤ dtexp_min st' ≤ 0)%Z
    ∧ (∀ p, p ∈ particles st' → (-2 ≤ Particle.dtexp p ≤ 0)%Z)
    ∧ (∀ i, (0 ≤ dtexp_substep st' i ≤ 7)%Z).
Proof. apply step_hierarchy. Qed.

(** X8: the step's [dt] is the length of the current chain of sub-intervals,
    [integrator_max_dt] at the top level.  The time advances by [dt], except
    when the step closes a cycle of eight sub-steps below the top level:
    then the length of the enclosing chain is subtracted again. *)
Theorem time_advances_by_dt (st : state) :
  ∃ st' : state,
    integrator_ias15_step st = Some (st', 1%Z)
    ∧ dt st' = chain_dt (integrator_max_dt st) (dtexp_substep st) (IAS15.dtexp st)
    ∧ (IAS15.dtexp st = 0%Z → dt st' = integrator_max_dt st)
    ∧ t st'
      = (if (dtexp_substep st (- IAS15.dtexp st) + 1 =? 8)%Z
            && (IAS15.dtexp st + 1 <=? 0)%Z
         then (t st + dt st'
               - chain_dt (integrator_max_dt st) (dtexp_substep st') (IAS15.dtexp st'))%float
         else (t st + dt st')%float).
Proof.
  destruct (step_shape st) as (s6 & s & _ & _ & Hstep).
  exists (finish (prepare st) s). split; [done|].
  pose proof (finish_hierarchy (prepare st) s) as Hh.
  destruct (prepare_fields st) as (_ & Ht & Hdtexp & Hsub & _ & Hmax & _ & Hdt).
  destruct (finish_fields (prepare st) s) as (_ & _ & _ & _ & _ & Hfdt & _).
  rewrite Hfdt. split; [done|]. split.
  { intros H0. rewrite Hdt, H0. reflexivity. }
  unfold advance in Hh. rewrite Hdtexp, Hsub, Ht, Hmax in Hh.
  unfold substep_set in Hh at 1. rewrite bool_decide_eq_true_2 in Hh by done.
  destruct (Z.eqb_spec (dtexp_substep st (- IAS15.dtexp st) + 1) 8) as [Heq|Hne].
  - destruct (Z.ltb_spec 0 (IAS15.dtexp st + 1)) as [Hpos|Hneg];
      destruct Hh as (-> & -> & -> & _).
    + rewrite (proj2 (Z.leb_gt _ _)) by lia. done.
    + rewrite (proj2 (Z.leb_le _ _)) by lia. done.
  - destruct Hh as (_ & _ & -> & _). done.
Qed.

End Hierarchy.

(** ** What the commit computes *)

Section Commit.

Import IAS15 Particle.
Context {env : Collaborators}.

Lemma cells_eq_refl (cs : commit_state) (k : nat) : cells_eq cs cs k.
Proof. by repeat split. Qed.

Lemma cells_eq_trans (cs1 cs2 cs3 : commit_state) (k : nat) :
  cells_eq cs1 cs2 k → cells_eq cs2 cs3 k → cells_eq cs1 cs3 k.
Proof.
  intros (H1 & H2 & H3 & H4 & H5) (G1 & G2 & G3 & G4 & G5).
  split; [congruence|]. split; [congruence|]. split; [congruence|].
  split; [congruence|]. intros j. destruct (H5 j), (G5 j). split; congruence.
Qed.

Lemma cell_committed_from (st : state) (b : list (list float))
    (cs0 cs cs' : commit_state) (k : nat) :
  cells_eq cs cs0 k → cell_committed st b cs cs' k → cell_committed st b cs0 cs' k.
Proof.
  intros (H1 & H2 & H3 & H4 & _). unfold cell_committed.
  rewrite H1, H2, H3, H4. done.
Qed.

Lemma cell_committed_to (st : state) (b : list (list float))
    (cs cs1 cs2 : commit_state) (k : nat) :
  cells_eq cs2 cs1 k → cell_committed st b cs cs1 k → cell_committed st b cs cs2 k.
Proof.
  intros (H1 & H2 & H3 & H4 & H5). unfold cell_committed.
  rewrite H1, H2, H3, H4. intros (G1 & G2 & G3 & G4 & G5).
  do 4 (split; [done|]). intros j Hj. destruct (H5 j) as [-> ->]. by apply G5.
Qed.

Lemma commit_component_other (st : state) (b : list (list float)) (k k' : nat)
    (cs : commit_state) :
  k ≠ k' → cells_eq (commit_component st b k cs) cs k'.
Proof.
  intros Hne. unfold commit_component, cells_eq.
  cbn [c_x0 c_v0 c_csx c_csv c_er c_br].
  rewrite !list_lookup_total_insert_ne by done.
  do 4 (split; [done|]). intros j. by rewrite !rd_wr_other.
Qed.

Lemma commit_component_same (st : state) (b : list (list float)) (k : nat)
    (cs : commit_state) :
  commit_lengths st cs → buffers_ok st → k < N3allocated st →
  cell_committed st b cs (commit_component st b k cs) k.
Proof.
  intros [H1 H2 H3 H4 Her Hbr] (_ & Hx0 & Hv0 & _ & Hcsx & Hcsv & _) Hk.
  unfold commit_component, cell_committed, position_increment, velocity_increment.
  cbn [c_x0 c_v0 c_csx c_csv c_er c_br]. cbv zeta.
  rewrite !list_lookup_total_insert_eq by (rewrite ?length_insert; lia).
  do 4 (split; [done|]).
  intros j Hj.
  do 7 (destruct j as [|j];
        [split; read_cell (N3allocated st); reflexivity|]).
  lia.
Qed.

(** The loop over the three components of particle [i]. *)
Lemma commit_components_values (st : state) (b : list (list float)) (i : nat)
    (cs : commit_state) :
  commit_lengths st cs → buffers_ok st → 3 * i + 3 ≤ N3allocated st →
  let cs' := for_ (3 * i) 3 (commit_component st b) cs in
  commit_lengths st cs'
  ∧ c_particles cs' = c_particles cs
  ∧ ∀ k, if decide (3 * i ≤ k < 3 * i + 3)
         then cell_committed st b cs cs' k
         else cells_eq cs' cs k.
Proof.
  intros Hlen Hok Hi. cbv zeta.
  set (I := λ (m : nat) (acc : commit_state),
    commit_lengths st acc
    ∧ c_particles acc = c_particles cs
    ∧ ∀ k, if decide (3 * i ≤ k < m)
           then cell_committed st b cs acc k
           else cells_eq acc cs k).
  apply (for_inv I (3 * i) 3).
  { split; [done|]. split; [done|]. intros k. case_decide; [lia|].
    apply cells_eq_refl. }
  intros m acc Hm (Hl & Hp & Hcells).
  split; [by apply commit_component_lengths|]. split; [done|].
  intros k. specialize (Hcells k).
  destruct (decide (k = m)) as [->|Hne].
  - rewrite decide_True by lia. rewrite decide_False in Hcells by lia.
    apply (cell_committed_from st b cs acc); [done|].
    apply commit_component_same; [done|done|lia].
  - pose proof (commit_component_other st b m k acc ltac:(done)) as Hother.
    destruct (decide (3 * i ≤ k < S m)) as [Hin|Hout].
    + rewrite decide_True in Hcells by lia.
      by apply (cell_committed_to st b cs acc).
    + rewrite decide_False in Hcells by lia.
      by apply (cells_eq_trans _ acc).
Qed.

Lemma commit_particle_store (st : state) (b : list (list float)) (m : nat)
    (cs : commit_state) :
  length (c_particles (commit_particle st b m cs)) = length (c_particles cs)
  ∧ ∀ i, i ≠ m →
      c_particles (commit_particle st b m cs) !! i = c_particles cs !! i.
Proof.
  unfold commit_particle. case_bool_decide as Hclass.
  - pose proof (commit_components_particles st b (3 * m) 3 cs) as Hpart.
    revert Hpart. generalize (for_ (3 * m) 3 (commit_component st b) cs).
    intros cs1 Hpart. cbn [c_particles set_particles].
    rewrite !length_insert, Hpart. split; [done|].
    intros i Hi. by rewrite !list_lookup_insert_ne.
  - cbn [c_particles set_particles]. rewrite !length_insert. split; [done|].
    intros i Hi. by rewrite !list_lookup_insert_ne.
Qed.

Lemma cells_eq_buffers (cs cs' cs2 : commit_state) (k : nat) :
  same_buffers cs' cs → cells_eq cs cs2 k → cells_eq cs' cs2 k.
Proof.
  intros (E1 & E2 & E3 & E4 & E5 & E6). unfold cells_eq.
  by rewrite E1, E2, E3, E4, E5, E6.
Qed.

Lemma cell_committed_buffers (st : state) (b : list (list float))
    (cs0 cs cs' : commit_state) (k : nat) :
  same_buffers cs' cs → cell_committed st b cs0 cs k → cell_committed st b cs0 cs' k.
Proof.
  intros (E1 & E2 & E3 & E4 & E5 & E6). unfold cell_committed.
  by rewrite E1, E2, E3, E4, E5, E6.
Qed.

Lemma div3_range (m k : nat) : 3 * m ≤ k < 3 * m + 3 → k / 3 = m.
Proof.
  intros Hk. replace k with (3 * m + (k - 3 * m)) by lia. apply div3. lia.
Qed.

Lemma div3_below (m k : nat) : k < 3 * m → k / 3 < m.
Proof. intros Hk. apply Nat.Div0.div_lt_upper_bound. lia. Qed.

(** The commit, component by component: the components of the particles of
    the current class are committed, the others are left as they were. *)
Lemma commit_values (st : state) (s : pc_data) :
  buffers_ok st →
  3 * length (pc_particles s) ≤ N3allocated st →
  let cs0 := {| c_particles := pc_particles s; c_x0 := x0 st; c_v0 := v0 st;
                c_csx := csx st; c_csv := csv st; c_er := er st; c_br := br st |} in
  ∀ k, k < 3 * length (pc_particles s) →
    if decide (Particle.dtexp (pc_particles s).[k / 3] = IAS15.dtexp st)
    then cell_committed st (pc_b s) cs0 (commit st s) k
    else cells_eq (commit st s) cs0 k.
Proof.
  intros Hok HN. cbv zeta.
  set (psL := pc_particles s).
  set (cs0 := {| c_particles := psL; c_x0 := x0 st; c_v0 := v0 st;
                 c_csx := csx st; c_csv := csv st; c_er := er st; c_br := br st |}).
  set (J := λ (m : nat) (acc : commit_state),
    commit_lengths st acc
    ∧ length (c_particles acc) = length psL
    ∧ (∀ i, m ≤ i → c_particles acc !! i = psL !! i)
    ∧ ∀ k, if decide (k < 3 * m)
           then if decide (Particle.dtexp psL.[k / 3] = IAS15.dtexp st)
                then cell_committed st (pc_b s) cs0 acc k
                else cells_eq acc cs0 k
           else cells_eq acc cs0 k).
  assert (J (0 + length psL) (commit st s)) as (_ & _ & _ & Hall).
  { unfold commit. fold psL cs0. apply (for_inv J 0 (length psL)).
    { destruct Hok as (_ & _ & _ & _ & _ & _ & _ & _ & _ & Hbr & Her).
      split; [by split|]. split; [done|]. split; [done|].
      intros k. rewrite decide_False by lia. apply cells_eq_refl. }
    intros m acc [_ Hm] (Hlen & Hpl & Hrest & Hcells). simpl in Hm.
    destruct (lookup_lt_is_Some_2 psL m Hm) as [p Hp].
    assert ((c_particles acc).[m] = psL.[m]) as Hpm.
    { rewrite (list_lookup_total_correct psL m p Hp).
      apply list_lookup_total_correct. by rewrite Hrest. }
    pose proof (commit_particle_buffers st (pc_b s) m acc) as Hbuf.
    destruct (commit_particle_store st (pc_b s) m acc) as [Hl' Hps'].
    rewrite Hpm in Hbuf.
    assert (3 * m + 3 ≤ N3allocated st) as HmN by (unfold psL in Hm; lia).
    destruct (commit_components_values st (pc_b s) m acc Hlen Hok HmN)
      as (Hlen1 & _ & Hinner).
    split.
    { apply (commit_lengths_buffers st _ _ Hbuf). by case_bool_decide. }
    split; [lia|].
    split.
    { intros i Hi. rewrite Hps' by lia. apply Hrest. lia. }
    intros k. specialize (Hcells k). specialize (Hinner k).
    destruct (decide (3 * m ≤ k < 3 * m + 3)) as [Hin|Hout].
    - rewrite decide_True by lia. rewrite decide_False in Hcells by lia.
      rewrite (div3_range m k Hin).
      destruct (decide (Particle.dtexp psL.[m] = IAS15.dtexp st)) as [Hc|Hc].
      + rewrite bool_decide_eq_true_2 in Hbuf by done.
        apply (cell_committed_buffers st (pc_b s) cs0 _ _ k Hbuf).
        by apply (cell_committed_from st (pc_b s) cs0 acc).
      + rewrite bool_decide_eq_false_2 in Hbuf by done.
        by apply (cells_eq_buffers _ _ _ _ Hbuf).
    - assert (cells_eq (commit_particle st (pc_b s) m acc) acc k) as Hsame.
      { apply (cells_eq_buffers _ _ _ _ Hbuf).
        case_bool_decide; [exact Hinner|apply cells_eq_refl]. }
      destruct (decide (k < 3 * S m)) as [Hlt|Hge].
      + rewrite decide_True in Hcells by lia.
        destruct (decide (Particle.dtexp psL.[k / 3] = IAS15.dtexp st)).
        * by apply (cell_committed_to st (pc_b s) cs0 acc).
        * by apply (cells_eq_trans _ acc).
      + rewrite decide_False in Hcells by lia.
        by apply (cells_eq_trans _ acc). }
  intros k Hk. specialize (Hall k). rewrite decide_True in Hall by (simpl; lia).
  exact Hall.
Qed.

Lemma finish_buffers_fields (st : state) (s : pc_state) :
  csx (finish st s) = c_csx (commit st (pc s))
  ∧ csv (finish st s) = c_csv (commit st (pc s))
  ∧ er (finish st s) = c_er (commit st (pc s))
  ∧ br (finish st s) = c_br (commit st (pc s))
  ∧ e (finish st s) = e st
  ∧ a0 (finish st s) = a0 st.
Proof.
  unfold finish. destruct (advance _ _) as [[dtexp' substep'] t']. done.
Qed.

(** The class of particle [i] when the commit reads it, and the size of the
    store then. *)
Lemma loop_store (st : state) (s6 : pc_data) (s : pc_state) :
  loop_inv st s6 →
  pc s = node st 7 s6 →
  length (pc_particles (pc s)) = length (particles st)
  ∧ ∀ i p, particles st !! i = Some p →
      Particle.dtexp (pc_particles (pc s)).[i] = Particle.dtexp p.
Proof.
  intros Hinv Hpc. split.
  - destruct Hinv as [Hd _]. rewrite Hpc.
    rewrite <-(length_fmap Particle.dtexp), node_dtexp, Hd. apply length_fmap.
  - intros i p Hp.
    destruct (loop_particle st s6 i p Hinv Hp) as (p6 & a & _ & Hd6 & Hnode).
    rewrite Hpc, (list_lookup_total_correct _ _ _ Hnode).
    cbn [Particle.dtexp set_acc]. by rewrite at_node_dtexp.
Qed.

Lemma step_cells (st : state) :
  buffers_ok st →
  ∃ st' : state,
    integrator_ias15_step st = Some (st', 1%Z)
    ∧ ∀ i p c,
        particles st !! i = Some p → c < 3 →
        let k := 3 * i + c in
        let st1 := prepare st in
        if decide (Particle.dtexp p = IAS15.dtexp st) then
          let sx := ((csx st1).[k]
                     + position_increment st1 (b st') k (v0 st1).[k])%float in
          let sv := ((csv st1).[k] + velocity_increment st1 (b st') k)%float in
          (x0 st').[k] = ((x0 st1).[k] + sx)%float
          ∧ (csx st').[k] = (sx + ((x0 st1).[k] - (x0 st').[k]))%float
          ∧ (v0 st').[k] = ((v0 st1).[k] + sv)%float
          ∧ (csv st').[k] = (sv + ((v0 st1).[k] - (v0 st').[k]))%float
          ∧ ∀ j, j < 7 →
              rd (er st') j k = rd (e st') j k ∧ rd (br st') j k = rd (b st') j k
        else
          (x0 st').[k] = (x0 st1).[k]
          ∧ (v0 st').[k] = (v0 st1).[k]
          ∧ (csx st').[k] = (csx st1).[k]
          ∧ (csv st').[k] = (csv st1).[k]
          ∧ ∀ j, rd (er st') j k = rd (er st1) j k
                 ∧ rd (br st') j k = rd (br st1) j k.
Proof.
  intros Hok.
  destruct (prepare_buffers st Hok) as [Hok1 HN].
  destruct (step_shape st) as (s6 & s & Hinv & Hpc & Hstep).
  exists (finish (prepare st) s). split; [done|].
  intros i p c Hp Hc. cbv zeta.
  destruct (prepare_fields st) as (Hps & _ & Hdtexp & _).
  destruct (loop_store (prepare st) s6 s Hinv Hpc) as [Hlen Hclass].
  rewrite Hps in Hlen, Hclass.
  pose proof (lookup_lt_Some _ _ _ Hp) as Hi.
  pose proof (commit_values (prepare st) (pc s) Hok1 ltac:(lia) (3 * i + c)
                ltac:(lia)) as Hcell.
  rewrite div3, (Hclass i p Hp), Hdtexp in Hcell by done.
  destruct (finish_fields (prepare st) s) as (_ & -> & -> & _ & -> & _).
  destruct (finish_buffers_fields (prepare st) s) as (-> & -> & -> & -> & -> & _).
  destruct (decide (Particle.dtexp p = IAS15.dtexp st)); exact Hcell.
Qed.

(** X9: what a step does to the buffers, component by component.  For a
    particle of the current class the two compensated sums are taken:
    [x0] becomes [x0 + sx] with [sx = csx + position_increment], [csx] keeps
    what the addition lost, likewise [v0] and [csv], and [e], [b] are saved
    in [er], [br].  For a particle of another class [x0], [v0], [csx], [csv],
    [er] and [br] are left as they were. *)
Theorem commit_advances_current_class (st : state) :
  buffers_ok st →
  ∃ st' : state,
    integrator_ias15_step st = Some (st', 1%Z)
    ∧ ∀ i p c,
        particles st !! i = Some p → c < 3 →
        let k := 3 * i + c in
        let st1 := prepare st in
        if decide (Particle.dtexp p = IAS15.dtexp st) then
          let sx := ((csx st1).[k]
                     + position_increment st1 (b st') k (v0 st1).[k])%float in
          let sv := ((csv st1).[k] + velocity_increment st1 (b st') k)%float in
          (x0 st').[k] = ((x0 st1).[k] + sx)%float
          ∧ (csx st').[k] = (sx + ((x0 st1).[k] - (x0 st').[k]))%float
          ∧ (v0 st').[k] = ((v0 st1).[k] + sv)%float
          ∧ (csv st').[k] = (sv + ((v0 st1).[k] - (v0 st').[k]))%float
          ∧ ∀ j, j < 7 →
              rd (er st') j k = rd (e st') j k ∧ rd (br st') j k = rd (b st') j k
        else
          (x0 st').[k] = (x0 st1).[k]
          ∧ (v0 st').[k] = (v0 st1).[k]
          ∧ (csx st').[k] = (csx st1).[k]
          ∧ (csv st').[k] = (csv st1).[k]
          ∧ ∀ j, rd (er st') j k = rd (er st1) j k
                 ∧ rd (br st') j k = rd (br st1) j k.
Proof. apply step_cells. Qed.

Lemma capture_values (ps : list particle) (x0 v0 a0 : list float) :
  3 * length ps ≤ length x0 → 3 * length ps ≤ length v0 →
  3 * length ps ≤ length a0 →
  ∀ i p, ps !! i = Some p →
    let '(x1, v1, a1) := capture ps x0 v0 a0 in
    x1.[3 * i] = x p ∧ x1.[3 * i + 1] = y p ∧ x1.[3 * i + 2] = z p
    ∧ v1.[3 * i] = vx p ∧ v1.[3 * i + 1] = vy p ∧ v1.[3 * i + 2] = vz p
    ∧ a1.[3 * i] = ax p ∧ a1.[3 * i + 1] = ay p ∧ a1.[3 * i + 2] = az p.
Proof.
  intros Hx Hv Ha.
  set (I := λ (m : nat) (xva : list float * list float * list float),
    length xva.1.1 = length x0 ∧ length xva.1.2 = length v0
    ∧ length xva.2 = length a0
    ∧ ∀ i p, i < m → ps !! i = Some p →
        xva.1.1.[3 * i] = x p ∧ xva.1.1.[3 * i + 1] = y p ∧ xva.1.1.[3 * i + 2] = z p
        ∧ xva.1.2.[3 * i] = vx p ∧ xva.1.2.[3 * i + 1] = vy p
        ∧ xva.1.2.[3 * i + 2] = vz p
        ∧ xva.2.[3 * i] = ax p ∧ xva.2.[3 * i + 1] = ay p ∧ xva.2.[3 * i + 2] = az p).
  assert (I (0 + length ps) (capture ps x0 v0 a0)) as (_ & _ & _ & Hall).
  { apply (for_inv I 0 (length ps)).
    { do 3 (split; [done|]). intros i p Hi. exfalso. lia. }
    intros m [[x1 v1] a1] [_ Hm] (Hl1 & Hl2 & Hl3 & Hdone). simpl in Hm.
    cbn [fst snd] in *. unfold capture_k, I. cbn [fst snd].
    rewrite !length_insert. do 3 (split; [done|]).
    intros i p Hi Hp. destruct (decide (i = m)) as [->|Hne].
    - rewrite (list_lookup_total_correct ps m p Hp).
      repeat split;
        repeat first
          [ rewrite list_lookup_total_insert_eq by (rewrite ?length_insert; lia)
          | rewrite list_lookup_total_insert_ne by lia ]; reflexivity.
    - rewrite !list_lookup_total_insert_ne by lia.
      apply (Hdone i p); [lia|done]. }
  intros i p Hp.
  specialize (Hall i p ltac:(apply lookup_lt_Some in Hp; simpl; lia) Hp).
  destruct (capture ps x0 v0 a0) as [[x1 v1] a1]. exact Hall.
Qed.

(** X10: when the loop starts, [x0], [v0] and [a0] hold the position, the
    velocity and the acceleration every particle had at entry, and [a0]
    still holds them when the step returns. *)
Theorem entry_state_captured (st : state) :
  buffers_ok st →
  ∃ st' : state,
    integrator_ias15_step st = Some (st', 1%Z)
    ∧ a0 st' = a0 (prepare st)
    ∧ ∀ i p,
        particles st !! i = Some p →
        (x0 (prepare st)).[3 * i] = x p
        ∧ (x0 (prepare st)).[3 * i + 1] = y p
        ∧ (x0 (prepare st)).[3 * i + 2] = z p
        ∧ (v0 (prepare st)).[3 * i] = vx p
        ∧ (v0 (prepare st)).[3 * i + 1] = vy p
        ∧ (v0 (prepare st)).[3 * i + 2] = vz p
        ∧ (a0 (prepare st)).[3 * i] = ax p
        ∧ (a0 (prepare st)).[3 * i + 1] = ay p
        ∧ (a0 (prepare st)).[3 * i + 2] = az p.
Proof.
  intros Hok.
  destruct (step_shape st) as (s6 & s & _ & _ & Hstep).
  exists (finish (prepare st) s). split; [done|].
  destruct (finish_buffers_fields (prepare st) s) as (_ & _ & _ & _ & _ & Ha0).
  split; [done|].
  intros i p Hp.
  destruct (allocate_buffers st Hok)
    as ((_ & Hx0 & Hv0 & Ha0' & _) & HN & Hps).
  destruct (prepare_parts st) as (_ & _ & _ & _ & _ & _ & _ & _ & _ & -> & -> & ->).
  pose proof (capture_values (particles (allocate st)) (x0 (allocate st))
                (v0 (allocate st)) (a0 (allocate st))) as Hcap.
  rewrite Hps in Hcap. specialize (Hcap ltac:(lia) ltac:(lia) ltac:(lia) i p Hp).
  rewrite Hps.
  destruct (capture _ _ _ _) as [[x1 v1] a1]. exact Hcap.
Qed.

End Commit.

(** ** What a step leaves alone *)

Section Untouched.

Import IAS15 Particle.
Context {env : Collaborators}.

Lemma node_projection {A : Type} (f : particle → A) (st : state) (n : nat)
    (s : pc_data) :
  (∀ b i p a, f (set_acc (at_node st b n i p) a) = f p) →
  f <$> pc_particles (node st n s) = f <$> pc_particles s.
Proof.
  intros Hf. apply list_eq; intros i. rewrite !list_lookup_fmap.
  destruct (node_particles st n s i) as [a ->].
  destruct (pc_particles s !! i); simpl; [|done]. by rewrite Hf.
Qed.

Lemma node_kept (st : state) (n : nat) (s : pc_data) :
  store_kept st s → store_kept st (node st n s).
Proof.
  intros [Hmeta Hvel]. split.
  - rewrite <-Hmeta. apply node_projection. intros b i p a.
    unfold at_node, predict_velocity, predict_position.
    destruct (velocity_dependent st); destruct (_ <? _)%Z; reflexivity.
  - intros Hv. rewrite <-(Hvel Hv). apply node_projection. intros b i p a.
    unfold at_node, predict_position. rewrite Hv.
    destruct (_ <? _)%Z; reflexivity.
Qed.

Lemma fmap_insert_same {A B : Type} `{!Inhabited A} (f : A → B) (l : list A)
    (i : nat) (v : A) :
  f v = f (l !!! i) → f <$> <[i := v]> l = f <$> l.
Proof.
  intros Hf. destruct (decide (i < length l)) as [Hlt|Hge].
  - rewrite list_fmap_insert. apply list_insert_id.
    rewrite list_lookup_fmap, (list_lookup_lookup_total_lt l i Hlt). simpl.
    by rewrite Hf.
  - by rewrite list_insert_ge by lia.
Qed.

Lemma commit_particle_numbers (st : state) (b : list (list float)) (m : nat)
    (cs : commit_state) :
  number <$> c_particles (commit_particle st b m cs) = number <$> c_particles cs.
Proof.
  unfold commit_particle. case_bool_decide as Hclass.
  - pose proof (commit_components_particles st b (3 * m) 3 cs) as Hpart.
    revert Hpart. generalize (for_ (3 * m) 3 (commit_component st b) cs).
    intros cs1 Hpart. cbn [c_particles set_particles]. rewrite Hpart.
    rewrite fmap_insert_same by reflexivity.
    by rewrite fmap_insert_same by reflexivity.
  - cbn [c_particles set_particles].
    rewrite fmap_insert_same by reflexivity.
    by rewrite fmap_insert_same by reflexivity.
Qed.

Lemma commit_numbers (st : state) (s : pc_data) :
  number <$> c_particles (commit st s) = number <$> pc_particles s.
Proof.
  unfold commit.
  apply (for_inv (λ _ cs, number <$> c_particles cs = number <$> pc_particles s)
           0 (length (pc_particles s))); [done|].
  intros i cs _ Hcs. by rewrite commit_particle_numbers.
Qed.

Lemma find_new_timestep_numbers (st : state) (at_ : list float)
    (b : list (list float)) (ps : list particle) :
  number <$> find_new_timestep st at_ b ps = number <$> ps.
Proof.
  apply list_eq; intros i.
  rewrite !list_lookup_fmap, find_new_timestep_lookup.
  destruct (ps !! i); simpl; [|done].
  destruct (_ <? _)%float; [|done].
  unfold control_particle. by case_bool_decide.
Qed.

(** X11: a step keeps the [number] of every particle, and it does not
    advance a particle outside the current class: [tdone], [dtdone] and the
    class of such a particle are as before, and so is its velocity unless
    the force is velocity dependent. *)
Theorem other_class_is_not_advanced (st : state) :
  ∃ st' : state,
    integrator_ias15_step st = Some (st', 1%Z)
    ∧ number <$> particles st' = number <$> particles st
    ∧ ∀ i p,
        particles st !! i = Some p →
        Particle.dtexp p ≠ IAS15.dtexp st →
        ∃ p', particles st' !! i = Some p'
              ∧ tdone p' = tdone p ∧ dtdone p' = dtdone p
              ∧ Particle.dtexp p' = Particle.dtexp p
              ∧ (velocity_dependent st = false →
                 vx p' = vx p ∧ vy p' = vy p ∧ vz p' = vz p).
Proof.
  destruct (step_shape_with st (store_kept (prepare st)))
    as (s6 & s & [Hmeta6 Hvel6] & [Hmeta _] & Hinv & Hpc & _ & _ & Hstep).
  { split; done. }
  { intros s H. exact H. }
  { intros n s. apply node_kept. }
  exists (finish (prepare st) s). split; [done|].
  destruct (prepare_fields st) as (Hps & _ & Hdtexp & _ & _ & _ & Hflag & _).
  split.
  { destruct (finish_fields (prepare st) s) as (-> & _).
    rewrite find_new_timestep_numbers, commit_numbers, <-Hps.
    apply (f_equal (fmap (λ v : float * float * Z, v.2))) in Hmeta.
    rewrite <-!list_fmap_compose in Hmeta. exact Hmeta. }
  intros i p Hp Hclass.
  destruct (step_particle st s6 s i p Hinv Hpc Hp)
    as (p6 & a & pc' & p' & Hp6 & Hd6 & Hcommitted & Hp' & Hctl).
  destruct (step_particle_dtexp st s6 s i p Hinv Hpc Hp) as (q & Hq & Hdq).
  assert (q = p') as -> by congruence.
  exists p'. split; [done|].
  rewrite bool_decide_eq_false_2, andb_false_r in Hdq by done.
  destruct Hcommitted as (_ & _ & _ & _ & Hc).
  rewrite decide_False in Hc.
  2:{ cbn [Particle.dtexp set_acc]. rewrite at_node_dtexp, Hd6, Hdtexp. done. }
  destruct Hc as (_ & _ & _ & _ & _ & _ & Hvx & Hvy & Hvz & Htd & Hdtd).
  cbn [vx vy vz tdone dtdone set_acc] in Hvx, Hvy, Hvz, Htd, Hdtd.
  assert (vx p' = vx pc' ∧ vy p' = vy pc' ∧ vz p' = vz pc'
          ∧ tdone p' = tdone pc' ∧ dtdone p' = dtdone pc')
    as (-> & -> & -> & -> & ->).
  { destruct (0 <? integrator_epsilon st)%float; subst p'; [|done].
    pose proof (control_particle_fields (prepare st) (at_ (finish (prepare st) s))
                  (b (finish (prepare st) s)) i pc') as Hfld.
    cbv zeta in Hfld. tauto. }
  rewrite Htd, Hdtd, Hvx, Hvy, Hvz.
  rewrite <-Hps in Hp.
  apply (f_equal (λ l, l !! i)) in Hmeta6.
  rewrite !list_lookup_fmap, Hp6, Hp in Hmeta6. simpl in Hmeta6.
  injection Hmeta6 as Htd6 Hdtd6 _.
  assert (tdone (at_node (prepare st) (pc_b s6) 7 i p6) = tdone p6
          ∧ dtdone (at_node (prepare st) (pc_b s6) 7 i p6) = dtdone p6)
    as [-> ->].
  { unfold at_node, predict_velocity, predict_position.
    destruct (velocity_dependent _); destruct (_ <? _)%Z; done. }
  split; [done|]. split; [done|]. split; [done|].
  intros Hv.
  assert (velocity_dependent (prepare st) = false) as Hv1.
  { unfold velocity_dependent in *. by rewrite Hflag. }
  specialize (Hvel6 Hv1).
  apply (f_equal (λ l, l !! i)) in Hvel6.
  rewrite !list_lookup_fmap, Hp6, Hp in Hvel6. simpl in Hvel6.
  injection Hvel6 as Hvx6 Hvy6 Hvz6.
  unfold at_node, predict_position. rewrite Hv1.
  destruct (_ <? _)%Z; cbn [vx vy vz set_pos]; done.
Qed.

End Untouched.

(** ** The convergence metric *)

Section Metric.

Import IAS15 Particle.
Context {env : Collaborators}.

Ltac case_keeps_error :=
  intros k [[g1 b1] err1] Herr; cbn [snd] in Herr; cbv zeta; cbn -[rd wr];
  repeat match goal with
         | |- context [if ?c then _ else _] =>
             let H := fresh "Hc" in destruct c eqn:H; cbn -[rd wr]
         end;
  try assumption.

Lemma case1_keeps_error (at_ a0 : list float) : keeps_error_ok (case1_k at_ a0).
Proof. case_keeps_error. Qed.
Lemma case2_keeps_error (at_ a0 : list float) : keeps_error_ok (case2_k at_ a0).
Proof. case_keeps_error. Qed.
Lemma case3_keeps_error (at_ a0 : list float) : keeps_error_ok (case3_k at_ a0).
Proof. case_keeps_error. Qed.
Lemma case4_keeps_error (at_ a0 : list float) : keeps_error_ok (case4_k at_ a0).
Proof. case_keeps_error. Qed.
Lemma case5_keeps_error (at_ a0 : list float) : keeps_error_ok (case5_k at_ a0).
Proof. case_keeps_error. Qed.
Lemma case6_keeps_error (at_ a0 : list float) : keeps_error_ok (case6_k at_ a0).
Proof. case_keeps_error. Qed.
Lemma case7_keeps_error (at_ a0 : list float) : keeps_error_ok (case7_k at_ a0).
Proof.
  case_keeps_error. right. apply andb_true_iff in Hc as [Hn _]. exact Hn.
Qed.

Lemma improve_error_ok (st : state) (ps : list particle) (at_ : list float)
    (n : nat) (s : gbe) :
  error_ok s.2 → error_ok (improve st ps at_ n s).2.
Proof.
  intros Hs.
  assert (∀ body N3, keeps_error_ok body →
            error_ok (for_ 0 N3 (guard st ps body) s).2) as Hguard.
  { intros body N3 Hbody.
    apply (for_inv (λ _ acc, error_ok acc.2) 0 N3); [done|].
    intros k acc _ Hacc. unfold guard. destruct (in_class st ps k); [|done].
    by apply Hbody. }
  unfold improve.
  do 8 (destruct n as [|n]; [try done; apply Hguard;
    eauto using case1_keeps_error, case2_keeps_error, case3_keeps_error,
      case4_keeps_error, case5_keeps_error, case6_keeps_error,
      case7_keeps_error|]).
  done.
Qed.

Lemma node_error_ok (st : state) (n : nat) (s : pc_data) :
  error_ok (predictor_corrector_error s) →
  error_ok (predictor_corrector_error (node st n s)).
Proof.
  intros Hs. unfold node.
  match goal with
  | |- context [improve ?st ?ps ?a ?m ?s0] =>
      pose proof (improve_error_ok st ps a m s0 Hs) as Herr;
      destruct (improve st ps a m s0) as [[g1 b1] err1]
  end.
  exact Herr.
Qed.

(** X12: every step runs the loop body at least once and at most twelve
    times, and the convergence metric the exit tests read when the loop is
    left is zero or a normal number, never a NaN, an infinity or a
    subnormal. *)
Theorem metric_is_an_ordinary_number (st : state) :
  ∃ (s : pc_state) (st' : state),
    pc_loop pc_fuel (prepare st) (pc_initial (prepare st)) = Some s
    ∧ integrator_ias15_step st = Some (st', 1%Z)
    ∧ (1 ≤ iterations s ≤ 12)%Z
    ∧ (predictor_corrector_error (pc s) = 0%float
       ∨ isnormal (predictor_corrector_error (pc s)) = true).
Proof.
  destruct (step_shape_with st (λ s, error_ok (predictor_corrector_error s)))
    as (s6 & s & _ & Hs & _ & _ & Hit & Hloop & Hstep).
  { right. reflexivity. }
  { intros s _. by left. }
  { intros n s. apply node_error_ok. }
  exists s, (finish (prepare st) s). done.
Qed.

(** *** A step with no particle of the current class *)

Lemma guard_skip (st : state) (ps : list particle) (body : nat → gbe → gbe)
    (N3 : nat) (s : gbe) :
  (∀ k, k < N3 → in_class st ps k = false) →
  for_ 0 N3 (guard st ps body) s = s.
Proof.
  intros Hnone.
  apply (for_inv (λ _ acc, acc = s) 0 N3); [done|].
  intros k acc Hk ->. unfold guard. rewrite Hnone by lia. done.
Qed.

Lemma improve_skip (st : state) (ps : list particle) (at_ : list float) (n : nat)
    (s : gbe) :
  (∀ k, k < 3 * length ps → in_class st ps k = false) →
  improve st ps at_ n s = s.
Proof.
  intros Hnone. unfold improve.
  do 8 (destruct n as [|n]; [try done; by apply guard_skip|]). done.
Qed.

Lemma copy_at_skip (st : state) (ps : list particle) (at_ : list float) :
  (∀ i, i < length ps → Particle.dtexp ps.[i] ≠ IAS15.dtexp st) →
  for_ 0 (length ps) (copy_at_k st ps) at_ = at_.
Proof.
  intros Hnone.
  apply (for_inv (λ _ acc, acc = at_) 0 (length ps)); [done|].
  intros k acc Hk ->. unfold copy_at_k.
  rewrite bool_decide_eq_true_2; [done|]. apply Hnone. lia.
Qed.

Lemma node_idle (st : state) (n : nat) (s : pc_data) :
  (∀ i, i < length (particles st) →
        Particle.dtexp (particles st).[i] ≠ IAS15.dtexp st) →
  idle st s → idle st (node st n s).
Proof.
  intros Hnone (Hd & Hat & Hg & Hb & Herr).
  pose proof (node_dtexp st n s) as Hnd. rewrite Hd in Hnd.
  pose proof (node_store st n s) as Hstore.
  unfold node in *.
  set (ps := integrator_update_acceleration
               (predict st (pc_b s) n (pc_particles s))) in *.
  assert (length ps = length (particles st)) as Hlen.
  { rewrite <-(length_fmap Particle.dtexp), <-Hstore, Hnd. apply length_fmap. }
  assert (∀ i, i < length ps → Particle.dtexp ps.[i] ≠ IAS15.dtexp st) as Hnone'.
  { intros i Hi. rewrite <-Hstore. rewrite (dtexp_total _ (particles st) i Hnd).
    apply Hnone. lia. }
  rewrite copy_at_skip by done.
  rewrite improve_skip.
  2:{ intros k Hk. unfold in_class. apply bool_decide_eq_false_2, Hnone'.
      apply Nat.Div0.div_lt_upper_bound. lia. }
  unfold idle. cbn [pc_particles pc_at pc_g pc_b predictor_corrector_error].
  rewrite <-Hstore. done.
Qed.

Lemma pc_loop_unfold (fuel : nat) (st : state) (s : pc_state) :
  pc_loop (S fuel) st s
  = if converged s then Some s
    else if oscillating s then Some s
    else if exhausted s then Some (not_converged s)
    else pc_loop fuel st (iteration st s).
Proof. reflexivity. Qed.

(** X13: when no particle has the current class (an empty store included),
    the step runs one iteration only: no component enters the metric, which
    is zero at the first test, and [b], [g] and [at] are left as the warm
    start set them. *)
Theorem idle_step_runs_one_iteration (st : state) :
  (∀ p, p ∈ particles st → Particle.dtexp p ≠ IAS15.dtexp st) →
  ∃ (s : pc_state) (st' : state),
    pc_loop pc_fuel (prepare st) (pc_initial (prepare st)) = Some s
    ∧ integrator_ias15_step st = Some (st', 1%Z)
    ∧ iterations s = 1%Z
    ∧ predictor_corrector_error (pc s) = 0%float
    ∧ b st' = b (prepare st) ∧ g st' = g (prepare st) ∧ at_ st' = at_ (prepare st)
    ∧ integrator_iterations_max_exceeded st' = integrator_iterations_max_exceeded st
    ∧ stderr st' = stderr st.
Proof.
  intros Hnone.
  destruct (prepare_fields st) as (Hps & _ & Hdtexp & _).
  assert (∀ i, i < length (particles (prepare st)) →
            Particle.dtexp (particles (prepare st)).[i] ≠ IAS15.dtexp (prepare st))
    as Hnone1.
  { intros i Hi. rewrite Hps, Hdtexp. apply Hnone.
    apply list_elem_of_lookup. exists i.
    apply list_lookup_lookup_total_lt. by rewrite <-Hps. }
  set (s1 := iteration (prepare st) (pc_initial (prepare st))).
  assert (idle (prepare st) (pc s1)) as (_ & Hat & Hg & Hb & Herr).
  { unfold s1, iteration. cbn [pc].
    apply (for_inv (λ _ acc, idle (prepare st) acc) 1 7); [by repeat split|].
    intros n acc _. by apply node_idle. }
  assert (pc_loop pc_fuel (prepare st) (pc_initial (prepare st)) = Some s1) as Hloop.
  { unfold pc_fuel. rewrite pc_loop_unfold.
    change (converged (pc_initial (prepare st))) with false.
    change (oscillating (pc_initial (prepare st))) with false.
    change (exhausted (pc_initial (prepare st))) with false.
    cbv iota. fold s1. rewrite pc_loop_unfold.
    unfold converged. rewrite Herr. reflexivity. }
  exists s1, (finish (prepare st) s1).
  split; [done|]. split.
  { unfold integrator_ias15_step. by rewrite Hloop. }
  split; [reflexivity|]. split; [done|].
  destruct (finish_fields (prepare st) s1) as (_ & _ & _ & -> & -> & _).
  destruct (prepare_counters st) as [Hcnt Herr0].
  rewrite Hat, Hb. split; [done|].
  unfold finish. destruct (advance _ _) as [[dtexp' substep'] t'].
  cbn [g at_ integrator_iterations_max_exceeded stderr].
  unfold s1. cbn [iteration pc_initial pc_max_exceeded pc_stderr].
  rewrite Hcnt, Herr0. fold s1. done.
Qed.

End Metric.

(** ** The position cache *)

Section Cache.

Import IAS15 Particle.
Context {env : Collaborators}.

Lemma commit_particle_projection {A : Type} (f : particle → A) (st : state)
    (b : list (list float)) (m : nat) (cs : commit_state) :
  untouched st f →
  f <$> c_particles (commit_particle st b m cs) = f <$> c_particles cs.
Proof.
  intros Hf. unfold commit_particle. case_bool_decide as Hclass.
  - pose proof (commit_components_particles st b (3 * m) 3 cs) as Hpart.
    revert Hpart. generalize (for_ (3 * m) 3 (commit_component st b) cs).
    intros cs1 Hpart. cbn [c_particles set_particles]. rewrite Hpart.
    rewrite fmap_insert_same by apply (ut_cache st f Hf).
    apply fmap_insert_same.
    by rewrite (ut_done st f Hf), (ut_vel st f Hf), (ut_pos st f Hf).
  - cbn [c_particles set_particles].
    rewrite fmap_insert_same by apply (ut_cache st f Hf).
    apply fmap_insert_same. by rewrite (ut_pos st f Hf).
Qed.

Lemma commit_projection {A : Type} (f : particle → A) (st : state) (s : pc_data) :
  untouched st f →
  f <$> c_particles (commit st s) = f <$> pc_particles s.
Proof.
  intros Hf. unfold commit.
  apply (for_inv (λ _ cs, f <$> c_particles cs = f <$> pc_particles s)
           0 (length (pc_particles s))); [done|].
  intros i cs _ Hcs. by rewrite commit_particle_projection.
Qed.

Lemma find_new_timestep_projection {A : Type} (f : particle → A) (st : state)
    (at_ : list float) (b : list (list float)) (ps : list particle) :
  untouched st f →
  f <$> find_new_timestep st at_ b ps = f <$> ps.
Proof.
  intros Hf. apply list_eq; intros i.
  rewrite !list_lookup_fmap, find_new_timestep_lookup.
  destruct (ps !! i); simpl; [|done].
  destruct (_ <? _)%float; [|done].
  unfold control_particle. case_bool_decide; [done|].
  by rewrite (ut_dtexp st f Hf).
Qed.

Lemma step_projection {A : Type} (f : particle → A) (st st' : state) (ret : Z) :
  untouched st f →
  integrator_ias15_step st = Some (st', ret) →
  f <$> particles st' = f <$> particles st.
Proof.
  intros Hf Hstep.
  destruct (prepare_fields st) as (Hps & _ & Hdtexp & Hsub & _).
  assert (untouched (prepare st) f) as Hf1.
  { destruct Hf. split; try done. by rewrite Hdtexp, Hsub. }
  destruct (step_shape_with st (λ s, f <$> pc_particles s = f <$> particles (prepare st)))
    as (s6 & s & _ & Hs & _ & _ & _ & _ & Hstep').
  { done. }
  { intros s H. exact H. }
  { intros n s <-. apply node_projection. intros b i p a.
    rewrite (ut_acc _ f Hf1). unfold at_node, predict_velocity, predict_position.
    destruct (velocity_dependent _); destruct (_ <? _)%Z;
      by rewrite ?(ut_vel _ f Hf1), ?(ut_pos _ f Hf1). }
  rewrite Hstep' in Hstep. injection Hstep as <- _.
  destruct (finish_fields (prepare st) s) as (-> & _).
  by rewrite find_new_timestep_projection, commit_projection, Hs, Hps.
Qed.

Lemma tbl_set_other (tbl : Z → Z → float) (i j i' j' : Z) (v : float) :
  ¬ (i' = i ∧ j' = j) → tbl_set tbl i j v i' j' = tbl i' j'.
Proof. intros Hne. unfold tbl_set. by rewrite bool_decide_eq_false_2. Qed.

(** X14: a step leaves every particle, whatever its class, at the position
    held in [x0], and writes that position to the cell
    [[-dtexp][dtexp_substep[-dtexp]]] of its three cache tables, for the
    entry values of [dtexp] and [dtexp_substep]; every other cell of the
    tables is as it was. *)
Theorem position_cache_written (st : state) :
  ∃ st' : state,
    integrator_ias15_step st = Some (st', 1%Z)
    ∧ ∀ i p,
        particles st !! i = Some p →
        let row := (- IAS15.dtexp st)%Z in
        let col := dtexp_substep st row in
        ∃ p', particles st' !! i = Some p'
              ∧ x p' = (x0 st').[3 * i]
              ∧ y p' = (x0 st').[3 * i + 1]
              ∧ z p' = (x0 st').[3 * i + 2]
              ∧ xpast p' row col = x p'
              ∧ ypast p' row col = y p'
              ∧ zpast p' row col = z p'
              ∧ ∀ r c, ¬ (r = row ∧ c = col) →
                  xpast p' r c = xpast p r c
                  ∧ ypast p' r c = ypast p r c
                  ∧ zpast p' r c = zpast p r c.
Proof.
  destruct (step_shape st) as (s6 & s & Hinv & Hpc & Hstep).
  exists (finish (prepare st) s). split; [done|].
  destruct (prepare_fields st) as (_ & _ & Hdtexp & Hsub & _).
  intros i p Hp row col.
  destruct (step_particle st s6 s i p Hinv Hpc Hp)
    as (p6 & a & pc' & p' & Hp6 & Hd6 & Hcommitted & Hp' & Hctl).
  exists p'. split; [done|].
  assert (x p' = x pc' ∧ y p' = y pc' ∧ z p' = z pc'
          ∧ xpast p' = xpast pc' ∧ ypast p' = ypast pc' ∧ zpast p' = zpast pc')
    as (-> & -> & -> & -> & -> & ->).
  { destruct (0 <? integrator_epsilon st)%float; subst p'; [|done].
    pose proof (control_particle_fields (prepare st) (at_ (finish (prepare st) s))
                  (b (finish (prepare st) s)) i pc') as Hfld.
    cbv zeta in Hfld. tauto. }
  destruct Hcommitted as (_ & Hxp & Hyp & Hzp & Hc).
  rewrite Hdtexp, Hsub in Hxp, Hyp, Hzp. fold row col in Hxp, Hyp, Hzp.
  assert (x pc' = (x0 (finish (prepare st) s)).[3 * i]
          ∧ y pc' = (x0 (finish (prepare st) s)).[3 * i + 1]
          ∧ z pc' = (x0 (finish (prepare st) s)).[3 * i + 2]) as (Hx & Hy & Hz).
  { destruct (decide _) in Hc.
    - tauto.
    - destruct Hc as (-> & -> & -> & -> & -> & -> & _). done. }
  do 6 (split; [done|]).
  intros r c Hcell.
  pose proof (step_projection (λ q, (xpast q r c, ypast q r c, zpast q r c))
                st (finish (prepare st) s) 1%Z) as Hproj.
  apply (f_equal (λ l, l !! i)) in Hproj; [| |done].
  2:{ split; try done. intros q. cbn [cache_pos xpast ypast zpast].
      by rewrite !tbl_set_other. }
  rewrite !list_lookup_fmap, Hp', Hp in Hproj. simpl in Hproj.
  injection Hproj as Hxr Hyr Hzr.
  destruct (0 <? integrator_epsilon st)%float; subst p'.
  - pose proof (control_particle_fields (prepare st) (at_ (finish (prepare st) s))
                  (b (finish (prepare st) s)) i pc') as Hfld.
    cbv zeta in Hfld. destruct Hfld as (_ & _ & _ & _ & _ & _ & _ & _ & Hxf & Hyf & Hzf).
    rewrite Hxf in Hxr. rewrite Hyf in Hyr. rewrite Hzf in Hzr. done.
  - done.
Qed.

End Cache.

(** ** Runs of several steps *)

Section Sequences.

Import IAS15 Particle.
Context {env : Collaborators}.

(** X15: any number of calls of the step routine in a row succeed, and what
    one step keeps the run keeps: the buffers stay allocated, the particles
    are the same in number and carry the same [number]s in the same order,
    and the hierarchy stays within its bounds. *)
Theorem runs_keep_invariants (n : nat) (st : state) :
  buffers_ok st →
  hierarchy_ok st →
  ∃ st' : state,
    steps n st = Some st'
    ∧ buffers_ok st'
    ∧ hierarchy_ok st'
    ∧ number <$> particles st' = number <$> particles st.
Proof.
  revert st. induction n as [|n IH]; intros st Hbuf Hh.
  - exists st. done.
  - destruct (step_buffers st Hbuf) as (st1 & Hstep & Hbuf1 & _ & _).
    destruct Hh as (Hglobal & Hclasses & Hsub).
    destruct (step_hierarchy st Hglobal Hclasses Hsub)
      as (st1' & Hstep' & Hg1 & _ & Hc1 & Hs1).
    assert (st1' = st1) as -> by congruence.
    destruct (IH st1 Hbuf1) as (st' & Hrun & Hbuf' & Hh' & Hnum); [done|].
    exists st'. simpl. rewrite Hstep. split; [done|]. split; [done|]. split; [done|].
    rewrite Hnum. apply (step_projection number st st1 1%Z); [|done].
    by split.
Qed.

Lemma step_fixed (st : state) :
  (0 <? integrator_epsilon st)%float = false →
  at_top_level st →
  ∃ st' : state,
    integrator_ias15_step st = Some (st', 1%Z)
    ∧ at_top_level st'
    ∧ dt st' = integrator_max_dt st
    ∧ t st' = (t st + integrator_max_dt st)%float
    ∧ integrator_epsilon st' = integrator_epsilon st
    ∧ integrator_max_dt st' = integrator_max_dt st.
Proof.
  intros Heps [Hglobal Hclasses].
  destruct (step_shape st) as (s6 & s & Hinv & Hpc & Hstep).
  exists (finish (prepare st) s). split; [done|].
  destruct (prepare_fields st) as (Hps & Ht & Hdtexp & Hsub & Heps1 & Hmax & _ & Hdt).
  destruct (finish_fields (prepare st) s) as (_ & _ & _ & _ & _ & Hfdt & Hfeps & Hfmax).
  assert (∀ p', p' ∈ particles (finish (prepare st) s) → Particle.dtexp p' = 0%Z)
    as Hexit.
  { intros p' Hin. apply list_elem_of_lookup in Hin as [i Hi].
    pose proof (lookup_lt_Some _ _ _ Hi) as Hlt.
    rewrite (finish_length (prepare st) s6 s Hinv Hpc), Hps in Hlt.
    destruct (lookup_lt_is_Some_2 _ _ Hlt) as [p Hp].
    destruct (step_particle_dtexp st s6 s i p Hinv Hpc Hp) as (q & Hq & Hd).
    assert (q = p') as -> by congruence.
    rewrite Heps in Hd. simpl in Hd. rewrite Hd.
    apply Hclasses, list_elem_of_lookup. eauto. }
  assert (find_dtexp_min (particles (finish (prepare st) s)) = 0%Z) as Hmin.
  { destruct (find_dtexp_min_spec (particles (finish (prepare st) s)))
      as [_ [H0|(p & Hp & Hd)]]; [|done|].
    - intros p Hp. rewrite (Hexit p Hp). lia.
    - by rewrite <-Hd, (Hexit p Hp). }
  assert (dt (prepare st) = integrator_max_dt st) as Hdt0.
  { rewrite Hdt, Hglobal. reflexivity. }
  pose proof (finish_hierarchy (prepare st) s) as Hh.
  rewrite Hmin in Hh. unfold advance in Hh.
  rewrite Hdtexp, Hsub, Ht, Hglobal, Hdt0 in Hh.
  assert (IAS15.dtexp (finish (prepare st) s) = 0%Z
          ∧ t (finish (prepare st) s) = (t st + integrator_max_dt st)%float)
    as [Hd' Ht'].
  { destruct (_ =? 8)%Z; simpl in Hh; destruct Hh as (-> & _ & -> & _); done. }
  split; [by split|].
  rewrite Hfdt, Hfeps, Hfmax, Heps1, Hmax. done.
Qed.

(** X18: the constant time step.  When [integrator_epsilon] is not positive
    and nothing is refined (the global class and every particle's class are
    [0]), every step of a run of any length is made with
    [dt = integrator_max_dt] and advances [t] by it, and nothing gets
    refined. *)
Theorem fixed_step_run (n : nat) (st : state) :
  (0 <? integrator_epsilon st)%float = false →
  at_top_level st →
  ∃ st' : state,
    steps n st = Some st'
    ∧ at_top_level st'
    ∧ (0 < n → dt st' = integrator_max_dt st)
    ∧ t st' = Nat.iter n (λ t, (t + integrator_max_dt st)%float) (t st).
Proof.
  revert st. induction n as [|n IH]; intros st Heps Htop.
  - exists st. repeat split; try done; try apply Htop. lia.
  - destruct (step_fixed st Heps Htop)
      as (st1 & Hstep & Htop1 & Hdt1 & Ht1 & Heps1 & Hmax1).
    destruct (IH st1) as (st' & Hrun & Htop' & Hdt' & Ht'); [by rewrite Heps1|done|].
    exists st'. simpl steps. rewrite Hstep.
    split; [done|]. split; [done|]. split.
    + intros _. destruct n as [|n].
      * simpl in Hrun. injection Hrun as <-. done.
      * rewrite Hdt', Hmax1 by lia. done.
    + rewrite Ht', Hmax1, Ht1. by rewrite Nat.iter_succ_r.
Qed.

End Sequences.

(** ** Restart files that do not hold what the header announces *)

Section Short.

Import Input Particle.

Lemma read_particles_any (f : restart_file) (junk : particle) (ps : list particle)
    (bytes : Z) (n : nat) :
  for_ 0 n (read_particle f junk) (ps, bytes)
  = (ps ++ filter (λ p, (0 < number p)%Z) (take n (file_records f))
        ++ (if (0 <? number junk)%Z
            then replicate (n - length (file_records f)) junk else []),
     (bytes + Z.of_nat (n `min` length (file_records f)))%Z).
Proof.
  induction n as [|n IH].
  - unfold for_. simpl.
    destruct (_ <? _)%Z; simpl; rewrite app_nil_r; f_equal; lia.
  - rewrite for_snoc, IH. change (0 + n) with n.
    unfold read_particle, fread_record.
    destruct (file_records f !! n) as [p|] eqn:Hp.
    + pose proof (lookup_lt_Some _ _ _ Hp) as Hlt.
      rewrite (take_S_r _ _ _ Hp), filter_app.
      replace (n - length (file_records f)) with 0 by lia.
      replace (S n - length (file_records f)) with 0 by lia.
      replace (if (0 <? number junk)%Z then replicate 0 junk else [])
        with (@nil particle) by (by destruct (_ <? _)%Z).
      rewrite !app_nil_r.
      destruct (Z.ltb_spec 0 (number p)).
      * rewrite filter_cons_True, filter_nil by done.
        unfold particles_add. rewrite app_assoc. f_equal. lia.
      * rewrite filter_cons_False, filter_nil, app_nil_r by lia. f_equal. lia.
    + pose proof (lookup_ge_None_1 _ _ Hp) as Hge.
      rewrite !take_ge by lia.
      replace (S n - length (file_records f)) with (S (n - length (file_records f)))
        by lia.
      destruct (Z.ltb_spec 0 (number junk)).
      * unfold particles_add. rewrite replicate_S_end, !app_assoc. f_equal. lia.
      * f_equal. lia.
Qed.

(** X16: [input_binary] on a file that ends before the announced records are
    read still runs its loop [_N] times.  The count it prints is 2 plus the
    number of records that were there; the particles already in the store
    and the numbered records of the file come first in the store, in order;
    and no more than [_N] particles are added. *)
Theorem input_binary_short_file (f : restart_file) (junk : particle)
    (ps : list particle) :
  let n := Z.to_nat (file_N f) in
  let read := filter (λ p, (0 < number p)%Z) (take n (file_records f)) in
  ld_t (input_binary f junk ps) = file_t f
  ∧ ld_bytes (input_binary f junk ps)
    = (2 + Z.of_nat (n `min` length (file_records f)))%Z
  ∧ (ps ++ read) `prefix_of` ld_particles (input_binary f junk ps)
  ∧ length (ld_particles (input_binary f junk ps)) ≤ length ps + n
  ∧ ((number junk ≤ 0)%Z → ld_particles (input_binary f junk ps) = ps ++ read).
Proof.
  intros n read. unfold input_binary. fold n.
  rewrite read_particles_any. simpl. fold read.
  split; [done|]. split; [lia|].
  split; [|split].
  - rewrite app_assoc. by eexists.
  - rewrite !length_app.
    pose proof (length_filter (λ p, (0 < number p)%Z) (take n (file_records f))) as Hf.
    fold read in Hf. rewrite length_take in Hf.
    destruct (_ <? _)%Z; [rewrite length_replicate|simpl]; lia.
  - intros Hjunk. destruct (Z.ltb_spec 0 (number junk)); [lia|].
    by rewrite app_nil_r.
Qed.

(** X17: a header whose particle count is zero or negative makes the loop
    of [input_binary] run no pass: the store is left as it was, whatever
    records follow in the file, the time is taken from the header and the
    count printed is 2. *)
Theorem input_binary_empty_count (f : restart_file) (junk : particle)
    (ps : list particle) :
  (file_N f ≤ 0)%Z →
  ld_particles (input_binary f junk ps) = ps
  ∧ ld_t (input_binary f junk ps) = file_t f
  ∧ ld_bytes (input_binary f junk ps) = 2%Z.
Proof.
  intros Hn. unfold input_binary.
  replace (Z.to_nat (file_N f)) with 0 by lia.
  done.
Qed.

End Short.

(** ** From one step to the next *)

Section Carry.

Import IAS15 Particle.
Context {env : Collaborators}.

Lemma allocate_id (st : state) :
  3 * length (particles st) ≤ N3allocated st → allocate st = st.
Proof.
  intros Hn. unfold allocate. rewrite bool_decide_eq_false_2 by lia. done.
Qed.

Lemma extrapolated_ext (q1 : float) (A B : list (list float)) (j k : nat) :
  (∀ l, l < 7 → rd A l k = rd B l k) →
  extrapolated q1 A j k = extrapolated q1 B j k.
Proof.
  intros Hrows. unfold extrapolated.
  by rewrite !(Hrows 0), !(Hrows 1), !(Hrows 2), !(Hrows 3), !(Hrows 4),
       !(Hrows 5), !(Hrows 6) by lia.
Qed.

(** X19: the warm start of the next step works on what this step leaves.
    For a particle of the current class, the [e] the next call computes is
    the extrapolation of the [b] this step ended with, for the ratio of the
    next step's [dt] to this step's, and zero when this step's [dt] is not a
    normal number. *)
Theorem next_warm_start_uses_last_b (st : state) :
  buffers_ok st →
  ∃ st' : state,
    integrator_ias15_step st = Some (st', 1%Z)
    ∧ ∀ i p c j,
        particles st !! i = Some p →
        Particle.dtexp p = IAS15.dtexp st →
        c < 3 → j < 7 →
        rd (e (prepare st')) j (3 * i + c)
        = if isnormal (dt st')
          then extrapolated (dt (prepare st') / dt st') (b st') j (3 * i + c)
          else 0%float.
Proof.
  intros Hok.
  destruct (step_buffers st Hok) as (st' & Hstep & Hok' & HN' & _).
  destruct (step_cells st Hok) as (st1 & Hstep1 & Hcells).
  assert (st1 = st') as -> by congruence.
  destruct (step_shape st) as (s6 & s & Hinv & Hpc & Hstep2).
  assert (finish (prepare st) s = st') as Hfin by congruence.
  exists st'. split; [done|].
  intros i p c j Hp Hclass Hc Hj.
  destruct (prepare_fields st) as (_ & _ & Hdtexp & _).
  destruct (finish_fields (prepare st) s) as (_ & _ & _ & _ & _ & Hfdt & _).
  destruct (step_particle st s6 s i p Hinv Hpc Hp)
    as (p6 & a & pc' & p' & Hp6 & Hd6 & Hcommitted & Hp' & Hctl).
  assert (dtdone p' = dt st') as Hdone.
  { destruct Hcommitted as (_ & _ & _ & _ & Hcm).
    rewrite decide_True in Hcm.
    2:{ cbn [Particle.dtexp set_acc]. rewrite at_node_dtexp, Hd6, Hclass. done. }
    destruct Hcm as (_ & _ & _ & _ & _ & _ & _ & Hdd).
    rewrite <-Hfin, Hfdt, <-Hdd.
    destruct (0 <? integrator_epsilon st)%float; subst p'; [|done].
    pose proof (control_particle_fields (prepare st) (at_ (finish (prepare st) s))
                  (b (finish (prepare st) s)) i pc') as Hfld.
    cbv zeta in Hfld. tauto. }
  rewrite Hfin in Hp'.
  rewrite (prepare_extrapolated st' Hok' i p' c j Hp' Hc Hj), Hdone.
  destruct (isnormal (dt st')); [|done].
  apply extrapolated_ext. intros l Hl.
  destruct (prepare_parts st') as (_ & _ & _ & _ & -> & _).
  rewrite (allocate_id st' HN').
  specialize (Hcells i p c Hp Hc). cbv zeta in Hcells.
  rewrite decide_True in Hcells by done.
  destruct Hcells as (_ & _ & _ & _ & Hrows).
  apply (Hrows l Hl).
Qed.

End Carry.

(** ** The further properties at concrete inputs *)

Section Inputs.

Import IAS15 Particle.

Lemma drift_start_buffers : buffers_ok drift_start.
Proof. apply initial_buffers. Qed.

Lemma drift_start_hierarchy : hierarchy_ok drift_start.
Proof.
  split; [simpl; lia|]. split.
  - intros p Hp. apply list_elem_of_singleton in Hp as ->. simpl. lia.
  - intros i. simpl. lia.
Qed.

Lemma buffers_stay_allocated_witness :
  ∃ st' : state,
    integrator_ias15_step (env := free_kernel) drift_start = Some (st', 1%Z)
    ∧ buffers_ok st'
    ∧ 3 ≤ N3allocated st'.
Proof.
  destruct (buffers_stay_allocated (env := free_kernel) drift_start drift_start_buffers)
    as (st' & Hstep & Hok & HN & Hlen).
  exists st'. split; [exact Hstep|]. split; [exact Hok|].
  rewrite Hlen in HN. exact HN.
Defined.

Lemma growth_resets_all_components_witness :
  (csx (allocate drift_start)).[0] = 0%float
  ∧ rd (b (allocate drift_start)) 6 0 = 0%float.
Proof.
  destruct (growth_resets_all_components drift_start drift_start_buffers
              ltac:(simpl; lia) 0 ltac:(simpl; lia)) as (Hcsx & _ & Hrows).
  destruct (Hrows 6 ltac:(lia)) as (Hb & _).
  split; assumption.
Defined.

Lemma loop_starts_from_zero_witness :
  rd (b (prepare drift_start)) 6 2 = 0%float
  ∧ rd (g (prepare drift_start)) 6 2 = 0%float.
Proof.
  apply (loop_starts_from_zero drift_start drift_start_buffers 2 6);
    simpl; lia.
Defined.

Lemma warm_start_extrapolates_witness :
  rd (e (prepare drift_start)) 0 (3 * 0 + 0)
  = if isnormal (dtdone (moving 1 0))
    then extrapolated (dt (prepare drift_start) / dtdone (moving 1 0))
           (br (prepare drift_start)) 0 (3 * 0 + 0)
    else 0%float.
Proof.
  apply (warm_start_extrapolates drift_start drift_start_buffers 0 (moving 1 0) 0 0);
    [reflexivity|lia|lia].
Defined.

Lemma dtexp_min_is_minimum_witness :
  (find_dtexp_min [moving 1 (-1); moving 1 0] ≤ -1)%Z.
Proof.
  assert (∀ p, p ∈ [moving 1 (-1); moving 1 0] → (-2 ≤ Particle.dtexp p ≤ 0)%Z)
    as Hrange.
  { intros p Hp. apply elem_of_cons in Hp as [->|Hp]; [simpl; lia|].
    apply list_elem_of_singleton in Hp as ->. simpl. lia. }
  destruct (dtexp_min_is_minimum [moving 1 (-1); moving 1 0] Hrange) as [Hle _].
  apply (Hle (moving 1 (-1))). apply list_elem_of_here.
Defined.

Lemma hierarchy_stays_in_bounds_witness :
  ∃ st' : state,
    integrator_ias15_step (env := free_kernel) drift_start = Some (st', 1%Z)
    ∧ (-2 ≤ IAS15.dtexp st' ≤ 0)%Z
    ∧ (-2 ≤ dtexp_min st' ≤ 0)%Z.
Proof.
  destruct drift_start_hierarchy as (Hglobal & Hclasses & Hsub).
  destruct (hierarchy_stays_in_bounds (env := free_kernel) drift_start
              Hglobal Hclasses Hsub) as (st' & Hstep & Hg & Hmin & _).
  exists st'. split; [exact Hstep|]. split; assumption.
Defined.

Lemma commit_advances_current_class_witness :
  ∃ st' : state,
    integrator_ias15_step (env := free_kernel) drift_start = Some (st', 1%Z)
    ∧ rd (br st') 6 0 = rd (b st') 6 0
    ∧ rd (er st') 6 0 = rd (e st') 6 0.
Proof.
  destruct (commit_advances_current_class (env := free_kernel) drift_start
              drift_start_buffers) as (st' & Hstep & Hall).
  specialize (Hall 0 (moving 1 0) 0 eq_refl ltac:(lia)).
  cbv zeta in Hall. rewrite decide_True in Hall by reflexivity.
  destruct Hall as (_ & _ & _ & _ & Hrows).
  destruct (Hrows 6 ltac:(lia)) as [Her Hbr].
  exists st'. split; [exact Hstep|]. split; assumption.
Defined.

Lemma entry_state_captured_witness :
  (x0 (prepare drift_start)).[0] = 0%float
  ∧ (v0 (prepare drift_start)).[0] = 1%float.
Proof.
  destruct (entry_state_captured (env := free_kernel) drift_start drift_start_buffers)
    as (st' & _ & _ & Hall).
  destruct (Hall 0 (moving 1 0) eq_refl) as (Hx & _ & _ & Hvx & _).
  split; assumption.
Defined.

Lemma idle_step_runs_one_iteration_witness :
  ∃ (s : pc_state) (st' : state),
    integrator_ias15_step (env := free_kernel) refine_start = Some (st', 1%Z)
    ∧ iterations s = 1%Z
    ∧ b st' = b (prepare refine_start).
Proof.
  destruct (idle_step_runs_one_iteration (env := free_kernel) refine_start)
    as (s & st' & _ & Hstep & Hit & _ & Hb & _).
  { intros p Hp. apply list_elem_of_singleton in Hp as ->. discriminate. }
  exists s, st'. split; [exact Hstep|]. split; assumption.
Defined.

Lemma runs_keep_invariants_witness :
  ∃ st' : state,
    steps (env := free_kernel) 3 drift_start = Some st'
    ∧ buffers_ok st'
    ∧ number <$> particles st' = [1%Z].
Proof.
  destruct (runs_keep_invariants (env := free_kernel) 3 drift_start
              drift_start_buffers drift_start_hierarchy)
    as (st' & Hrun & Hok & _ & Hnum).
  exists st'. split; [exact Hrun|]. split; [exact Hok|exact Hnum].
Defined.

Lemma fixed_step_run_witness :
  ∃ st' : state,
    steps (env := free_kernel) 3 (configure (initial [moving 1 0]) 0 0 0.5)
    = Some st'
    ∧ dt st' = 0.5%float
    ∧ t st' = 1.5%float.
Proof.
  destruct (fixed_step_run (env := free_kernel) 3
              (configure (initial [moving 1 0]) 0 0 0.5))
    as (st' & Hrun & _ & Hdt & Ht).
  { reflexivity. }
  { split; [reflexivity|]. intros p Hp.
    apply list_elem_of_singleton in Hp as ->. reflexivity. }
  exists st'. split; [exact Hrun|]. split; [apply Hdt; lia|exact Ht].
Defined.

Lemma next_warm_start_uses_last_b_witness :
  ∃ st' : state,
    integrator_ias15_step (env := free_kernel) drift_start = Some (st', 1%Z)
    ∧ rd (e (prepare st')) 6 0
      = if isnormal (dt st')
        then extrapolated (dt (prepare st') / dt st') (b st') 6 0
        else 0%float.
Proof.
  destruct (next_warm_start_uses_last_b (env := free_kernel) drift_start
              drift_start_buffers) as (st' & Hstep & Hall).
  exists st'. split; [exact Hstep|].
  apply (Hall 0 (moving 1 0) 0 6); [reflexivity|reflexivity|lia|lia].
Defined.

Lemma input_binary_empty_count_witness :
  Input.ld_particles
    (Input.input_binary (Input.mk_file (-1) 1.5 [moving 1 0]) Particle.zero [])
  = [].
Proof.
  apply (input_binary_empty_count
           (Input.mk_file (-1) 1.5 [moving 1 0]) Particle.zero []).
  simpl. lia.
Defined.

End Inputs.
